(** * paklib: the PAK archive reader and builder of [pak.hpp]

    A shallow embedding of [paklib::pak_archive] and [paklib::pak_builder],
    and of the branches of [main] in [main.cpp] that use them.
    Files on disk are byte strings kept in a finite map from paths to
    contents; C streams are cursors into that map.  The three ways a call
    can end (normal return, a C++ exception leaving the function, undefined
    behaviour) are the constructors of [outcome]. *)

From Stdlib Require Import ZArith Lia List Strings.Byte Strings.String Strings.Ascii.
From stdpp Require Import base gmap strings list.

Local Open Scope Z_scope.

(** ** Machine integers *)

Definition UINT32_MAX : Z := 4294967295.

(** Conversion to [uint32_t], [size_t] (64 bits) and [int64_t]. *)
Definition to_uint32 (z : Z) : Z := z mod 2 ^ 32.
Definition to_size_t (z : Z) : Z := z mod 2 ^ 64.
Definition to_int64 (z : Z) : Z := (z + 2 ^ 63) mod 2 ^ 64 - 2 ^ 63.
Definition to_int (z : Z) : Z := (z + 2 ^ 31) mod 2 ^ 32 - 2 ^ 31.

(** ** Bytes and the packed wire layout ([#pragma pack(1)], little endian) *)

Definition byte_of_Z (z : Z) : byte :=
  default x00 (Byte.of_N (Z.to_N (z mod 256))).

Definition Z_of_byte (b : byte) : Z := Z.of_N (Byte.to_N b).

Definition store_uint32 (z : Z) : list byte :=
  [byte_of_Z z; byte_of_Z (z / 256); byte_of_Z (z / 65536); byte_of_Z (z / 16777216)].

Definition load_uint32 (bs : list byte) : Z :=
  Z_of_byte (nth 0 bs x00) + 256 * Z_of_byte (nth 1 bs x00)
  + 65536 * Z_of_byte (nth 2 bs x00) + 16777216 * Z_of_byte (nth 3 bs x00).

Definition zeros (n : nat) : list byte := replicate n x00.

(** Overwriting the front of a memory block (what [fread], [memcpy] and
    [strncpy] do to their destination). *)
Definition overwrite (mem bs : list byte) : list byte :=
  bs ++ drop (length bs) mem.

(** ** C strings *)

(** The characters before the first NUL; the end of the list stands for a
    terminator placed right behind it. *)
Fixpoint c_str (bs : list byte) : list byte :=
  match bs with
  | [] => []
  | b :: rest => if Byte.eqb b x00 then [] else b :: c_str rest
  end.

(** [strncpy(dst, src, n)]: the [n] bytes stored into [dst]. *)
Definition strncpy (src : list byte) (n : nat) : list byte :=
  let s := take n (c_str src) in s ++ zeros (n - length s).

(** [std::string::c_str()] as bytes, and [std::string(const char* )]. *)
Definition string_c_str (s : string) : list byte := c_str (list_byte_of_string s).
Definition string_of_chars (p : list byte) : string := string_of_list_byte (c_str p).

(** ** Structures *)

Definition MAX_PAK_NAME_LEN : Z := 56.

Module pak_header_t.
Record t := mk { id : list byte; offset : Z; size : Z }.
Definition sizeof : Z := 12.
Definition encode (h : t) : list byte :=
  take 4 (id h ++ zeros 4) ++ store_uint32 (offset h) ++ store_uint32 (size h).
Definition decode (mem : list byte) : t :=
  mk (take 4 mem) (load_uint32 (drop 4 mem)) (load_uint32 (drop 8 mem)).
End pak_header_t.

Module pak_file_t.
Record t := mk { name : list byte; offset : Z; size : Z }.
Definition sizeof : Z := 64.
Definition encode (e : t) : list byte :=
  take 56 (name e ++ zeros 56) ++ store_uint32 (offset e) ++ store_uint32 (size e).
Definition decode (mem : list byte) : t :=
  mk (take 56 (mem ++ zeros 56)) (load_uint32 (drop 56 mem)) (load_uint32 (drop 60 mem)).
End pak_file_t.

Module pak_file_details_t.
Record t := mk { offset : Z; size : Z }.
End pak_file_details_t.

Inductive PakError := NoError | OpenFailed | InvalidHeader | InvalidFileEntry.

(** ** How a call ends *)

Inductive exception := out_of_range | filesystem_error.

Inductive outcome (S R : Type) : Type :=
| Ret (r : R) (s : S)          (* returns [r], leaving the object in state [s] *)
| Exn (e : exception) (s : S)  (* an exception leaves the function *)
| UB.                          (* undefined behaviour *)
Arguments Ret {S R} r s.
Arguments Exn {S R} e s.
Arguments UB {S R}.

Definition bind {S A B} (m : outcome S A) (k : A -> S -> outcome S B) : outcome S B :=
  match m with
  | Ret r s => k r s
  | Exn e s => Exn e s
  | UB => UB
  end.

Notation "'call' x 'on' s <- m ; k" := (bind m (fun x s => k))
  (at level 10, x name, s name, m at level 100, k at level 200).

(** ** Files and C streams *)

Abbreviation filesystem := (gmap string (list byte)).

Definition file_bytes (fs : filesystem) (path : string) : list byte :=
  default [] (fs !! path).

(** [FILE*] opened with "rb": a path and a cursor. *)
Record FILE := mkFILE { f_path : string; f_pos : Z }.

(** The value of a [FILE*] member: null, a live stream, or a pointer to a
    stream that [fclose] has already released. *)
Inductive FILE_ptr := nullptr | stream (f : FILE) | closed_stream.

Definition fseek_set (f : FILE) (off : Z) : FILE := mkFILE (f_path f) off.

(** [fread(ptr, size, 1, f)]: the bytes transferred, the item count returned
    (1 only for a complete item of non-zero size) and the advanced stream. *)
Definition fread (fs : filesystem) (f : FILE) (size : Z) : list byte * Z * FILE :=
  let got := take (Z.to_nat size) (drop (Z.to_nat (f_pos f)) (file_bytes fs (f_path f))) in
  (got,
   if (0 <? size) && (Z.of_nat (length got) =? size) then 1 else 0,
   mkFILE (f_path f) (f_pos f + Z.of_nat (length got))).

(** [fwrite(ptr, n, 1, fp)] on a stream opened with "wb" and only ever
    written sequentially: the bytes go to the end of the file. *)
Definition fwrite (fs : filesystem) (out : string) (bs : list byte) : filesystem :=
  <[out := file_bytes fs out ++ bs]> fs.

(** [std::ofstream] with a put position. *)
Record ofstream := mkofstream { o_path : string; o_pos : Z }.

Definition seekp (s : ofstream) (pos : Z) : ofstream := mkofstream (o_path s) pos.

(** [stream.write(p, n)]: overwrites at the put position, zero-filling a
    gap left by a seek past the end; an empty write changes nothing. *)
Definition stream_write (fs : filesystem) (s : ofstream) (bs : list byte)
  : filesystem * ofstream :=
  match bs with
  | [] => (fs, s)
  | _ =>
    let old := file_bytes fs (o_path s) in
    let p := Z.to_nat (o_pos s) in
    (<[o_path s := take p old ++ zeros (p - length old) ++ bs ++ drop (p + length bs) old]> fs,
     mkofstream (o_path s) (o_pos s + Z.of_nat (length bs)))
  end.

(** [char buf[8192];] is not initialised: its contents are whatever the
    stack held, given as [garbage]. *)
Definition sizeof_buf : Z := 8192.

Definition stack_buf (garbage : list byte) : list byte :=
  take (Z.to_nat sizeof_buf) (garbage ++ zeros (Z.to_nat sizeof_buf)).

(** ** [class pak_archive]: read-only view of a PAK file *)

Module pak_archive.

Record t := mk {
  m_file : FILE_ptr;
  m_fileSize : Z;
  m_files : list pak_file_t.t;
  m_errno : PakError;
  m_lookupMap : gmap string nat
}.

(** The default-constructed object. *)
Definition init : t := mk nullptr 0 [] NoError ∅.

Definition set_m_file (p : FILE_ptr) (a : t) : t :=
  mk p (m_fileSize a) (m_files a) (m_errno a) (m_lookupMap a).
Definition set_m_fileSize (z : Z) (a : t) : t :=
  mk (m_file a) z (m_files a) (m_errno a) (m_lookupMap a).
Definition set_m_files (l : list pak_file_t.t) (a : t) : t :=
  mk (m_file a) (m_fileSize a) l (m_errno a) (m_lookupMap a).
Definition set_m_errno (e : PakError) (a : t) : t :=
  mk (m_file a) (m_fileSize a) (m_files a) e (m_lookupMap a).
Definition set_m_lookupMap (m : gmap string nat) (a : t) : t :=
  mk (m_file a) (m_fileSize a) (m_files a) (m_errno a) m.

Definition PakError_eqb (x y : PakError) : bool :=
  match x, y with
  | NoError, NoError | OpenFailed, OpenFailed
  | InvalidHeader, InvalidHeader | InvalidFileEntry, InvalidFileEntry => true
  | _, _ => false
  end.

Definition good (a : t) : bool :=
  match m_file a with
  | nullptr => false
  | _ => PakError_eqb (m_errno a) NoError
  end.

Definition last_error (a : t) : PakError := m_errno a.

Definition file_count (a : t) : Z := to_int (Z.of_nat (length (m_files a))).

(** [fclose] of a stream that is already closed is undefined. *)
Definition close (a : t) : outcome t unit :=
  match m_file a with
  | closed_stream => UB
  | _ => Ret tt (set_m_lookupMap ∅ (set_m_files [] (set_m_file nullptr a)))
  end.

(** The four comparisons of [hdr.id] against 'P','A','C','K'. *)
Definition magic_ok (hdr : pak_header_t.t) : bool :=
  match pak_header_t.id hdr with
  | [b0; b1; b2; b3] =>
    Byte.eqb b0 x50 && Byte.eqb b1 x41 && Byte.eqb b2 x43 && Byte.eqb b3 x4b
  | _ => false
  end.

(** [m_files.resize(n)] on the vector that [close] has just emptied. *)
Definition zero_entry : pak_file_t.t := pak_file_t.mk (zeros 56) 0 0.
Definition resize (n : nat) : list pak_file_t.t := replicate n zero_entry.

(** The vector's storage seen as bytes, and back. *)
Definition vector_bytes (v : list pak_file_t.t) : list byte :=
  concat (map pak_file_t.encode v).

Fixpoint vector_of_bytes (n : nat) (mem : list byte) : list pak_file_t.t :=
  match n with
  | O => []
  | S k => pak_file_t.decode (take 64 mem) :: vector_of_bytes k (drop 64 mem)
  end.

(** The key built from an entry: [char name[57]{}], [memcpy] of the 56
    name bytes, then [std::string(name)]. *)
Definition entry_name (e : pak_file_t.t) : string :=
  string_of_chars (overwrite (zeros 57) (take 56 (pak_file_t.name e))).

(** [std::unordered_map::insert]: an existing key keeps its value. *)
Definition umap_insert (k : string) (v : nat) (m : gmap string nat) : gmap string nat :=
  match m !! k with
  | Some _ => m
  | None => <[k := v]> m
  end.

(** The loop [for (int i = 0; i < m_files.size(); ++i)] from index [i] on. *)
Fixpoint populate (i : nat) (files : list pak_file_t.t) (m : gmap string nat)
  : gmap string nat :=
  match files with
  | [] => m
  | e :: rest => populate (S i) rest (umap_insert (entry_name e) i m)
  end.

Definition open (fs : filesystem) (path : string) (a : t) : outcome t bool :=
  call _ on a <- close a;
  let a := set_m_errno NoError a in
  match fs !! path with
  | None => Ret false (set_m_errno OpenFailed (set_m_file nullptr a))
  | Some data =>
    let f := mkFILE path 0 in
    let a := set_m_fileSize (Z.of_nat (length data)) (set_m_file (stream f) a) in
    if m_fileSize a <? pak_header_t.sizeof then
      Ret false (set_m_file closed_stream (set_m_errno InvalidHeader a))
    else
      let '(mem, items, f) := fread fs f pak_header_t.sizeof in
      let hdr := pak_header_t.decode mem in
      if negb (items =? 1) || negb (magic_ok hdr) then
        Ret false (set_m_file closed_stream (set_m_errno InvalidHeader a))
      else
        let f := fseek_set f (pak_header_t.offset hdr) in
        let v := resize (Z.to_nat (pak_header_t.size hdr / pak_file_t.sizeof)) in
        let a := set_m_files v (set_m_file (stream f) a) in
        match v with
        | [] => Exn out_of_range a   (* m_files.at(0) *)
        | _ =>
          let '(got, items, f) := fread fs f (pak_header_t.size hdr) in
          if (length (vector_bytes v) <? length got)%nat then UB   (* write past the vector *)
          else
            let v := vector_of_bytes (length v) (overwrite (vector_bytes v) got) in
            let a := set_m_files v (set_m_file (stream f) a) in
            if negb (items =? 1) then
              Ret false (set_m_file closed_stream (set_m_errno InvalidFileEntry a))
            else
              Ret true (set_m_lookupMap (populate 0 v (m_lookupMap a)) a)
        end
  end.

(** [read_file]: the result and the bytes stored into [outbuf]. *)
Definition read_file (fs : filesystem) (pak_path : string) (size : Z) (a : t)
  : outcome t (bool * list byte) :=
  match m_lookupMap a !! pak_path with
  | Some i =>
    match m_files a !! i, m_file a with
    | Some e, stream f =>
      let fz := pak_file_t.size e in
      let toread := if fz <? size then fz else size in
      let f := fseek_set f (pak_file_t.offset e) in
      let '(got, items, f) := fread fs f size in
      Ret (items =? 1, got) (set_m_file (stream f) a)
    | _, _ => UB
    end
  | None => Ret (false, []) a
  end.

Definition stat (pak_path : string) (file_size offset : Z) (a : t)
  : outcome t (bool * Z * Z) :=
  match m_lookupMap a !! pak_path with
  | Some i =>
    match m_files a !! i with
    | Some e => Ret (true, pak_file_t.size e, pak_file_t.offset e) a
    | None => UB
    end
  | None => Ret (false, file_size, offset) a
  end.

Section Sink.

(** Whether the system lets the program create (or truncate) a path. *)
Variable can_create : string -> bool.

(** [for (; sz > 0; sz -= sizeof(buf))] of [extract_file]; [sz] is an
    [int64_t] and the subtraction is done in [size_t]. *)
Fixpoint extract_loop (fuel : nat) (fs : filesystem) (f : FILE) (out : string)
  (buf : list byte) (sz : Z) : filesystem * FILE :=
  match fuel with
  | O => (fs, f)
  | S fuel' =>
    if 0 <? sz then
      let n := if to_size_t sz <? sizeof_buf then to_size_t sz else sizeof_buf in
      let '(got, _, f) := fread fs f n in
      let buf := overwrite buf got in
      let fs := fwrite fs out (take (Z.to_nat n) buf) in
      extract_loop fuel' fs f out buf (to_int64 (to_size_t sz - sizeof_buf))
    else (fs, f)
  end.

(** The loop body runs once per started 8 KiB block. *)
Definition extract_fuel (sz : Z) : nat := Z.to_nat (sz / sizeof_buf + 1).

Definition extract_file (pak_path out : string) (garbage : list byte)
  (st : t * filesystem) : outcome (t * filesystem) bool :=
  let '(a, fs) := st in
  match m_lookupMap a !! pak_path with
  | Some i =>
    if negb (can_create out) then Ret false (a, fs)
    else
      let fs := <[out := []]> fs in   (* fopen(out, "wb") *)
      match m_files a !! i, m_file a with
      | Some e, stream f =>
        let f := fseek_set f (pak_file_t.offset e) in
        let sz := to_int64 (pak_file_t.size e) in
        let '(fs, f) := extract_loop (extract_fuel sz) fs f out (stack_buf garbage) sz in
        Ret true (set_m_file (stream f) a, fs)
      | _, _ => UB
      end
  | None => Ret false (a, fs)
  end.

End Sink.

(** *** [class iterator] *)

Record iterator := mkiterator { it_m_file : Z }.

Definition begin (a : t) : iterator := mkiterator 0.
Definition end_ (a : t) : iterator := mkiterator (to_int (Z.of_nat (length (m_files a)))).

(** [operator*]: [None] when the index is outside the vector. *)
Definition deref (a : t) (it : iterator) : option (string * pak_file_details_t.t) :=
  if it_m_file it <? 0 then None
  else
    match m_files a !! Z.to_nat (it_m_file it) with
    | Some f =>
      Some (string_of_chars (overwrite (zeros 57) (take 56 (pak_file_t.name f))),
            pak_file_details_t.mk (pak_file_t.offset f) (pak_file_t.size f))
    | None => None
    end.

Definition incr (it : iterator) : iterator := mkiterator (to_int (it_m_file it + 1)).

(** [for (auto [name, d] : archive)]: the pairs produced from [it] on. *)
Fixpoint range_for (fuel : nat) (a : t) (it : iterator)
  : option (list (string * pak_file_details_t.t)) :=
  match fuel with
  | O => if it_m_file it =? it_m_file (end_ a) then Some [] else None
  | S fuel' =>
    if it_m_file it =? it_m_file (end_ a) then Some []
    else
      match deref a it with
      | Some x => option_map (cons x) (range_for fuel' a (incr it))
      | None => None
      end
  end.

Definition enumerate (a : t) : option (list (string * pak_file_details_t.t)) :=
  range_for (length (m_files a)) a (begin a).

End pak_archive.

(** ** [class pak_builder]: simple PAK file builder *)

Module pak_builder.

Module file_t.
Record t := mk { disk_path : string; pak_path : list byte; offset : Z; size : Z }.
End file_t.

Record t := mk { m_files : list file_t.t }.

Definition init : t := mk [].

(** [std::filesystem::file_size] throws when the path cannot be examined. *)
Definition add_file (fs : filesystem) (disk_path pak_path : string) (b : t)
  : outcome t bool :=
  if MAX_PAK_NAME_LEN <? Z.of_nat (String.length pak_path) then Ret false b
  else
    match fs !! disk_path with
    | None => Exn filesystem_error b
    | Some data =>
      let sz := Z.of_nat (length data) in   (* a [uintmax_t] *)
      if UINT32_MAX <? sz then Ret false b
      else
        let field := overwrite (zeros 57) (strncpy (string_c_str pak_path) 56) in
        Ret true (mk (m_files b ++ [file_t.mk disk_path field 0 sz]))
    end.

Definition build_header (b : t) : pak_header_t.t :=
  pak_header_t.mk (strncpy [x50; x41; x43; x4b] 4) pak_header_t.sizeof
    (to_uint32 (to_size_t (Z.of_nat (length (m_files b)) * pak_file_t.sizeof))).

(** The entry built for one pending file at the running offset. *)
Definition build_entry (curoff : Z) (file : file_t.t) : pak_file_t.t :=
  pak_file_t.mk (strncpy (file_t.pak_path file) 56)
    (to_uint32 curoff) (to_uint32 (file_t.size file)).

(** Pass 1, [for (auto& file : m_files)]: writes one entry per file and
    records the offset in the pending file. *)
Fixpoint write_listing (fs : filesystem) (s : ofstream) (curoff : Z)
  (files : list file_t.t) : filesystem * ofstream * list file_t.t :=
  match files with
  | [] => (fs, s, [])
  | file :: rest =>
    let ent := build_entry curoff file in
    let file' := file_t.mk (file_t.disk_path file) (file_t.pak_path file) curoff (file_t.size file) in
    let curoff := to_size_t (curoff + file_t.size file) in
    let '(fs, s) := stream_write fs s (pak_file_t.encode ent) in
    let '(fs, s, rest') := write_listing fs s curoff rest in
    (fs, s, file' :: rest')
  end.

(** Lines 234 to 255 of [write]: header and file listing. *)
Definition write_layout (fs : filesystem) (s : ofstream) (b : t)
  : filesystem * ofstream * t :=
  let hdr := build_header b in
  let '(fs, s) := stream_write fs s (pak_header_t.encode hdr) in
  let curoff := to_size_t (pak_header_t.sizeof + pak_header_t.size hdr) in
  let '(fs, s, files) := write_listing fs s curoff (m_files b) in
  (fs, s, mk files).

(** [for (; sz > 0; sz -= sizeof(buf))] of pass 2; [ipos] is the read
    position of the input stream. *)
Fixpoint copy_loop (fuel : nat) (fs : filesystem) (ipath : string) (ipos : Z)
  (s : ofstream) (buf : list byte) (sz : Z) : filesystem * ofstream :=
  match fuel with
  | O => (fs, s)
  | S fuel' =>
    if 0 <? sz then
      let got := take (Z.to_nat sizeof_buf) (drop (Z.to_nat ipos) (file_bytes fs ipath)) in
      let buf := overwrite buf got in
      let n := if to_size_t sz <? sizeof_buf then to_size_t sz else sizeof_buf in
      let '(fs, s) := stream_write fs s (take (Z.to_nat n) buf) in
      copy_loop fuel' fs ipath (ipos + Z.of_nat (length got)) s buf
        (to_int64 (to_size_t sz - sizeof_buf))
    else (fs, s)
  end.

Definition copy_fuel (sz : Z) : nat := Z.to_nat (sz / sizeof_buf + 1).

(** Pass 2: the data of every pending file at its recorded offset. *)
Fixpoint write_data (fs : filesystem) (s : ofstream) (garbage : list byte)
  (files : list file_t.t) : bool * filesystem :=
  match files with
  | [] => (true, fs)
  | file :: rest =>
    match fs !! file_t.disk_path file with
    | None => (false, fs)
    | Some _ =>
      let s := seekp s (file_t.offset file) in
      let sz := to_int64 (file_t.size file) in
      let '(fs, s) :=
        copy_loop (copy_fuel sz) fs (file_t.disk_path file) 0 s (stack_buf garbage) sz in
      write_data fs s garbage rest
    end
  end.

Section Sink.

Variable can_create : string -> bool.

Definition write (file : string) (garbage : list byte) (st : t * filesystem)
  : outcome (t * filesystem) bool :=
  let '(b, fs) := st in
  if negb (can_create file) then Ret false (b, fs)
  else
    let fs := <[file := []]> fs in
    let '(fs, s, b) := write_layout fs (mkofstream file 0) b in
    let '(ok, fs) := write_data fs s garbage (m_files b) in
    Ret ok (b, fs).

End Sink.

End pak_builder.

(** ** Vocabulary of the statements *)

(** A name without an embedded NUL character. *)
Definition nul_free (s : string) : Prop := x00 ∉ list_byte_of_string s.

(** A caller registering (disk path, archive name) pairs one after the
    other, giving up at the first call that does not return [true]. *)
Fixpoint add_files (fs : filesystem) (inputs : list (string * string))
  (b : pak_builder.t) : outcome pak_builder.t bool :=
  match inputs with
  | [] => Ret true b
  | (disk_path, pak_path) :: rest =>
    call ok on b <- pak_builder.add_file fs disk_path pak_path b;
    if ok then add_files fs rest b else Ret false b
  end.

(** What registration fixes in a pending file: everything but the offset. *)
Definition registered (f : pak_builder.file_t.t) : string * list byte * Z :=
  (pak_builder.file_t.disk_path f, pak_builder.file_t.pak_path f, pak_builder.file_t.size f).

(** The sum of the sizes of pending files. *)
Definition total_size (files : list pak_builder.file_t.t) : Z :=
  foldr (fun f acc => pak_builder.file_t.size f + acc) 0 files.

(** What enumeration shows of an entry. *)
Definition entry_view (e : pak_file_t.t) : string * pak_file_details_t.t :=
  (pak_archive.entry_name e,
   pak_file_details_t.mk (pak_file_t.offset e) (pak_file_t.size e)).

(** The index of the first entry carrying a name. *)
Definition first_named (name : string) (files : list pak_file_t.t) : option nat :=
  fst <$> list_find (fun e => pak_archive.entry_name e = name) files.

(** A reader that is not open: fresh, closed, or left by an [open] that did
    not succeed. *)
Inductive Closed : pak_archive.t -> Prop :=
| Closed_init : Closed pak_archive.init
| Closed_close a a' : pak_archive.close a = Ret tt a' -> Closed a'
| Closed_open_false fs path a a' :
    pak_archive.open fs path a = Ret false a' -> Closed a'
| Closed_open_exn fs path a e a' :
    pak_archive.open fs path a = Exn e a' -> Closed a'.

(** The pure content of pass 1 of [pak_builder::write]: the entries it
    writes, and the pending files it leaves, from a running offset on. *)
Fixpoint listing_entries (curoff : Z) (files : list pak_builder.file_t.t)
  : list pak_file_t.t :=
  match files with
  | [] => []
  | file :: rest =>
    pak_builder.build_entry curoff file
    :: listing_entries (to_size_t (curoff + pak_builder.file_t.size file)) rest
  end.

Definition with_offset (off : Z) (file : pak_builder.file_t.t) : pak_builder.file_t.t :=
  pak_builder.file_t.mk (pak_builder.file_t.disk_path file)
    (pak_builder.file_t.pak_path file) off (pak_builder.file_t.size file).

Fixpoint assign_offsets (curoff : Z) (files : list pak_builder.file_t.t)
  : list pak_builder.file_t.t :=
  match files with
  | [] => []
  | file :: rest =>
    with_offset curoff file
    :: assign_offsets (to_size_t (curoff + pak_builder.file_t.size file)) rest
  end.

(** Pending files whose sizes are not negative (sizes are [size_t]). *)
Definition sizes_ok (files : list pak_builder.file_t.t) : Prop :=
  Forall (fun f => 0 <= pak_builder.file_t.size f) files.

(** The length of the archive that a pending list describes. *)
Definition archive_size (files : list pak_builder.file_t.t) : Z :=
  12 + 64 * Z.of_nat (length files) + total_size files.

(** The bytes of the source of each pending file, as the disk holds them. *)
Definition sources (fs : filesystem) (files : list pak_builder.file_t.t) : list (list byte) :=
  map (fun f => file_bytes fs (pak_builder.file_t.disk_path f)) files.

(** Every pending file has its source on disk, apart from the output file,
    with the size that was registered. *)
Definition sources_present (fs : filesystem) (file : string)
  (files : list pak_builder.file_t.t) : Prop :=
  Forall (fun f => pak_builder.file_t.disk_path f <> file /\
                   exists data, fs !! pak_builder.file_t.disk_path f = Some data /\
                                pak_builder.file_t.size f = Z.of_nat (length data)) files.

(** The pending record that [add_file] makes of a (disk path, name) pair. *)
Definition pending (fs : filesystem) (input : string * string) : pak_builder.file_t.t :=
  pak_builder.file_t.mk (fst input)
    (overwrite (zeros 57) (strncpy (string_c_str (snd input)) 56)) 0
    (Z.of_nat (length (file_bytes fs (fst input)))).

(** A pair that [add_file] accepts: the source exists and has at most
    [UINT32_MAX] bytes, the name has at most 56. *)
Definition registrable (fs : filesystem) (input : string * string) : Prop :=
  Z.of_nat (String.length (snd input)) <= MAX_PAK_NAME_LEN /\
  exists data, fs !! fst input = Some data /\ Z.of_nat (length data) <= UINT32_MAX.

(** The magic tag. *)
Definition PACK : list byte := [x50; x41; x43; x4b].

(** The state and the value a call ends with, when it returns. *)
Definition final_state {S R} (o : outcome S R) : option S :=
  match o with Ret _ s => Some s | _ => None end.

Definition returned {S R} (o : outcome S R) : option R :=
  match o with Ret r _ => Some r | _ => None end.

(** ** Example data *)

Definition always : string -> bool := fun _ => true.

(** A disk holding two small files. *)
Definition disk2 : filesystem :=
  {[ "a.txt"%string := [x68; x69]; "b.txt"%string := [x79; x6f; x75] ]}.

(** A builder with one pending file, as [add_file] leaves it. *)
Definition one_pending : pak_builder.t :=
  match pak_builder.add_file disk2 "a.txt" "a.txt" pak_builder.init with
  | Ret _ b => b
  | _ => pak_builder.init
  end.

(** A name of 57 characters. *)
Definition name57 : string :=
  "012345678901234567890123456789012345678901234567890123456".

(** Two pending files of 4 GiB - 1 bytes each. *)
Definition two_huge : pak_builder.t :=
  pak_builder.mk
    [pak_builder.file_t.mk "a.bin" (overwrite (zeros 57) [x61]) 0 UINT32_MAX;
     pak_builder.file_t.mk "b.bin" (overwrite (zeros 57) [x62]) 0 UINT32_MAX].

(** 2^26 pending files of no bytes. *)
Definition many_empty : list pak_builder.file_t.t :=
  replicate (Z.to_nat 67108864) (pak_builder.file_t.mk "e" (zeros 57) 0 0).

(** A disk on which the output file has just been created. *)
Definition fresh_output : filesystem := {[ "o.pak"%string := [] ]}.

(** Archives with a good magic tag and table offset 12: no entry at all,
    a table of 32 bytes, a table of 65 bytes, and a header announcing one
    entry that the file does not contain. *)
Definition empty_pak : list byte := PACK ++ store_uint32 12 ++ store_uint32 0.
Definition half_entry_pak : list byte := PACK ++ store_uint32 12 ++ store_uint32 32 ++ zeros 32.
Definition overlong_pak : list byte := PACK ++ store_uint32 12 ++ store_uint32 65 ++ zeros 65.
Definition truncated_pak : list byte := PACK ++ store_uint32 12 ++ store_uint32 64.

Definition bad_disk : filesystem :=
  {[ "empty.pak"%string := empty_pak; "half.pak"%string := half_entry_pak;
     "long.pak"%string := overlong_pak; "cut.pak"%string := truncated_pak ]}.

(** The archive built from the two files of [disk2], and a reader opened
    on it. *)
Definition two_pending : pak_builder.t :=
  match add_files disk2 [("a.txt", "a.txt"); ("b.txt", "dir/b.txt")]%string pak_builder.init with
  | Ret _ b => b
  | _ => pak_builder.init
  end.

Definition built_disk : filesystem :=
  match final_state (pak_builder.write always "o.pak" [] (two_pending, disk2)) with
  | Some (_, fs) => fs
  | None => disk2
  end.

Definition opened : pak_archive.t :=
  match final_state (pak_archive.open built_disk "o.pak" pak_archive.init) with
  | Some a => a
  | None => pak_archive.init
  end.

(** The same two files registered under one archive name. *)
Definition same_name_pending : pak_builder.t :=
  match add_files disk2 [("a.txt", "x"); ("b.txt", "x")]%string pak_builder.init with
  | Ret _ b => b
  | _ => pak_builder.init
  end.

Definition same_name_disk : filesystem :=
  match final_state (pak_builder.write always "x.pak" [] (same_name_pending, disk2)) with
  | Some (_, fs) => fs
  | None => disk2
  end.

Definition same_name_opened : pak_archive.t :=
  match final_state (pak_archive.open same_name_disk "x.pak" pak_archive.init) with
  | Some a => a
  | None => pak_archive.init
  end.

(** The pairs behind [two_pending]. *)
Definition inputs2 : list (string * string) :=
  [("a.txt", "a.txt"); ("b.txt", "dir/b.txt")]%string.

(** A three-character name with a NUL in the middle, and the archive built
    from one file registered under it. *)
Definition name_with_nul : string :=
  String "a" (String (ascii_of_byte x00) (String "b" EmptyString)).

Definition nul_name_disk : filesystem :=
  match add_files disk2 [("a.txt"%string, name_with_nul)] pak_builder.init with
  | Ret _ b =>
    match final_state (pak_builder.write always "n.pak" [] (b, disk2)) with
    | Some (_, fs) => fs
    | None => disk2
    end
  | _ => disk2
  end.

(** Closes [nul_free s] for a literal [s]. *)
Ltac solve_nul_free :=
  let Hin := fresh "Hin" in
  vm_compute; intros Hin;
  repeat (apply elem_of_cons in Hin as [Hin|Hin]; [discriminate|]);
  by apply elem_of_nil in Hin.

(** The offset of the last pending file, the largest one of the table:
    12 + 64 n + s_0 + ... + s_(n-2). *)
Definition last_offset (files : list pak_builder.file_t.t) : Z :=
  12 + 64 * Z.of_nat (length files) + total_size (take (length files - 1) files).

(** Pending files with sizes as [add_file] leaves them. *)
Definition sizes_32bit (files : list pak_builder.file_t.t) : Prop :=
  Forall (fun f => 0 <= pak_builder.file_t.size f <= UINT32_MAX) files.

(** A disk with a big file in front of a small one, the pairs that
    register both, and a big file of 2^32 - 140 zero bytes: the small
    file then starts at offset 2^32 of the archive. *)
Definition wrap_disk_of (big : list byte) : filesystem :=
  <["big.bin"%string := big]> {[ "b.txt"%string := [x79; x6f; x75] ]}.

Definition wrap_inputs : list (string * string) :=
  [("big.bin", "big.bin"); ("b.txt", "b.txt")]%string.

Definition wrap_big : list byte := replicate (Z.to_nat 4294967156) x00.

(** A disk on which the archive path holds one of the sources. *)
Definition self_disk : filesystem := {[ "o.pak"%string := [x68; x69] ]}.

Definition self_pending : pak_builder.t :=
  match add_files self_disk [("o.pak", "x")]%string pak_builder.init with
  | Ret _ b => b
  | _ => pak_builder.init
  end.

Definition self_built : filesystem :=
  match final_state (pak_builder.write always "o.pak" [] (self_pending, self_disk)) with
  | Some (_, fs) => fs
  | None => self_disk
  end.

Definition self_opened : pak_archive.t :=
  match final_state (pak_archive.open self_built "o.pak" pak_archive.init) with
  | Some a => a
  | None => pak_archive.init
  end.

(** ** Vocabulary of the further properties *)

(** What the public interface shows of a reader: [m_fileSize] has no
    accessor. *)
Definition observable (a : pak_archive.t)
  : FILE_ptr * list pak_file_t.t * PakError * gmap string nat :=
  (pak_archive.m_file a, pak_archive.m_files a, pak_archive.m_errno a,
   pak_archive.m_lookupMap a).

Definition outcome_map {S S' R} (f : S -> S') (o : outcome S R) : outcome S' R :=
  match o with
  | Ret r s => Ret r (f s)
  | Exn e s => Exn e (f s)
  | UB => UB
  end.

(** A reader whose stream is live, whose index points into the entry
    table, and whose entries carry 32-bit offsets and sizes. *)
Definition Open_ok (a : pak_archive.t) : Prop :=
  (exists f, pak_archive.m_file a = stream f) /\
  (forall name (i : nat), pak_archive.m_lookupMap a !! name = Some i ->
                          (i < length (pak_archive.m_files a))%nat) /\
  Forall (fun e => 0 <= pak_file_t.offset e < 2 ^ 32 /\ 0 <= pak_file_t.size e < 2 ^ 32)
    (pak_archive.m_files a).

(** Two reader states with the same entry table and index. *)
Definition same_entries (a a' : pak_archive.t) : Prop :=
  pak_archive.m_files a' = pak_archive.m_files a /\
  pak_archive.m_lookupMap a' = pak_archive.m_lookupMap a.

(** Two disks that differ at most in one path. *)
Definition only_changes (path : string) (fs fs' : filesystem) : Prop :=
  forall p, p <> path -> fs' !! p = fs !! p.

(** The example archive cut behind its table: the data region is gone. *)
Definition cut_disk : filesystem :=
  <["o.pak"%string := take 140 (file_bytes built_disk "o.pak")]> built_disk.

(** Every pending source exists on disk (or is the output file, which
    [write] creates before it reads). *)
Definition sources_exist (fs : filesystem) (file : string)
  (files : list pak_builder.file_t.t) : Prop :=
  Forall (fun f => pak_builder.file_t.disk_path f = file \/
                   is_Some (fs !! pak_builder.file_t.disk_path f)) files.

(** The header and the table that [write] emits for a pending list. *)
Definition layout_bytes (files : list pak_builder.file_t.t) : list byte :=
  pak_header_t.encode (pak_header_t.mk PACK 12 (64 * Z.of_nat (length files)))
  ++ concat (map pak_file_t.encode
               (listing_entries (12 + 64 * Z.of_nat (length files)) files)).

(** A disk on which "a.txt" has grown since [two_pending] was built. *)
Definition grown_disk : filesystem :=
  <["a.txt"%string := [x68; x69; x21; x21]]> disk2.

(** ** [~pak_archive] *)

(** The destructor closes the stream when the pointer is not null; on a
    pointer left dangling by [fclose] that is a second [fclose]. *)
Definition pak_archive_destructor (a : pak_archive.t) : outcome pak_archive.t unit :=
  match pak_archive.m_file a with
  | closed_stream => UB
  | _ => Ret tt a
  end.

(** ** [main]: the command-line tool *)

Module paktool.

(** *** The [std::string] members that [main] calls; [None] is [npos] *)

Fixpoint occurs (c : ascii) (set : string) : bool :=
  match set with
  | EmptyString => false
  | String d set' => Ascii.eqb c d || occurs c set'
  end.

(** [s.find_first_of(set)]: the first position of [s] holding a character
    of [set]. *)
Fixpoint find_first_of (s set : string) : option nat :=
  match s with
  | EmptyString => None
  | String c s' => if occurs c set then Some 0%nat else S <$> find_first_of s' set
  end.

(** [s.find_last_of(set)]: the last such position. *)
Fixpoint find_last_of (s set : string) : option nat :=
  match s with
  | EmptyString => None
  | String c s' =>
    match find_last_of s' set with
    | Some i => Some (S i)
    | None => if occurs c set then Some 0%nat else None
    end
  end.

Fixpoint string_drop (n : nat) (s : string) : string :=
  match n, s with
  | O, _ => s
  | S n', String _ s' => string_drop n' s'
  | S _, EmptyString => EmptyString
  end.

(** [s.erase(pos, count)] removes [min(count, size - pos)] characters from
    [pos] on; it throws [out_of_range] ([None]) when [pos > size]. *)
Fixpoint erase (s : string) (pos count : nat) : option string :=
  match pos, s with
  | O, _ => Some (string_drop count s)
  | S pos', String c s' => String c <$> erase s' pos' count
  | S _, EmptyString => None
  end.

(** [s.erase(s.begin() + l)] removes the character at [l]; the iterator
    must point into the string, else the behaviour is undefined ([None]). *)
Fixpoint erase_at (s : string) (l : nat) : option string :=
  match s, l with
  | EmptyString, _ => None
  | String _ s', O => Some s'
  | String c s', S l' => String c <$> erase_at s' l'
  end.

(** [s.erase(pos)] removes everything from [pos] on; it throws
    [out_of_range] ([None]) when [pos > size]. *)
Fixpoint erase_from (s : string) (pos : nat) : option string :=
  match pos, s with
  | O, _ => Some EmptyString
  | S pos', String c s' => String c <$> erase_from s' pos'
  | S _, EmptyString => None
  end.

(** *** Creating an archive *)

(** The name inside the archive of a file found under [dir]:
    [pos = pp.find_first_of(dir)], then [pp.erase(pos, dir.size() + 1)]. *)
Definition pak_name (dir pp : string) : option string :=
  match find_first_of pp dir with
  | Some pos => erase pp pos (String.length dir + 1)
  | None => Some pp
  end.

(** [for (auto f : recursive_directory_iterator(dir))] over the entries
    the iterator produces, each a path and whether it is a directory.  The
    result of [add_file] is dropped; [filecount] is an [int]. *)
Fixpoint add_entries (fs : filesystem) (dir : string) (entries : list (string * bool))
  (filecount : Z) (b : pak_builder.t) : outcome pak_builder.t Z :=
  match entries with
  | [] => Ret filecount b
  | (path, is_directory) :: rest =>
    if is_directory then add_entries fs dir rest filecount b
    else
      match pak_name dir path with
      | None => Exn out_of_range b
      | Some pp =>
        call _ on b <- pak_builder.add_file fs path pp b;
        add_entries fs dir rest (to_int (filecount + 1)) b
      end
  end.

(** *** Extracting an archive *)

(** The directory extracted to when [-o] gives none: the archive path with
    its last dot removed, and a slash appended. *)
Definition default_odir (apath : string) : option string :=
  match find_last_of apath "." with
  | Some l => (fun odir => odir +:+ "/") <$> erase_at apath l
  | None => None   (* [odir.begin() + npos] *)
  end.

Definition output_dir (apath odir : string) : option string :=
  if decide (odir = EmptyString) then default_odir apath else Some odir.

Definition output_path (odir name : string) : string := (odir +:+ "/") +:+ name.

Section Sink.

(** What the disk lets the tool make: [can_create] the files that can be
    opened for writing, [can_mkdir] the paths on which
    [std::filesystem::create_directory] returns, [can_mkdirs] those on
    which [create_directories] returns; on the others they throw
    [filesystem_error]. *)
Variable can_create : string -> bool.
Variable can_mkdir : string -> bool.
Variable can_mkdirs : string -> bool.

(** "Compute directory" and "Ensure directory exists" of the loop body:
    a name holding a slash is cut at its last slash, [odir + "/"] is put
    in front and [create_directories] is called on the result.  The value
    is the exception thrown, if any. *)
Definition ensure_directory (odir name : string) : option exception :=
  match find_last_of name "/" with
  | Some pos =>
    match erase_from name pos with
    | None => Some out_of_range
    | Some dir =>
      if can_mkdirs ((odir +:+ "/") +:+ dir) then None else Some filesystem_error
    end
  | None => None
  end.

(** [for (auto [name, d] : archive)] with the extraction as its body, from
    [it] to [last]; [unable] collects the names reported as
    "Unable to extract". *)
Fixpoint extract_entries (fuel : nat) (odir : string) (garbage : Z -> list byte)
  (last it : pak_archive.iterator) (unable : list string)
  (st : pak_archive.t * filesystem) : outcome (pak_archive.t * filesystem) (list string) :=
  if pak_archive.it_m_file it =? pak_archive.it_m_file last then Ret unable st
  else
    match fuel with
    | O => UB
    | S fuel' =>
      match pak_archive.deref (fst st) it with
      | None => UB   (* [m_files[m_file]] outside the vector *)
      | Some (name, _) =>
        match ensure_directory odir name with
        | Some e => Exn e st
        | None =>
          let opath := output_path odir name in
          call ok on st <- pak_archive.extract_file can_create name opath
                             (garbage (pak_archive.it_m_file it)) st;
          extract_entries fuel' odir garbage last (pak_archive.incr it)
            (if ok then unable else unable ++ [name]) st
        end
      end
    end.

(** The branch of [-x]: the exit status and the names reported.  The loop
    cannot run longer than the vector is, past which [operator*] is
    undefined. *)
Definition extract (apath odir : string) (garbage : Z -> list byte) (fs : filesystem)
  : outcome filesystem (Z * list string) :=
  match output_dir apath odir with
  | None => UB
  | Some odir =>
    match pak_archive.open fs apath pak_archive.init with
    | Ret false _ => Ret (1, []) fs   (* [exit(1)] *)
    | Ret true a =>
      if can_mkdir odir then
        match extract_entries (length (pak_archive.m_files a)) odir garbage
                (pak_archive.end_ a) (pak_archive.begin a) [] (a, fs) with
        | Ret unable (a, fs) =>
          match pak_archive.close a with
          | Ret _ _ => Ret (0, unable) fs
          | Exn e _ => Exn e fs
          | UB => UB
          end
        | Exn e (_, fs) => Exn e fs
        | UB => UB
        end
      else Exn filesystem_error fs   (* [create_directory(odir)] *)
    | Exn e _ => Exn e fs
    | UB => UB
    end
  end.

(** The branch of [-c]: the exit status and the number of files reported
    as written. *)
Definition create (dir out : string) (entries : list (string * bool))
  (garbage : list byte) (fs : filesystem) : outcome filesystem (Z * Z) :=
  match add_entries fs dir entries 0 pak_builder.init with
  | Ret filecount b =>
    match pak_builder.write can_create out garbage (b, fs) with
    | Ret true (_, fs) => Ret (0, filecount) fs
    | Ret false (_, fs) => Ret (1, filecount) fs   (* [exit(1)] *)
    | Exn e (_, fs) => Exn e fs
    | UB => UB
    end
  | Exn e _ => Exn e fs
  | UB => UB
  end.

End Sink.

End paktool.

(** The (path, name) pairs that the loop of [-c] hands to [add_file]. *)
Definition named_entries (dir : string) (entries : list (string * bool))
  : list (string * string) :=
  omap (fun e : string * bool => if snd e then None
                 else (fun pp => (fst e, pp)) <$> paktool.pak_name dir (fst e)) entries.

(** The two checks of [add_file]. *)
Definition accepted (fs : filesystem) (input : string * string) : bool :=
  (Z.of_nat (String.length (snd input)) <=? MAX_PAK_NAME_LEN) &&
  (Z.of_nat (length (file_bytes fs (fst input))) <=? UINT32_MAX).

(** A directory with one file whose relative name has 57 characters. *)
Definition long_entries : list (string * bool) :=
  [("d/a.txt"%string, false); ("d/sub"%string, true); (("d/" +:+ name57)%string, false)].

Definition long_disk : filesystem :=
  {[ "d/a.txt"%string := [x68; x69]; ("d/" +:+ name57)%string := [x79] ]}.

(** A reader as a successful [open] leaves it: [Open_ok], and the index
    knows the name of every entry. *)
Definition Loaded (a : pak_archive.t) : Prop :=
  Open_ok a /\
  forall e, e ∈ pak_archive.m_files a ->
            is_Some (pak_archive.m_lookupMap a !! pak_archive.entry_name e).

(** The index holds nothing but names of entries. *)
Definition index_sound (a : pak_archive.t) : Prop :=
  forall name (i : nat), pak_archive.m_lookupMap a !! name = Some i ->
    exists e, pak_archive.m_files a !! i = Some e /\ pak_archive.entry_name e = name.

(** The directory of every entry can be made. *)
Definition directories_ok (can_mkdirs : string -> bool) (odir : string)
  (files : list pak_file_t.t) : Prop :=
  Forall (fun e => paktool.ensure_directory can_mkdirs odir (pak_archive.entry_name e) = None)
    files.

(** The names that [-x] cannot create a file for. *)
Definition uncreatable (can_create : string -> bool) (odir : string)
  (files : list pak_file_t.t) : list string :=
  filter (fun name => can_create (paktool.output_path odir name) = false)
    (map pak_archive.entry_name files).

(** What [-c] followed by [-x] asks of an entry that the directory
    iterator produces for [dir], when it is not a directory: its path is
    [dir], a slash and a relative path [rel]; [rel] is a name [add_file]
    takes and keeps; the file can be measured and is not the archive; the
    directory of [rel] under [odir] can be made; and the output path of
    [rel] can be created and is not the archive. *)
Definition portable (can_create can_mkdirs : string -> bool) (fs : filesystem)
  (dir out odir : string) (e : string * bool) : Prop :=
  snd e = false ->
  exists rel,
    fst e = dir +:+ "/" +:+ rel /\
    registrable fs (fst e, rel) /\ nul_free rel /\ fst e <> out /\
    paktool.ensure_directory can_mkdirs odir rel = None /\
    can_create (paktool.output_path odir rel) = true /\
    paktool.output_path odir rel <> out.

(** A directory "d" holding a.txt and sub/b.txt, as the iterator lists it. *)
Definition tree_entries : list (string * bool) :=
  [("d/a.txt"%string, false); ("d/sub"%string, true); ("d/sub/b.txt"%string, false)].

Definition tree_disk : filesystem :=
  {[ "d/a.txt"%string := [x68; x69]; "d/sub/b.txt"%string := [x79; x6f; x75] ]}.

(** * Properties *)

(** ** Integers and bytes *)

Lemma to_uint32_small z : 0 <= z < 2 ^ 32 -> to_uint32 z = z.
Proof. intros H. unfold to_uint32. by rewrite Z.mod_small. Qed.

Lemma to_size_t_small z : 0 <= z < 2 ^ 64 -> to_size_t z = z.
Proof. intros H. unfold to_size_t. by rewrite Z.mod_small. Qed.

Lemma to_int64_small z : - 2 ^ 63 <= z < 2 ^ 63 -> to_int64 z = z.
Proof. intros H. unfold to_int64. rewrite Z.mod_small; lia. Qed.

Lemma to_int_small z : - 2 ^ 31 <= z < 2 ^ 31 -> to_int z = z.
Proof. intros H. unfold to_int. rewrite Z.mod_small; lia. Qed.

Lemma Z_of_byte_range b : 0 <= Z_of_byte b < 256.
Proof.
  unfold Z_of_byte. pose proof (Byte.to_N_bounded b). lia.
Qed.

Lemma Z_of_byte_of_Z z : Z_of_byte (byte_of_Z z) = z mod 256.
Proof.
  unfold Z_of_byte, byte_of_Z.
  assert (Hr : 0 <= z mod 256 < 256) by (apply Z.mod_pos_bound; lia).
  destruct (Byte.of_N (Z.to_N (z mod 256))) as [b|] eqn:E.
  - apply Byte.to_of_N in E. simpl. rewrite E. lia.
  - apply Byte.of_N_None_iff in E. lia.
Qed.

Lemma length_store_uint32 z : length (store_uint32 z) = 4%nat.
Proof. reflexivity. Qed.

Lemma load_store_uint32 z rest :
  0 <= z < 2 ^ 32 -> load_uint32 (store_uint32 z ++ rest) = z.
Proof.
  intros Hz. unfold load_uint32, store_uint32. cbn [app nth].
  rewrite !Z_of_byte_of_Z.
  change 65536 with (256 * 256). change 16777216 with (256 * 256 * 256).
  rewrite <- !Z.div_div by lia.
  pose proof (Z.div_mod z 256 ltac:(lia)) as H0.
  pose proof (Z.div_mod (z / 256) 256 ltac:(lia)) as H1.
  pose proof (Z.div_mod (z / 256 / 256) 256 ltac:(lia)) as H2.
  assert (H3 : (z / 256 / 256 / 256) mod 256 = z / 256 / 256 / 256).
  { apply Z.mod_small. split.
    - repeat apply Z.div_pos; lia.
    - repeat (apply Z.div_lt_upper_bound; [lia|]). lia. }
  lia.
Qed.

Lemma load_uint32_range bs : 0 <= load_uint32 bs < 2 ^ 32.
Proof.
  unfold load_uint32.
  pose proof (Z_of_byte_range (nth 0 bs x00)).
  pose proof (Z_of_byte_range (nth 1 bs x00)).
  pose proof (Z_of_byte_range (nth 2 bs x00)).
  pose proof (Z_of_byte_range (nth 3 bs x00)).
  lia.
Qed.

Lemma length_zeros n : length (zeros n) = n.
Proof. apply length_replicate. Qed.

(** ** C strings *)

Lemma c_str_nul_free bs : x00 ∉ bs -> c_str bs = bs.
Proof.
  induction bs as [|b bs IH]; [done|].
  intros H. apply not_elem_of_cons in H as [Hb Hbs]. simpl.
  destruct (Byte.eqb b x00) eqn:E.
  - apply Byte.byte_dec_bl in E. congruence.
  - by rewrite IH.
Qed.

Lemma c_str_app_zeros bs n : x00 ∉ bs -> c_str (bs ++ zeros n) = bs.
Proof.
  induction bs as [|b bs IH]; intros H.
  - destruct n; reflexivity.
  - apply not_elem_of_cons in H as [Hb Hbs]. simpl.
    destruct (Byte.eqb b x00) eqn:E.
    + apply Byte.byte_dec_bl in E. congruence.
    + by rewrite IH.
Qed.

Lemma c_str_idemp bs : c_str (c_str bs) = c_str bs.
Proof.
  induction bs as [|b bs IH]; [done|]. simpl.
  destruct (Byte.eqb b x00) eqn:E; [done|]. simpl. by rewrite E, IH.
Qed.

Lemma c_str_no_nul bs : x00 ∉ c_str bs.
Proof.
  induction bs as [|b bs IH]; simpl; [apply not_elem_of_nil|].
  destruct (Byte.eqb b x00) eqn:E; [apply not_elem_of_nil|].
  apply not_elem_of_cons. split; [|done].
  intros <-. by rewrite Byte.byte_dec_lb in E.
Qed.

Lemma length_c_str bs : (length (c_str bs) <= length bs)%nat.
Proof.
  induction bs as [|b bs IH]; simpl; [lia|].
  destruct (Byte.eqb b x00); simpl; lia.
Qed.

Lemma length_list_byte_of_string s :
  length (list_byte_of_string s) = String.length s.
Proof. induction s as [|c s IH]; simpl; [done|]. by rewrite <- IH. Qed.

Lemma length_strncpy src n : length (strncpy src n) = n.
Proof.
  unfold strncpy. rewrite length_app, length_zeros, length_take. lia.
Qed.

(** A name that fits the field survives [strncpy] into a zeroed field and
    the reading back as a C string. *)
Lemma c_str_field bs (n m : nat) :
  (length (c_str bs) <= n)%nat -> (n <= m)%nat ->
  c_str (overwrite (zeros m) (strncpy bs n)) = c_str bs.
Proof.
  intros Hn Hm. unfold overwrite, strncpy.
  rewrite take_ge by done.
  rewrite length_app, length_zeros.
  unfold zeros. rewrite drop_replicate, <- app_assoc, <- replicate_add.
  apply (c_str_app_zeros (c_str bs)), c_str_no_nul.
Qed.

(** ** The builder: registration *)

(** C8 (amended). [add_file] returns [false] and leaves the pending list
    alone when the archive name has more than 56 bytes, and when the
    source has more than [UINT32_MAX] bytes.  With a name of at most 56
    bytes and a source that cannot be measured it throws, the list
    unchanged.  Otherwise it appends exactly one pending record holding
    the source path, the size measured now and the name as a C string:
    the given name up to its first NUL, which is the name itself exactly
    when it has no embedded NUL. *)
Theorem add_file_checks (fs : filesystem) (disk_path pak_path : string) (b : pak_builder.t) :
  (MAX_PAK_NAME_LEN < Z.of_nat (String.length pak_path) ->
   pak_builder.add_file fs disk_path pak_path b = Ret false b) /\
  (forall data, fs !! disk_path = Some data ->
   UINT32_MAX < Z.of_nat (length data) ->
   pak_builder.add_file fs disk_path pak_path b = Ret false b) /\
  (fs !! disk_path = None ->
   Z.of_nat (String.length pak_path) <= MAX_PAK_NAME_LEN ->
   pak_builder.add_file fs disk_path pak_path b = Exn filesystem_error b) /\
  (forall data, fs !! disk_path = Some data ->
   Z.of_nat (String.length pak_path) <= MAX_PAK_NAME_LEN ->
   Z.of_nat (length data) <= UINT32_MAX ->
   exists r,
     pak_builder.add_file fs disk_path pak_path b
       = Ret true (pak_builder.mk (pak_builder.m_files b ++ [r])) /\
     pak_builder.file_t.disk_path r = disk_path /\
     pak_builder.file_t.size r = Z.of_nat (length data) /\
     string_of_chars (pak_builder.file_t.pak_path r)
       = string_of_list_byte (string_c_str pak_path) /\
     (nul_free pak_path <-> string_of_chars (pak_builder.file_t.pak_path r) = pak_path)).
Proof.
  unfold pak_builder.add_file. split; [|split; [|split]].
  - intros H. apply Z.ltb_lt in H. by rewrite H.
  - intros data Hd H. rewrite Hd. apply Z.ltb_lt in H. cbv zeta. rewrite H.
    by destruct (MAX_PAK_NAME_LEN <? _).
  - intros Hd Hn. rewrite Hd. apply Z.ltb_ge in Hn. by rewrite Hn.
  - intros data Hd Hn Hs. rewrite Hd.
    apply Z.ltb_ge in Hn. apply Z.ltb_ge in Hs. cbv zeta. rewrite Hn, Hs.
    eexists. split; [reflexivity|]. cbn [pak_builder.file_t.disk_path
      pak_builder.file_t.size pak_builder.file_t.pak_path].
    assert (Hf : string_of_chars (overwrite (zeros 57) (strncpy (string_c_str pak_path) 56))
                 = string_of_list_byte (string_c_str pak_path)).
    { unfold string_of_chars. f_equal. rewrite c_str_field.
      - apply c_str_idemp.
      - unfold string_c_str. rewrite c_str_idemp.
        pose proof (length_c_str (list_byte_of_string pak_path)) as Hl.
        rewrite length_list_byte_of_string in Hl.
        apply Z.ltb_ge in Hn. unfold MAX_PAK_NAME_LEN in Hn. lia.
      - lia. }
    split; [done|]. split; [done|]. split; [exact Hf|].
    rewrite Hf. unfold string_c_str. split.
    + intros Hnul. rewrite c_str_nul_free by done. apply string_of_list_byte_of_string.
    + intros Heq. unfold nul_free. rewrite <- Heq at 1.
      rewrite list_byte_of_string_of_list_byte. apply c_str_no_nul.
Qed.

Lemma add_file_checks_witness :
  pak_builder.add_file disk2 "a.txt" name57 pak_builder.init = Ret false pak_builder.init /\
  exists r,
    pak_builder.add_file disk2 "b.txt" "dir/b.txt" one_pending
      = Ret true (pak_builder.mk (pak_builder.m_files one_pending ++ [r])) /\
    pak_builder.file_t.size r = 3 /\
    string_of_chars (pak_builder.file_t.pak_path r) = "dir/b.txt"%string.
Proof.
  split.
  - apply (add_file_checks disk2 "a.txt" name57 pak_builder.init). vm_compute. reflexivity.
  - destruct (add_file_checks disk2 "b.txt" "dir/b.txt" one_pending) as (_ & _ & _ & H).
    destruct (H [x79; x6f; x75]) as (r & H1 & _ & H3 & _ & H5).
    + reflexivity.
    + vm_compute. discriminate.
    + vm_compute. discriminate.
    + exists r. split; [exact H1|]. split; [exact H3|]. apply H5.
      vm_compute. intros Hin. repeat (apply elem_of_cons in Hin as [Hin|Hin]; [discriminate|]).
      by apply elem_of_nil in Hin.
Defined.

(** C8, as stated, fails on two kinds of input that pass both checks.  A
    name of three bytes with a NUL in the middle: the record appended
    carries the name "a", not the given name.  A source that does not
    exist: nothing is appended and nothing is returned, the call throws. *)
Lemma add_file_name_counterexample :
  (Z.of_nat (String.length name_with_nul) = 3 /\
   exists r,
     pak_builder.add_file disk2 "a.txt" name_with_nul pak_builder.init
     = Ret true (pak_builder.mk [r]) /\
     string_of_chars (pak_builder.file_t.pak_path r) = "a"%string /\
     "a"%string <> name_with_nul) /\
  (disk2 !! "none.txt"%string = None /\
   pak_builder.add_file disk2 "none.txt" "n" pak_builder.init
   = Exn filesystem_error pak_builder.init).
Proof.
  split.
  - split; [reflexivity|]. eexists. split; [vm_compute; reflexivity|].
    split; [vm_compute; reflexivity|discriminate].
  - split; vm_compute; reflexivity.
Qed.

(** ** The reader outside the open state *)

Lemma close_lookupMap a a' : pak_archive.close a = Ret tt a' -> pak_archive.m_lookupMap a' = ∅.
Proof.
  unfold pak_archive.close. destruct (pak_archive.m_file a); intros H; by inversion H.
Qed.

(** The lookup index is filled on the successful path of [open] only. *)
Lemma open_unsuccessful_lookupMap fs path a o :
  pak_archive.open fs path a = o ->
  forall a', o = Ret false a' \/ (exists e, o = Exn e a') -> pak_archive.m_lookupMap a' = ∅.
Proof.
  unfold pak_archive.open, pak_archive.close.
  intros <- a' H.
  destruct (pak_archive.m_file a); cbn [bind] in H;
    repeat case_match; destruct H as [H|[exn H]]; try discriminate; by inversion H.
Qed.

(** Every failure of [open] is reported: an error code is set and
    [good] is false.  The failures before the table read (no file, short
    file, bad magic) also leave the entry table empty.  Every failure
    after the file was opened leaves [m_file] pointing at the stream it
    has closed, so that [close] would close it again. *)
Lemma open_false_state fs path a a' :
  pak_archive.open fs path a = Ret false a' ->
  pak_archive.good a' = false /\ pak_archive.last_error a' <> NoError /\
  (pak_archive.last_error a' <> InvalidFileEntry -> pak_archive.file_count a' = 0) /\
  (pak_archive.last_error a' <> OpenFailed -> pak_archive.close a' = UB).
Proof.
  unfold pak_archive.open, pak_archive.close. intros H.
  destruct (pak_archive.m_file a); cbn [bind] in H;
    repeat case_match; try discriminate; inversion H; subst; cbn;
    (split; [reflexivity|split; [discriminate|split]]); intros Hne;
    first [reflexivity | by destruct Hne].
Qed.

Lemma Closed_lookupMap a : Closed a -> pak_archive.m_lookupMap a = ∅.
Proof.
  destruct 1 as [|a a' H|fs path a a' H|fs path a e a' H].
  - reflexivity.
  - by apply close_lookupMap in H.
  - eapply open_unsuccessful_lookupMap; [exact H|]. by left.
  - eapply open_unsuccessful_lookupMap; [exact H|]. right. by exists e.
Qed.

(** C10. On a reader that is not open (fresh, closed, or left by an [open]
    that did not succeed) the lookup index is empty, so [read_file],
    [extract_file] and [stat] return [false] for every name, transfer no
    byte, create no file and leave the reader as it was. *)
Theorem closed_reader_lookups_fail (can_create : string -> bool) (fs : filesystem)
  (a : pak_archive.t) (name : string) :
  Closed a ->
  pak_archive.m_lookupMap a = ∅ /\
  (forall size, pak_archive.read_file fs name size a = Ret (false, []) a) /\
  (forall out garbage,
     pak_archive.extract_file can_create name out garbage (a, fs) = Ret false (a, fs)) /\
  (forall file_size offset,
     pak_archive.stat name file_size offset a = Ret (false, file_size, offset) a).
Proof.
  intros H. apply Closed_lookupMap in H.
  unfold pak_archive.read_file, pak_archive.extract_file, pak_archive.stat.
  rewrite H, lookup_empty. done.
Qed.

Lemma closed_reader_lookups_fail_witness :
  exists a,
    pak_archive.open disk2 "missing.pak" pak_archive.init = Ret false a /\
    pak_archive.read_file disk2 "a.txt" 2 a = Ret (false, []) a /\
    pak_archive.extract_file always "a.txt" "out" [] (a, disk2) = Ret false (a, disk2) /\
    pak_archive.stat "a.txt" 0 0 a = Ret (false, 0, 0) a.
Proof.
  eexists. split; [reflexivity|].
  destruct (closed_reader_lookups_fail always disk2
              (pak_archive.mk nullptr 0 [] OpenFailed ∅) "a.txt") as (_ & H1 & H2 & H3).
  - by apply (Closed_open_false disk2 "missing.pak" pak_archive.init).
  - split; [apply H1|]. split; [apply H2|apply H3].
Defined.

(** ** The builder: layout *)

Lemma file_bytes_Some (fs : filesystem) path data :
  fs !! path = Some data -> file_bytes fs path = data.
Proof. intros H. unfold file_bytes. by rewrite H. Qed.

Lemma file_bytes_insert_eq (fs : filesystem) path data :
  file_bytes (<[path := data]> fs) path = data.
Proof. apply file_bytes_Some, lookup_insert_eq. Qed.

Lemma file_bytes_insert_ne (fs : filesystem) path path' data :
  path <> path' -> file_bytes (<[path := data]> fs) path' = file_bytes fs path'.
Proof. intros H. unfold file_bytes. by rewrite lookup_insert_ne. Qed.

Lemma stream_write_append fs s bs old :
  fs !! o_path s = Some old -> o_pos s = Z.of_nat (length old) ->
  stream_write fs s bs
  = (<[o_path s := old ++ bs]> fs, mkofstream (o_path s) (o_pos s + Z.of_nat (length bs))).
Proof.
  intros Hold Hpos. unfold stream_write. destruct bs as [|b bs].
  - rewrite app_nil_r, insert_id by done. destruct s. simpl. by rewrite Z.add_0_r.
  - unfold file_bytes. rewrite Hold. simpl default. rewrite Hpos, Nat2Z.id.
    rewrite take_ge, Nat.sub_diag, drop_ge by lia. simpl zeros. by rewrite app_nil_r.
Qed.

Lemma length_entry_encode e : length (pak_file_t.encode e) = 64%nat.
Proof.
  unfold pak_file_t.encode.
  rewrite !length_app, !length_store_uint32, length_take, length_app, length_zeros. lia.
Qed.

Lemma length_header_encode h : length (pak_header_t.encode h) = 12%nat.
Proof.
  unfold pak_header_t.encode.
  rewrite !length_app, !length_store_uint32, length_take, length_app, length_zeros. lia.
Qed.

Lemma length_listing_entries files : forall curoff,
  length (listing_entries curoff files) = length files.
Proof. induction files as [|f files IH]; intros curoff; simpl; [done|]. by rewrite IH. Qed.

Lemma length_assign_offsets files : forall curoff,
  length (assign_offsets curoff files) = length files.
Proof. induction files as [|f files IH]; intros curoff; simpl; [done|]. by rewrite IH. Qed.

Lemma length_concat_entries es :
  length (concat (map pak_file_t.encode es)) = (64 * length es)%nat.
Proof.
  induction es as [|e es IH]; simpl; [done|].
  rewrite length_app, length_entry_encode, IH. lia.
Qed.

(** Pass 1 appends the encoded entries to the output and leaves the pending
    files with their offsets. *)
Lemma write_listing_spec files : forall fs s curoff old,
  fs !! o_path s = Some old -> o_pos s = Z.of_nat (length old) ->
  pak_builder.write_listing fs s curoff files
  = (<[o_path s := old ++ concat (map pak_file_t.encode (listing_entries curoff files))]> fs,
     mkofstream (o_path s) (o_pos s + 64 * Z.of_nat (length files)),
     assign_offsets curoff files).
Proof.
  induction files as [|f files IH]; intros fs s curoff old Hold Hpos.
  - simpl. rewrite app_nil_r, insert_id by done. destruct s. simpl. f_equal. f_equal. f_equal. lia.
  - cbn [pak_builder.write_listing listing_entries assign_offsets map concat].
    rewrite (stream_write_append _ _ _ old) by done.
    rewrite (IH _ _ _ (old ++ pak_file_t.encode (pak_builder.build_entry curoff f))).
    + cbn [o_path o_pos]. rewrite insert_insert_eq, <- app_assoc, length_entry_encode.
      f_equal. f_equal. f_equal. cbn [length]. lia.
    + cbn [o_path]. apply lookup_insert_eq.
    + cbn [o_pos]. rewrite length_app, length_entry_encode. lia.
Qed.

Lemma write_layout_spec fs file b :
  fs !! file = Some [] ->
  pak_builder.write_layout fs (mkofstream file 0) b
  = (<[file := pak_header_t.encode (pak_builder.build_header b)
               ++ concat (map pak_file_t.encode
                    (listing_entries
                       (to_size_t (pak_header_t.sizeof
                                   + pak_header_t.size (pak_builder.build_header b)))
                       (pak_builder.m_files b)))]> fs,
     mkofstream file (12 + 64 * Z.of_nat (length (pak_builder.m_files b))),
     pak_builder.mk
       (assign_offsets
          (to_size_t (pak_header_t.sizeof + pak_header_t.size (pak_builder.build_header b)))
          (pak_builder.m_files b))).
Proof.
  intros Hf. unfold pak_builder.write_layout.
  rewrite (stream_write_append _ _ _ []) by done.
  cbn [o_path o_pos app].
  rewrite (write_listing_spec _ _ _ _ (pak_header_t.encode (pak_builder.build_header b))).
  - cbn [o_path o_pos]. rewrite insert_insert_eq, length_header_encode. reflexivity.
  - cbn [o_path]. apply lookup_insert_eq.
  - cbn [o_pos]. rewrite length_header_encode. reflexivity.
Qed.

Lemma map_registered_assign_offsets files : forall curoff,
  map registered (assign_offsets curoff files) = map registered files.
Proof. induction files as [|f files IH]; intros curoff; simpl; [done|]. by rewrite IH. Qed.

(** Whatever [write] returns after creating the output, the pending files
    it leaves are the ones it found, with offsets assigned. *)
Lemma write_pending can_create file garbage b fs r b' fs' :
  pak_builder.write can_create file garbage (b, fs) = Ret r (b', fs') ->
  can_create file = true ->
  b' = pak_builder.mk
         (assign_offsets
            (to_size_t (pak_header_t.sizeof + pak_header_t.size (pak_builder.build_header b)))
            (pak_builder.m_files b)).
Proof.
  unfold pak_builder.write. intros H Hc. rewrite Hc in H. cbn [negb] in H.
  rewrite write_layout_spec in H by apply lookup_insert_eq.
  destruct (pak_builder.write_data _ _ _ _) as [ok fs1]. by inversion H.
Qed.

(** C9 (amended). A successful [write] does not discard the pending files:
    the builder keeps every record, in order, with the same source path,
    name and size; only the offsets have been filled in. *)
Theorem write_keeps_pending (can_create : string -> bool) (file : string)
  (garbage : list byte) (b b' : pak_builder.t) (fs fs' : filesystem) :
  pak_builder.write can_create file garbage (b, fs) = Ret true (b', fs') ->
  map registered (pak_builder.m_files b') = map registered (pak_builder.m_files b) /\
  length (pak_builder.m_files b') = length (pak_builder.m_files b).
Proof.
  intros H.
  assert (Hc : can_create file = true).
  { unfold pak_builder.write in H. destruct (can_create file); [done|]. discriminate. }
  rewrite (write_pending _ _ _ _ _ _ _ _ H Hc). cbn [pak_builder.m_files].
  by rewrite map_registered_assign_offsets, length_assign_offsets.
Qed.

Lemma write_keeps_pending_witness :
  exists b' fs',
    pak_builder.write always "o.pak" [] (one_pending, disk2) = Ret true (b', fs') /\
    length (pak_builder.m_files b') = 1%nat.
Proof.
  eexists _, _. split; [vm_compute; reflexivity|].
  eapply eq_trans.
  - eapply (write_keeps_pending always "o.pak" [] one_pending _ disk2).
    vm_compute. reflexivity.
  - reflexivity.
Defined.

(** C9, as stated, fails: after a successful [write] of one registered file
    the pending list still has that file. *)
Lemma write_discards_pending_counterexample :
  returned (pak_builder.write always "o.pak" [] (one_pending, disk2)) = Some true /\
  (fun st : pak_builder.t * filesystem => length (pak_builder.m_files (fst st)))
    <$> final_state (pak_builder.write always "o.pak" [] (one_pending, disk2)) = Some 1%nat.
Proof. split; vm_compute; reflexivity. Qed.

Lemma total_size_nonneg files : sizes_ok files -> 0 <= total_size files.
Proof. induction 1; simpl; lia. Qed.

Lemma sizes_ok_take i files : sizes_ok files -> sizes_ok (take i files).
Proof. apply Forall_take. Qed.

Lemma total_size_app l1 l2 : total_size (l1 ++ l2) = total_size l1 + total_size l2.
Proof. induction l1 as [|f l1 IH]; simpl; [done|]. fold (total_size (l1 ++ l2)). rewrite IH. unfold total_size. lia. Qed.

Lemma total_size_lookup files (i : nat) f :
  sizes_ok files -> files !! i = Some f ->
  0 <= pak_builder.file_t.size f <= total_size files.
Proof.
  intros Hs Hi. apply take_drop_middle in Hi. rewrite <- Hi in Hs |- *.
  apply Forall_app in Hs as [Hs1 Hs2]. inversion Hs2 as [|? ? Hf0 Hs3]; subst.
  pose proof (total_size_nonneg _ Hs1). pose proof (total_size_nonneg _ Hs3).
  rewrite total_size_app. cbn [total_size foldr]. fold (total_size (drop (S i) files)). lia.
Qed.

Lemma total_size_take i files :
  sizes_ok files -> 0 <= total_size (take i files) <= total_size files.
Proof.
  intros H. revert i. induction H as [|f files Hf H IH]; intros [|i]; simpl; try lia.
  - pose proof (total_size_nonneg files H). lia.
  - specialize (IH i). lia.
Qed.

(** Without wrap-around the running offset of file [i] is the start plus
    the sizes of the files before it. *)
Lemma layout_lookup files : forall curoff i f,
  sizes_ok files -> 0 <= curoff -> curoff + total_size files < 2 ^ 64 ->
  files !! i = Some f ->
  listing_entries curoff files !! i
    = Some (pak_builder.build_entry (curoff + total_size (take i files)) f) /\
  assign_offsets curoff files !! i
    = Some (with_offset (curoff + total_size (take i files)) f).
Proof.
  induction files as [|g files IH]; intros curoff i f Hs Hc Hlt Hi; [done|].
  inversion Hs as [|? ? Hg Hs']; subst.
  pose proof (total_size_nonneg files Hs') as Hn.
  destruct i as [|i]; cbn [listing_entries assign_offsets take total_size foldr].
  - inversion Hi; subst. by rewrite Z.add_0_r.
  - cbn in Hi. cbn [total_size foldr] in Hlt. fold (total_size files) in Hlt.
    fold (total_size (take i files)).
    rewrite to_size_t_small by lia.
    destruct (IH (curoff + pak_builder.file_t.size g) i f) as [H1 H2]; [done|lia|lia|done|].
    cbn [lookup list_lookup]. simpl. rewrite Z.add_assoc. done.
Qed.

Lemma build_header_small b :
  64 * Z.of_nat (length (pak_builder.m_files b)) < 2 ^ 32 ->
  pak_builder.build_header b
  = pak_header_t.mk PACK 12 (64 * Z.of_nat (length (pak_builder.m_files b))).
Proof.
  intros H. unfold pak_builder.build_header, pak_file_t.sizeof.
  rewrite to_size_t_small, to_uint32_small by lia.
  f_equal. lia.
Qed.

(** ** Decoding what was encoded *)

Lemma header_decode_encode h rest :
  length (pak_header_t.id h) = 4%nat ->
  0 <= pak_header_t.offset h < 2 ^ 32 -> 0 <= pak_header_t.size h < 2 ^ 32 ->
  pak_header_t.decode (pak_header_t.encode h ++ rest) = h.
Proof.
  intros Hid Ho Hs. destruct h as [id off sz].
  cbn [pak_header_t.id pak_header_t.offset pak_header_t.size] in *.
  unfold pak_header_t.decode, pak_header_t.encode. cbn [pak_header_t.id pak_header_t.offset pak_header_t.size].
  rewrite (take_app_length' id) by done.
  rewrite <- !app_assoc.
  rewrite (take_app_length' id) by done.
  rewrite (drop_app_length' id) by done.
  rewrite load_store_uint32 by done.
  replace 8%nat with (length id + 4)%nat by lia.
  rewrite drop_app_add, (drop_app_length' (store_uint32 off)) by done.
  by rewrite load_store_uint32.
Qed.

Lemma entry_decode_encode e :
  length (pak_file_t.name e) = 56%nat ->
  0 <= pak_file_t.offset e < 2 ^ 32 -> 0 <= pak_file_t.size e < 2 ^ 32 ->
  pak_file_t.decode (pak_file_t.encode e) = e.
Proof.
  intros Hn Ho Hs. destruct e as [nm off sz].
  cbn [pak_file_t.name pak_file_t.offset pak_file_t.size] in *.
  unfold pak_file_t.decode, pak_file_t.encode. cbn [pak_file_t.name pak_file_t.offset pak_file_t.size].
  rewrite (take_app_length' nm) by done.
  rewrite <- !app_assoc.
  rewrite (take_app_length' nm) by done.
  rewrite (drop_app_length' nm) by done.
  rewrite load_store_uint32 by done.
  replace 60%nat with (length nm + 4)%nat by lia.
  rewrite drop_app_add, (drop_app_length' (store_uint32 off)) by done.
  rewrite <- (app_nil_r (store_uint32 sz)) at 1.
  by rewrite load_store_uint32.
Qed.

(** Record [i] of an encoded table. *)
Lemma table_record es : forall (i : nat) e rest,
  es !! i = Some e ->
  take 64 (drop (64 * i) (concat (map pak_file_t.encode es) ++ rest)) = pak_file_t.encode e.
Proof.
  induction es as [|e0 es IH]; intros i e rest Hi; [done|].
  cbn [map concat]. rewrite <- app_assoc.
  destruct i as [|i].
  - inversion Hi; subst. rewrite Nat.mul_0_r, drop_0.
    apply take_app_length', eq_sym, length_entry_encode.
  - replace (64 * S i)%nat with (length (pak_file_t.encode e0) + 64 * i)%nat
      by (rewrite length_entry_encode; lia).
    rewrite drop_app_add. by apply IH.
Qed.

Lemma build_entry_decode_encode curoff f :
  0 <= curoff < 2 ^ 32 -> 0 <= pak_builder.file_t.size f < 2 ^ 32 ->
  pak_file_t.decode (pak_file_t.encode (pak_builder.build_entry curoff f))
  = pak_file_t.mk (strncpy (pak_builder.file_t.pak_path f) 56) curoff (pak_builder.file_t.size f).
Proof.
  intros Hc Hs. unfold pak_builder.build_entry.
  rewrite !to_uint32_small by done.
  apply entry_decode_encode; cbn; [apply length_strncpy|done|done].
Qed.

(** ** The reader: [open] past the header checks *)

Lemma vector_bytes_resize n : pak_archive.vector_bytes (pak_archive.resize n) = zeros (64 * n).
Proof.
  unfold pak_archive.vector_bytes, pak_archive.resize, zeros.
  induction n as [|n IH]; [done|].
  replace (64 * S n)%nat with (64 + 64 * n)%nat by lia.
  rewrite replicate_add. cbn [replicate map concat]. by rewrite IH.
Qed.

Lemma length_resize n : length (pak_archive.resize n) = n.
Proof. apply length_replicate. Qed.

Lemma length_vector_of_bytes n : forall mem, length (pak_archive.vector_of_bytes n mem) = n.
Proof. induction n as [|n IH]; intros mem; simpl; [done|]. by rewrite IH. Qed.

(** What [open] does once the file exists, has 12 bytes and carries the
    magic tag; [got] is what the table read transfers. *)
Lemma open_valid_header fs path a data :
  pak_archive.m_file a <> closed_stream ->
  fs !! path = Some data ->
  12 <= Z.of_nat (length data) ->
  pak_archive.magic_ok (pak_header_t.decode (take 12 data)) = true ->
  let hdr := pak_header_t.decode (take 12 data) in
  let n := Z.to_nat (pak_header_t.size hdr / 64) in
  let got := take (Z.to_nat (pak_header_t.size hdr))
               (drop (Z.to_nat (pak_header_t.offset hdr)) data) in
  let len := Z.of_nat (length data) in
  pak_archive.open fs path a =
  match n with
  | O => Exn out_of_range
           (pak_archive.mk (stream (mkFILE path (pak_header_t.offset hdr))) len [] NoError ∅)
  | S _ =>
    if (64 * n <? length got)%nat then UB
    else
      let v := pak_archive.vector_of_bytes n (overwrite (zeros (64 * n)) got) in
      let f := mkFILE path (pak_header_t.offset hdr + Z.of_nat (length got)) in
      if Z.of_nat (length got) =? pak_header_t.size hdr
      then Ret true (pak_archive.mk (stream f) len v NoError (pak_archive.populate 0 v ∅))
      else Ret false (pak_archive.mk closed_stream len v InvalidFileEntry ∅)
  end.
Proof.
  intros Hopen Hdata Hlen Hmagic hdr n got len.
  unfold pak_archive.open.
  assert (Hclose : pak_archive.close a
            = Ret tt (pak_archive.mk nullptr (pak_archive.m_fileSize a) [] (pak_archive.m_errno a) ∅)).
  { unfold pak_archive.close. by destruct (pak_archive.m_file a). }
  rewrite Hclose. cbn [bind]. rewrite Hdata.
  unfold pak_archive.set_m_file, pak_archive.set_m_fileSize, pak_archive.set_m_files,
    pak_archive.set_m_errno, pak_archive.set_m_lookupMap.
  cbn [pak_archive.m_file pak_archive.m_fileSize pak_archive.m_files pak_archive.m_errno
       pak_archive.m_lookupMap].
  unfold pak_header_t.sizeof.
  destruct (Z.ltb_spec (Z.of_nat (length data)) 12) as [?|_]; [lia|].
  unfold fread at 1. cbn [f_path f_pos].
  rewrite (file_bytes_Some _ _ _ Hdata).
  change (Z.to_nat 0) with 0%nat. rewrite drop_0.
  change (Z.to_nat 12) with 12%nat.
  rewrite length_take, Nat.min_l by lia.
  change ((0 <? 12) && (Z.of_nat 12 =? 12)) with true. cbn match.
  change (negb (1 =? 1)) with false. cbn [orb].
  rewrite Hmagic. cbn [negb]. fold hdr.
  unfold pak_file_t.sizeof. fold n.
  unfold fseek_set, fread. cbn [f_path f_pos].
  rewrite (file_bytes_Some _ _ _ Hdata). fold got.
  rewrite length_resize, vector_bytes_resize, length_zeros.
  destruct n as [|n'] eqn:En; [reflexivity|].
  cbn [pak_archive.resize replicate].
  fold (pak_archive.resize n'). rewrite <- En.
  destruct (Nat.ltb (64 * n) (length got)) eqn:Eov; [reflexivity|].
  assert (H0 : (0 <? pak_header_t.size hdr) = true).
  { apply Z.ltb_lt. destruct (Z.leb_spec (pak_header_t.size hdr) 0) as [Hle|]; [|lia].
    assert (pak_header_t.size hdr / 64 <= 0) by (apply Z.div_le_upper_bound; lia). lia. }
  rewrite H0. cbn [andb].
  destruct (Z.of_nat (length got) =? pak_header_t.size hdr); reflexivity.
Qed.

(** ** Archives that [open] mishandles *)

(** A builder without files writes the 12-byte archive [empty_pak]. *)
Lemma write_no_files :
  pak_builder.write always "empty.pak" [] (pak_builder.init, ∅)
  = Ret true (pak_builder.init, {[ "empty.pak"%string := empty_pak ]}).
Proof. vm_compute. reflexivity. Qed.

(** C2 (what the code does). For an archive whose header is valid and
    whose table size is 0, [open] does not succeed: [m_files.at(0)] on the
    empty vector throws [std::out_of_range] before any read, and [open]
    never returns. *)
Theorem open_empty_table_throws (fs : filesystem) (path : string) (a : pak_archive.t)
  (data : list byte) :
  pak_archive.m_file a <> closed_stream ->
  fs !! path = Some data ->
  12 <= Z.of_nat (length data) ->
  pak_archive.magic_ok (pak_header_t.decode (take 12 data)) = true ->
  pak_header_t.size (pak_header_t.decode (take 12 data)) = 0 ->
  exists a', pak_archive.open fs path a = Exn out_of_range a' /\
             pak_archive.m_files a' = [] /\ pak_archive.m_lookupMap a' = ∅.
Proof.
  intros Hopen Hdata Hlen Hmagic Hsize.
  rewrite (open_valid_header fs path a data) by done.
  rewrite Hsize. change (Z.to_nat (0 / 64)) with 0%nat. cbv iota.
  eexists. split; [reflexivity|]. done.
Qed.

Lemma open_empty_table_throws_witness :
  exists a', pak_archive.open {[ "empty.pak"%string := empty_pak ]} "empty.pak" pak_archive.init
             = Exn out_of_range a' /\
             pak_archive.m_files a' = [] /\ pak_archive.m_lookupMap a' = ∅.
Proof.
  apply (open_empty_table_throws _ "empty.pak" pak_archive.init empty_pak).
  - discriminate.
  - reflexivity.
  - vm_compute. discriminate.
  - reflexivity.
  - reflexivity.
Defined.

(** C6 (what the code does). [open] has no check that the table size is a
    multiple of 64.  When the header is valid and the announced table
    bytes are all in the file, a table size that is not a multiple of 64
    is not answered with [InvalidFileEntry]: below 64 the access
    [m_files.at(0)] throws, above 64 the read runs past the vector. *)
Theorem open_unaligned_table (fs : filesystem) (path : string) (a : pak_archive.t)
  (data : list byte) :
  pak_archive.m_file a <> closed_stream ->
  fs !! path = Some data ->
  12 <= Z.of_nat (length data) ->
  pak_archive.magic_ok (pak_header_t.decode (take 12 data)) = true ->
  let hdr := pak_header_t.decode (take 12 data) in
  pak_header_t.size hdr mod 64 <> 0 ->
  pak_header_t.offset hdr + pak_header_t.size hdr <= Z.of_nat (length data) ->
  (pak_header_t.size hdr < 64 /\ exists a', pak_archive.open fs path a = Exn out_of_range a') \/
  (64 < pak_header_t.size hdr /\ pak_archive.open fs path a = UB).
Proof.
  intros Hopen Hdata Hlen Hmagic hdr Hmod Hfit.
  rewrite (open_valid_header fs path a data) by done. fold hdr.
  pose proof (load_uint32_range (drop 8 (take 12 data))) as Hs.
  pose proof (load_uint32_range (drop 4 (take 12 data))) as Ho.
  change (load_uint32 (drop 8 (take 12 data))) with (pak_header_t.size hdr) in Hs.
  change (load_uint32 (drop 4 (take 12 data))) with (pak_header_t.offset hdr) in Ho.
  pose proof (Z.div_mod (pak_header_t.size hdr) 64 ltac:(lia)) as Hdm.
  pose proof (Z.mod_pos_bound (pak_header_t.size hdr) 64 ltac:(lia)) as Hmb.
  destruct (Z.to_nat (pak_header_t.size hdr / 64)) as [|n'] eqn:En.
  - left. split; [lia|]. by eexists.
  - right. split; [lia|].
    rewrite (proj2 (Nat.ltb_lt _ _)); [reflexivity|].
    rewrite length_take, length_drop. lia.
Qed.

Lemma open_unaligned_table_witness :
  (exists a', pak_archive.open bad_disk "half.pak" pak_archive.init = Exn out_of_range a') /\
  pak_archive.open bad_disk "long.pak" pak_archive.init = UB.
Proof.
  split.
  - destruct (open_unaligned_table bad_disk "half.pak" pak_archive.init half_entry_pak)
      as [[_ H]|[H _]].
    + discriminate.
    + reflexivity.
    + vm_compute. discriminate.
    + reflexivity.
    + vm_compute. discriminate.
    + vm_compute. discriminate.
    + exact H.
    + vm_compute in H. discriminate.
  - destruct (open_unaligned_table bad_disk "long.pak" pak_archive.init overlong_pak)
      as [[H _]|[_ H]].
    + discriminate.
    + reflexivity.
    + vm_compute. discriminate.
    + reflexivity.
    + vm_compute. discriminate.
    + vm_compute. discriminate.
    + vm_compute in H. discriminate.
    + exact H.
Defined.

(** C5 (what the code does). When the table read comes up short, [open]
    returns [false] with [InvalidFileEntry], [good] is false and the
    lookup index is empty, but the vector resized for the announced
    entries is not cleared and the pointer to the closed stream is not
    reset: [file_count] is the announced number of entries, not 0, and a
    following [close] (or [open]) closes the stream a second time. *)
Theorem open_truncated_table_keeps_entries (fs : filesystem) (path : string)
  (a : pak_archive.t) (data : list byte) :
  pak_archive.m_file a <> closed_stream ->
  fs !! path = Some data ->
  12 <= Z.of_nat (length data) ->
  pak_archive.magic_ok (pak_header_t.decode (take 12 data)) = true ->
  let hdr := pak_header_t.decode (take 12 data) in
  64 <= pak_header_t.size hdr ->
  Z.of_nat (length data) < pak_header_t.offset hdr + 64 * (pak_header_t.size hdr / 64) ->
  exists a', pak_archive.open fs path a = Ret false a' /\
             pak_archive.last_error a' = InvalidFileEntry /\
             pak_archive.good a' = false /\
             pak_archive.m_lookupMap a' = ∅ /\
             pak_archive.m_file a' = closed_stream /\
             pak_archive.file_count a' = pak_header_t.size hdr / 64 /\
             0 < pak_archive.file_count a' /\
             pak_archive.close a' = UB.
Proof.
  intros Hopen Hdata Hlen Hmagic hdr Hsz Hcut.
  rewrite (open_valid_header fs path a data) by done. fold hdr.
  pose proof (load_uint32_range (drop 8 (take 12 data))) as Hs.
  pose proof (load_uint32_range (drop 4 (take 12 data))) as Ho.
  change (load_uint32 (drop 8 (take 12 data))) with (pak_header_t.size hdr) in Hs.
  change (load_uint32 (drop 4 (take 12 data))) with (pak_header_t.offset hdr) in Ho.
  pose proof (Z.div_mod (pak_header_t.size hdr) 64 ltac:(lia)) as Hdm.
  pose proof (Z.mod_pos_bound (pak_header_t.size hdr) 64 ltac:(lia)) as Hmb.
  assert (Hn : 1 <= pak_header_t.size hdr / 64 < 2 ^ 26).
  { split; [apply Z.div_le_lower_bound; lia|apply Z.div_lt_upper_bound; lia]. }
  destruct (Z.to_nat (pak_header_t.size hdr / 64)) as [|n'] eqn:En; [lia|].
  rewrite <- En.
  rewrite (proj2 (Nat.ltb_ge _ _)) by (rewrite length_take, length_drop; lia).
  rewrite (proj2 (Z.eqb_neq _ _)) by (rewrite length_take, length_drop; lia).
  eexists. split; [reflexivity|].
  unfold pak_archive.last_error, pak_archive.good, pak_archive.file_count.
  cbn [pak_archive.m_errno pak_archive.m_file pak_archive.m_files pak_archive.m_lookupMap].
  rewrite length_vector_of_bytes, Z2Nat.id, to_int_small by lia.
  split; [reflexivity|]. split; [reflexivity|]. split; [reflexivity|].
  split; [reflexivity|]. split; [reflexivity|]. split; [lia|reflexivity].
Qed.

Lemma open_truncated_table_keeps_entries_witness :
  exists a', pak_archive.open bad_disk "cut.pak" pak_archive.init = Ret false a' /\
             pak_archive.last_error a' = InvalidFileEntry /\
             pak_archive.file_count a' = 1.
Proof.
  destruct (open_truncated_table_keeps_entries bad_disk "cut.pak" pak_archive.init truncated_pak)
    as (a' & H1 & H2 & _ & _ & _ & H3 & _ & _).
  - discriminate.
  - reflexivity.
  - vm_compute. discriminate.
  - reflexivity.
  - vm_compute. discriminate.
  - vm_compute. reflexivity.
  - exists a'. split; [exact H1|]. split; [exact H2|]. exact H3.
Defined.

(** ** The reader: lookups on an open archive *)

(** The bytes of the example archive: header, two entries, then "hi" and
    "you" back to back. *)
Lemma built_disk_bytes :
  built_disk !! "o.pak"%string
  = Some (PACK ++ store_uint32 12 ++ store_uint32 128
          ++ pak_file_t.encode (pak_file_t.mk (strncpy [x61; x2e; x74; x78; x74] 56) 140 2)
          ++ pak_file_t.encode
               (pak_file_t.mk (strncpy [x64; x69; x72; x2f; x62; x2e; x74; x78; x74] 56) 142 3)
          ++ [x68; x69] ++ [x79; x6f; x75]).
Proof. vm_compute. reflexivity. Qed.

(** C4 (what the code does). [read_file] seeks to the entry's offset and
    then asks for [max_size] bytes: [toread], the minimum of the entry's
    size and [max_size], is computed and never used.  The bytes stored
    are the next [max_size] bytes of the archive (or what is left of it),
    so with [max_size] above the entry's size more than
    min(entry.size, max_size) bytes are read. *)
Theorem read_file_reads_max_size (fs : filesystem) (a : pak_archive.t) (name : string)
  (i : nat) (e : pak_file_t.t) (f : FILE) (max_size : Z) :
  pak_archive.m_lookupMap a !! name = Some i ->
  pak_archive.m_files a !! i = Some e ->
  pak_archive.m_file a = stream f ->
  let rest := drop (Z.to_nat (pak_file_t.offset e)) (file_bytes fs (f_path f)) in
  exists ok a',
    pak_archive.read_file fs name max_size a
      = Ret (ok, take (Z.to_nat max_size) rest) a' /\
    (0 <= pak_file_t.size e < max_size -> max_size <= Z.of_nat (length rest) ->
     ok = true /\
     Z.min (pak_file_t.size e) max_size < Z.of_nat (length (take (Z.to_nat max_size) rest))).
Proof.
  intros Hl He Hf rest. unfold pak_archive.read_file. rewrite Hl, He, Hf.
  unfold fread, fseek_set. cbn [f_path f_pos]. fold rest.
  eexists _, _. split; [reflexivity|].
  intros H1 H2. rewrite length_take. clearbody rest.
  split; [|lia].
  rewrite (proj2 (Z.ltb_lt 0 max_size)) by lia.
  rewrite (proj2 (Z.eqb_eq _ max_size)) by lia. reflexivity.
Qed.

Lemma read_file_reads_max_size_witness :
  exists a',
    pak_archive.read_file built_disk "a.txt" 3 opened = Ret (true, [x68; x69; x79]) a'.
Proof.
  destruct (read_file_reads_max_size built_disk opened "a.txt" 0
              (pak_file_t.mk (strncpy [x61; x2e; x74; x78; x74] 56) 140 2)
              (mkFILE "o.pak" 140) 3) as (ok & a' & H1 & H2).
  - reflexivity.
  - reflexivity.
  - reflexivity.
  - destruct H2 as [-> _].
    + vm_compute. split; [discriminate|reflexivity].
    + vm_compute. discriminate.
    + exists a'. exact H1.
Defined.

(** ** The lookup index *)

Lemma first_named_cons name e files :
  first_named name (e :: files)
  = if decide (pak_archive.entry_name e = name) then Some 0%nat
    else S <$> first_named name files.
Proof.
  unfold first_named. cbn [list_find]. case_decide; [done|].
  destruct (list_find _ files) as [[j x]|]; reflexivity.
Qed.

(** The index keeps what it already has and maps every other name to the
    first entry that carries it. *)
Lemma populate_lookup files : forall (i : nat) (m : gmap string nat) name,
  pak_archive.populate i files m !! name
  = match m !! name with
    | Some v => Some v
    | None => (fun j => (i + j)%nat) <$> first_named name files
    end.
Proof.
  induction files as [|e files IH]; intros i m name.
  - cbn. by destruct (m !! name).
  - cbn [pak_archive.populate]. rewrite IH, first_named_cons.
    unfold pak_archive.umap_insert.
    destruct (decide (pak_archive.entry_name e = name)) as [->|Hne].
    + destruct (m !! name) as [v|] eqn:Em.
      * by rewrite Em.
      * rewrite lookup_insert_eq. cbn. f_equal. lia.
    + destruct (m !! pak_archive.entry_name e) eqn:Ee.
      * destruct (m !! name); [done|].
        destruct (first_named name files); cbn; [f_equal; lia|done].
      * rewrite lookup_insert_ne by done.
        destruct (m !! name); [done|].
        destruct (first_named name files); cbn; [f_equal; lia|done].
Qed.

Lemma first_named_Some name files (i : nat) :
  first_named name files = Some i <->
  exists e, files !! i = Some e /\ pak_archive.entry_name e = name /\
            forall (j : nat) e', files !! j = Some e' -> (j < i)%nat ->
                                 pak_archive.entry_name e' <> name.
Proof.
  unfold first_named. split.
  - intros H. destruct (list_find _ files) as [[j x]|] eqn:E; [|done].
    cbn in H. inversion H; subst. apply list_find_Some in E as (H1 & H2 & H3).
    exists x. eauto.
  - intros (e & H1 & H2 & H3).
    assert (E : list_find (fun e => pak_archive.entry_name e = name) files = Some (i, e)).
    { apply list_find_Some. eauto. }
    by rewrite E.
Qed.

(** ** Enumeration *)

Lemma range_for_spec a :
  Z.of_nat (length (pak_archive.m_files a)) < 2 ^ 31 ->
  forall (fuel k : nat), (k + fuel)%nat = length (pak_archive.m_files a) ->
  pak_archive.range_for fuel a (pak_archive.mkiterator (Z.of_nat k))
  = Some (map entry_view (drop k (pak_archive.m_files a))).
Proof.
  intros Hn.
  assert (Hend : pak_archive.it_m_file (pak_archive.end_ a)
                 = Z.of_nat (length (pak_archive.m_files a))).
  { cbn. apply to_int_small. lia. }
  induction fuel as [|fuel IH]; intros k Hk.
  - cbn [pak_archive.range_for pak_archive.it_m_file]. rewrite Hend.
    rewrite (proj2 (Z.eqb_eq _ _)) by lia.
    rewrite drop_ge by lia. reflexivity.
  - cbn [pak_archive.range_for pak_archive.it_m_file]. rewrite Hend.
    rewrite (proj2 (Z.eqb_neq _ _)) by lia.
    destruct (lookup_lt_is_Some_2 (pak_archive.m_files a) k ltac:(lia)) as [f Hf].
    unfold pak_archive.deref. cbn [pak_archive.it_m_file].
    rewrite (proj2 (Z.ltb_ge _ _)) by lia. rewrite Nat2Z.id, Hf.
    unfold pak_archive.incr. cbn [pak_archive.it_m_file].
    rewrite to_int_small by lia.
    replace (Z.of_nat k + 1) with (Z.of_nat (S k)) by lia.
    rewrite IH by lia. cbn [option_map].
    by rewrite (drop_S _ _ _ Hf).
Qed.

Lemma enumerate_spec a :
  Z.of_nat (length (pak_archive.m_files a)) < 2 ^ 31 ->
  pak_archive.enumerate a = Some (map entry_view (pak_archive.m_files a)).
Proof.
  intros Hn. unfold pak_archive.enumerate, pak_archive.begin.
  by rewrite (range_for_spec a Hn _ 0%nat).
Qed.

(** ** What a successful [open] establishes *)

Lemma open_true_inv fs path a0 a :
  pak_archive.open fs path a0 = Ret true a ->
  pak_archive.m_file a0 <> closed_stream /\
  exists data, fs !! path = Some data /\ 12 <= Z.of_nat (length data) /\
               pak_archive.magic_ok (pak_header_t.decode (take 12 data)) = true.
Proof.
  intros H.
  assert (Hopen : pak_archive.m_file a0 <> closed_stream).
  { intros Hc. unfold pak_archive.open, pak_archive.close in H. rewrite Hc in H.
    cbn [bind] in H. discriminate H. }
  split; [exact Hopen|].
  assert (Hclose : pak_archive.close a0
            = Ret tt (pak_archive.mk nullptr (pak_archive.m_fileSize a0) []
                        (pak_archive.m_errno a0) ∅)).
  { unfold pak_archive.close. by destruct (pak_archive.m_file a0). }
  unfold pak_archive.open in H. rewrite Hclose in H. cbn [bind] in H.
  destruct (fs !! path) as [data|] eqn:Ed; [|discriminate H].
  exists data. split; [reflexivity|].
  unfold pak_archive.set_m_file, pak_archive.set_m_fileSize, pak_archive.set_m_files,
    pak_archive.set_m_errno, pak_archive.set_m_lookupMap in H.
  cbn [pak_archive.m_file pak_archive.m_fileSize pak_archive.m_files pak_archive.m_errno
       pak_archive.m_lookupMap] in H.
  unfold pak_header_t.sizeof in H.
  destruct (Z.ltb_spec (Z.of_nat (length data)) 12) as [?|Hlen]; [discriminate H|].
  split; [exact Hlen|].
  unfold fread at 1 in H. cbn [f_path f_pos] in H.
  rewrite (file_bytes_Some _ _ _ Ed) in H.
  change (Z.to_nat 0) with 0%nat in H. rewrite drop_0 in H.
  change (Z.to_nat 12) with 12%nat in H.
  destruct (pak_archive.magic_ok (pak_header_t.decode (take 12 data))); [reflexivity|].
  rewrite orb_true_r in H. discriminate H.
Qed.

(** The state after a successful [open]: the file holds a table of whole
    records where the header says, the vector holds these records in table
    order, and the index was populated from the vector, first to last. *)
Lemma open_true_state fs path a0 a :
  pak_archive.open fs path a0 = Ret true a ->
  exists data,
    fs !! path = Some data /\
    let hdr := pak_header_t.decode (take 12 data) in
    let n := Z.to_nat (pak_header_t.size hdr / 64) in
    let table := take (Z.to_nat (pak_header_t.size hdr))
                   (drop (Z.to_nat (pak_header_t.offset hdr)) data) in
    pak_header_t.size hdr = 64 * Z.of_nat n /\
    (0 < n)%nat /\
    Z.of_nat (length table) = pak_header_t.size hdr /\
    a = pak_archive.mk
          (stream (mkFILE path (pak_header_t.offset hdr + pak_header_t.size hdr)))
          (Z.of_nat (length data))
          (pak_archive.vector_of_bytes n table) NoError
          (pak_archive.populate 0 (pak_archive.vector_of_bytes n table) ∅).
Proof.
  intros H. destruct (open_true_inv _ _ _ _ H) as (Hopen & data & Hdata & Hlen & Hmagic).
  exists data. split; [done|]. intros hdr n table.
  rewrite (open_valid_header fs path a0 data) in H by done.
  fold hdr n table in H.
  pose proof (load_uint32_range (drop 8 (take 12 data))) as Hs.
  change (load_uint32 (drop 8 (take 12 data))) with (pak_header_t.size hdr) in Hs.
  pose proof (Z.div_mod (pak_header_t.size hdr) 64 ltac:(lia)) as Hdm.
  pose proof (Z.mod_pos_bound (pak_header_t.size hdr) 64 ltac:(lia)) as Hmb.
  destruct n as [|n'] eqn:En; [discriminate|]. rewrite <- En in *.
  destruct (Nat.ltb_spec (64 * n) (length table)) as [|Hfit]; [discriminate|].
  destruct (Z.eqb_spec (Z.of_nat (length table)) (pak_header_t.size hdr)) as [Hall|];
    [|discriminate].
  assert (Hsz : pak_header_t.size hdr = 64 * Z.of_nat n) by lia.
  split; [done|]. split; [lia|]. split; [done|].
  assert (Hov : overwrite (zeros (64 * n)) table = table).
  { unfold overwrite, zeros. rewrite drop_replicate.
    replace (64 * n - length table)%nat with 0%nat by lia. apply app_nil_r. }
  cbv zeta in H. rewrite Hov, Hall in H. by injection H as <-.
Qed.

(** ** The chunked copy loops *)

Lemma to_int64_chunk sz :
  0 < sz < 2 ^ 63 -> to_int64 (to_size_t sz - sizeof_buf) = sz - sizeof_buf.
Proof.
  intros H. unfold sizeof_buf. rewrite to_size_t_small by lia.
  apply to_int64_small. lia.
Qed.

Lemma chunk_fuel sz (fuel : nat) :
  0 < sz -> (Z.to_nat (sz / sizeof_buf + 1) <= S fuel)%nat ->
  (Z.to_nat ((sz - sizeof_buf) / sizeof_buf + 1) <= fuel)%nat.
Proof.
  unfold sizeof_buf. intros Hsz Hf.
  replace (sz - 8192) with (sz + (-1) * 8192) by lia.
  rewrite Z.div_add by lia.
  assert (0 <= sz / 8192) by (apply Z.div_pos; lia). lia.
Qed.

Lemma no_chunk_fuel sz : (Z.to_nat (sz / sizeof_buf + 1) <= 0)%nat -> sz < 0.
Proof.
  unfold sizeof_buf. intros H.
  destruct (Z.lt_ge_cases sz 0) as [|Hge]; [done|].
  assert (0 <= sz / 8192) by (apply Z.div_pos; lia). lia.
Qed.

(** The fuel handed to the two loops always suffices: from
    [sz / 8192 + 1] on, more fuel changes nothing. *)
Lemma extract_loop_fuel out : forall (fuel fuel' : nat) fs f buf sz,
  sz < 2 ^ 63 ->
  (Z.to_nat (sz / sizeof_buf + 1) <= fuel)%nat ->
  (Z.to_nat (sz / sizeof_buf + 1) <= fuel')%nat ->
  pak_archive.extract_loop fuel fs f out buf sz
  = pak_archive.extract_loop fuel' fs f out buf sz.
Proof.
  induction fuel as [|fuel IH]; intros fuel' fs f buf sz Hsz Hf Hf'.
  - apply no_chunk_fuel in Hf. destruct fuel'; cbn [pak_archive.extract_loop]; [done|].
    by rewrite (proj2 (Z.ltb_ge 0 sz)) by lia.
  - cbn [pak_archive.extract_loop]. destruct (Z.ltb_spec 0 sz) as [Hgt|Hle].
    + destruct fuel' as [|fuel']; [apply no_chunk_fuel in Hf'; lia|].
      cbn [pak_archive.extract_loop]. rewrite (proj2 (Z.ltb_lt 0 sz)) by done.
      rewrite to_int64_chunk by lia.
      destruct (fread fs f _) as [[got items] f1].
      apply IH; [unfold sizeof_buf; lia|by apply chunk_fuel|by apply chunk_fuel].
    + destruct fuel'; cbn [pak_archive.extract_loop]; [done|].
      by rewrite (proj2 (Z.ltb_ge 0 sz)) by lia.
Qed.

Lemma copy_loop_fuel ipath : forall (fuel fuel' : nat) fs ipos s buf sz,
  sz < 2 ^ 63 ->
  (Z.to_nat (sz / sizeof_buf + 1) <= fuel)%nat ->
  (Z.to_nat (sz / sizeof_buf + 1) <= fuel')%nat ->
  pak_builder.copy_loop fuel fs ipath ipos s buf sz
  = pak_builder.copy_loop fuel' fs ipath ipos s buf sz.
Proof.
  induction fuel as [|fuel IH]; intros fuel' fs ipos s buf sz Hsz Hf Hf'.
  - apply no_chunk_fuel in Hf. destruct fuel'; cbn [pak_builder.copy_loop]; [done|].
    by rewrite (proj2 (Z.ltb_ge 0 sz)) by lia.
  - cbn [pak_builder.copy_loop]. destruct (Z.ltb_spec 0 sz) as [Hgt|Hle].
    + destruct fuel' as [|fuel']; [apply no_chunk_fuel in Hf'; lia|].
      cbn [pak_builder.copy_loop]. rewrite (proj2 (Z.ltb_lt 0 sz)) by done.
      rewrite to_int64_chunk by lia.
      destruct (stream_write fs s _) as [fs1 s1].
      apply IH; [unfold sizeof_buf; lia|by apply chunk_fuel|by apply chunk_fuel].
    + destruct fuel'; cbn [pak_builder.copy_loop]; [done|].
      by rewrite (proj2 (Z.ltb_ge 0 sz)) by lia.
Qed.

(** [extract_file]'s loop, when the archive holds the [sz] bytes behind
    the cursor and the sink is another file: the sink gains these bytes. *)
Lemma extract_loop_spec path out data : path <> out ->
  forall (fuel : nat) (fs : filesystem) pos buf sz old,
  fs !! path = Some data -> fs !! out = Some old ->
  0 <= pos -> sz < 2 ^ 63 -> (0 < sz -> pos + sz <= Z.of_nat (length data)) ->
  (Z.to_nat (sz / sizeof_buf + 1) <= fuel)%nat ->
  pak_archive.extract_loop fuel fs (mkFILE path pos) out buf sz
  = (<[out := old ++ take (Z.to_nat sz) (drop (Z.to_nat pos) data)]> fs,
     mkFILE path (pos + Z.max 0 sz)).
Proof.
  intros Hne. induction fuel as [|fuel IH]; intros fs pos buf sz old Hp Ho Hpos Hsz Hin Hfuel.
  - apply no_chunk_fuel in Hfuel. cbn [pak_archive.extract_loop].
    replace (Z.to_nat sz) with 0%nat by lia. rewrite take_0, app_nil_r, insert_id by done.
    do 2 f_equal. lia.
  - cbn [pak_archive.extract_loop].
    destruct (Z.ltb_spec 0 sz) as [Hgt|Hle].
    + specialize (Hin Hgt).
      rewrite to_int64_chunk, to_size_t_small by lia.
      set (n := if sz <? sizeof_buf then sz else sizeof_buf).
      assert (Hn : 0 < n <= sz /\ n <= sizeof_buf /\ (sizeof_buf < sz -> n = sizeof_buf)
                   /\ (sz <= sizeof_buf -> n = sz)).
      { subst n. unfold sizeof_buf. destruct (Z.ltb_spec sz 8192); lia. }
      clearbody n.
      unfold fread. cbn [f_path f_pos]. rewrite (file_bytes_Some _ _ _ Hp).
      set (got := take (Z.to_nat n) (drop (Z.to_nat pos) data)).
      assert (Hgot : length got = Z.to_nat n).
      { subst got. rewrite length_take, length_drop. lia. }
      unfold overwrite. rewrite take_app_length' by done.
      unfold fwrite. rewrite (file_bytes_Some _ _ _ Ho).
      rewrite (IH _ _ _ _ (old ++ got)).
      * rewrite insert_insert_eq, <- app_assoc. f_equal; [f_equal; f_equal|f_equal].
        -- subst got. rewrite Hgot, Z2Nat.id by lia.
           replace (Z.to_nat (pos + n)) with (Z.to_nat pos + Z.to_nat n)%nat by lia.
           rewrite <- drop_drop, take_take_drop. f_equal.
           unfold sizeof_buf in *. lia.
        -- rewrite Hgot. unfold sizeof_buf in *. lia.
      * rewrite lookup_insert_ne by done. exact Hp.
      * apply lookup_insert_eq.
      * lia.
      * unfold sizeof_buf. lia.
      * rewrite Hgot. unfold sizeof_buf in *. lia.
      * by apply chunk_fuel.
    + replace (Z.to_nat sz) with 0%nat by lia. rewrite take_0, app_nil_r, insert_id by done.
      do 2 f_equal. lia.
Qed.

(** Pass 2's loop, when the source holds the [sz] bytes behind the read
    position, is another file than the output, and the put position is the
    end of the output: the output gains these bytes. *)
Lemma copy_loop_spec ipath data (s0 : ofstream) : ipath <> o_path s0 ->
  forall (fuel : nat) (fs : filesystem) ipos buf sz old,
  fs !! ipath = Some data -> fs !! o_path s0 = Some old ->
  0 <= ipos -> sz < 2 ^ 63 -> (0 < sz -> ipos + sz <= Z.of_nat (length data)) ->
  (Z.to_nat (sz / sizeof_buf + 1) <= fuel)%nat ->
  pak_builder.copy_loop fuel fs ipath ipos (mkofstream (o_path s0) (Z.of_nat (length old))) buf sz
  = (<[o_path s0 := old ++ take (Z.to_nat sz) (drop (Z.to_nat ipos) data)]> fs,
     mkofstream (o_path s0) (Z.of_nat (length old) + Z.max 0 sz)).
Proof.
  intros Hne. induction fuel as [|fuel IH]; intros fs ipos buf sz old Hp Ho Hpos Hsz Hin Hfuel.
  - apply no_chunk_fuel in Hfuel. cbn [pak_builder.copy_loop].
    replace (Z.to_nat sz) with 0%nat by lia. rewrite take_0, app_nil_r, insert_id by done.
    do 2 f_equal. lia.
  - cbn [pak_builder.copy_loop].
    destruct (Z.ltb_spec 0 sz) as [Hgt|Hle].
    + specialize (Hin Hgt).
      rewrite to_int64_chunk, to_size_t_small by lia.
      set (n := if sz <? sizeof_buf then sz else sizeof_buf).
      assert (Hn : 0 < n <= sz /\ n <= sizeof_buf /\ (sizeof_buf < sz -> n = sizeof_buf)
                   /\ (sz <= sizeof_buf -> n = sz)).
      { subst n. unfold sizeof_buf. destruct (Z.ltb_spec sz 8192); lia. }
      clearbody n.
      rewrite (file_bytes_Some _ _ _ Hp).
      set (got := take (Z.to_nat sizeof_buf) (drop (Z.to_nat ipos) data)).
      assert (Htake : take (Z.to_nat n) (overwrite buf got)
                      = take (Z.to_nat n) (drop (Z.to_nat ipos) data)).
      { unfold overwrite. rewrite take_app_le.
        - subst got. rewrite take_take. f_equal. lia.
        - subst got. rewrite length_take, length_drop. lia. }
      rewrite Htake.
      set (chunk := take (Z.to_nat n) (drop (Z.to_nat ipos) data)).
      assert (Hchunk : length chunk = Z.to_nat n).
      { subst chunk. rewrite length_take, length_drop. lia. }
      assert (Hgot : Z.of_nat (length got) = Z.min sizeof_buf (Z.of_nat (length data) - ipos)).
      { subst got. rewrite length_take, length_drop. lia. }
      rewrite (stream_write_append _ _ _ old) by done.
      cbn [o_path o_pos].
      replace (Z.of_nat (length old) + Z.of_nat (length chunk))
        with (Z.of_nat (length (old ++ chunk))) by (rewrite length_app; lia).
      destruct (Z.le_gt_cases sz sizeof_buf) as [Hlast|Hmore].
      * (* the last block: the loop stops whatever the read position is *)
        assert (Hn' : n = sz) by lia.
        destruct fuel as [|fuel'].
        -- cbn [pak_builder.copy_loop]. rewrite length_app, Hchunk.
           subst chunk. rewrite Hn'. do 2 f_equal. lia.
        -- cbn [pak_builder.copy_loop].
           rewrite (proj2 (Z.ltb_ge 0 (sz - sizeof_buf))) by lia.
           rewrite length_app, Hchunk. subst chunk. rewrite Hn'. do 2 f_equal. lia.
      * assert (Hn' : n = sizeof_buf) by lia.
        rewrite (IH _ _ _ _ (old ++ chunk)).
        -- rewrite insert_insert_eq, <- app_assoc. f_equal; [f_equal; f_equal|f_equal].
           ++ subst chunk. rewrite Hgot, Hn'.
              replace (Z.to_nat (ipos + Z.min sizeof_buf (Z.of_nat (length data) - ipos)))
                with (Z.to_nat ipos + Z.to_nat sizeof_buf)%nat by lia.
              rewrite <- drop_drop, take_take_drop. f_equal. lia.
           ++ rewrite length_app, Hchunk. lia.
        -- rewrite lookup_insert_ne by done. exact Hp.
        -- apply lookup_insert_eq.
        -- lia.
        -- lia.
        -- lia.
        -- by apply chunk_fuel.
    + replace (Z.to_nat sz) with 0%nat by lia. rewrite take_0, app_nil_r, insert_id by done.
      do 2 f_equal. lia.
Qed.

(** ** The builder: pass 2 and the whole archive *)

Lemma sources_present_insert fs file files data :
  sources_present fs file files -> sources_present (<[file := data]> fs) file files.
Proof.
  unfold sources_present. intros H. eapply Forall_impl; [exact H|].
  intros f (Hne & d & Hd & Hs).
  split; [done|]. exists d. by rewrite lookup_insert_ne.
Qed.

Lemma sources_insert fs file files data :
  sources_present fs file files -> sources (<[file := data]> fs) files = sources fs files.
Proof.
  unfold sources. induction 1 as [|f files (Hne & _) _ IH]; cbn [map]; [done|].
  by rewrite file_bytes_insert_ne, IH.
Qed.

Lemma sources_present_sizes_ok fs file files : sources_present fs file files -> sizes_ok files.
Proof.
  intros H. eapply Forall_impl; [exact H|]. cbn. intros f (_ & d & _ & ->). lia.
Qed.

Lemma write_data_spec garbage path : forall files (fs : filesystem) (s : ofstream) old,
  o_path s = path -> fs !! path = Some old ->
  sources_present fs path files ->
  Z.of_nat (length old) + total_size files < 2 ^ 63 ->
  pak_builder.write_data fs s garbage (assign_offsets (Z.of_nat (length old)) files)
  = (true, <[path := old ++ concat (sources fs files)]> fs).
Proof.
  induction files as [|f files IH]; intros fs s old Hs Hold Hsrc Hfit.
  - cbn. by rewrite app_nil_r, insert_id.
  - pose proof (sources_present_sizes_ok _ _ _ Hsrc) as Hok.
    inversion Hsrc as [|? ? (Hne & data & Hdata & Hsize) Hsrc']; subst.
    inversion Hok as [|? ? Hf Hok']; subst.
    pose proof (total_size_nonneg _ Hok') as Hn.
    cbn [total_size foldr] in Hfit. fold (total_size files) in Hfit.
    cbn [assign_offsets pak_builder.write_data with_offset
         pak_builder.file_t.disk_path pak_builder.file_t.offset pak_builder.file_t.size].
    rewrite Hdata. unfold seekp.
    rewrite to_int64_small, to_size_t_small by lia.
    rewrite (copy_loop_spec (pak_builder.file_t.disk_path f) data s Hne _ fs 0 _ _ old);
      [|done|done|lia|lia|lia|unfold pak_builder.copy_fuel; lia].
    rewrite Hsize at 1. rewrite Nat2Z.id, drop_0, take_ge by lia.
    replace (Z.of_nat (length old) + pak_builder.file_t.size f)
      with (Z.of_nat (length (old ++ data))) by (rewrite length_app; lia).
    rewrite (IH _ (mkofstream (o_path s) (Z.of_nat (length old) + Z.max 0 (pak_builder.file_t.size f)))
               (old ++ data)).
    + rewrite insert_insert_eq, sources_insert by done.
      cbn [sources map concat]. rewrite (file_bytes_Some _ _ _ Hdata).
      by rewrite <- app_assoc.
    + done.
    + apply lookup_insert_eq.
    + by apply sources_present_insert.
    + rewrite length_app. lia.
Qed.

Lemma write_spec can_create file garbage b fs :
  can_create file = true ->
  sources_present fs file (pak_builder.m_files b) ->
  archive_size (pak_builder.m_files b) < 2 ^ 32 ->
  let n := Z.of_nat (length (pak_builder.m_files b)) in
  pak_builder.write can_create file garbage (b, fs)
  = Ret true
      (pak_builder.mk (assign_offsets (12 + 64 * n) (pak_builder.m_files b)),
       <[file := pak_header_t.encode (pak_header_t.mk PACK 12 (64 * n))
                 ++ concat (map pak_file_t.encode
                              (listing_entries (12 + 64 * n) (pak_builder.m_files b)))
                 ++ concat (sources fs (pak_builder.m_files b))]> fs).
Proof.
  intros Hc Hsrc Hfit n. unfold archive_size in Hfit. fold n in Hfit.
  pose proof (sources_present_sizes_ok _ _ _ Hsrc) as Hok.
  pose proof (total_size_nonneg _ Hok) as Hn.
  unfold pak_builder.write. rewrite Hc. cbn [negb].
  rewrite write_layout_spec by apply lookup_insert_eq.
  rewrite build_header_small by lia. fold n.
  cbn [pak_header_t.size pak_builder.m_files]. unfold pak_header_t.sizeof.
  rewrite to_size_t_small by lia. rewrite insert_insert_eq.
  set (H := pak_header_t.encode _).
  set (T := concat (map pak_file_t.encode _)).
  assert (Hlen : Z.of_nat (length (H ++ T)) = 12 + 64 * n).
  { subst H T. rewrite length_app, length_header_encode, length_concat_entries,
      length_listing_entries. lia. }
  rewrite <- Hlen.
  rewrite (write_data_spec garbage file _ _ _ (H ++ T)).
  - rewrite insert_insert_eq, sources_insert by done. by rewrite <- app_assoc.
  - done.
  - apply lookup_insert_eq.
  - by apply sources_present_insert.
  - lia.
Qed.

(** ** Reading back a table and extracting *)

Lemma vector_of_bytes_lookup (n : nat) : forall mem (i : nat),
  (i < n)%nat ->
  pak_archive.vector_of_bytes n mem !! i
  = Some (pak_file_t.decode (take 64 (drop (64 * i) mem))).
Proof.
  induction n as [|n IH]; intros mem i Hi; [lia|].
  cbn [pak_archive.vector_of_bytes]. destruct i as [|i].
  - by rewrite Nat.mul_0_r, drop_0.
  - cbn [lookup list_lookup]. rewrite (IH _ i) by lia. rewrite drop_drop.
    by replace (64 * S i)%nat with (64 + 64 * i)%nat by lia.
Qed.

Lemma vector_of_bytes_encode es : forall rest,
  Forall (fun e => pak_file_t.decode (pak_file_t.encode e) = e) es ->
  pak_archive.vector_of_bytes (length es) (concat (map pak_file_t.encode es) ++ rest) = es.
Proof.
  induction es as [|e es IH]; intros rest Hwf; [done|].
  inversion Hwf as [|? ? He Hwf']; subst.
  cbn [length pak_archive.vector_of_bytes map concat]. rewrite <- app_assoc.
  rewrite take_app_length', drop_app_length' by (by rewrite length_entry_encode).
  by rewrite He, IH.
Qed.

Lemma build_entry_wf curoff f :
  pak_file_t.decode (pak_file_t.encode (pak_builder.build_entry curoff f))
  = pak_builder.build_entry curoff f.
Proof.
  apply entry_decode_encode; cbn; [apply length_strncpy| |];
    unfold to_uint32; apply Z.mod_pos_bound; lia.
Qed.

Lemma listing_entries_wf files : forall curoff,
  Forall (fun e => pak_file_t.decode (pak_file_t.encode e) = e) (listing_entries curoff files).
Proof.
  induction files as [|f files IH]; intros curoff; cbn [listing_entries]; constructor.
  - apply build_entry_wf.
  - apply IH.
Qed.

(** [open] on a file made of a header, a table of whole records at offset
    12 and any data behind it. *)
Lemma open_archive fs path a0 es rest :
  pak_archive.m_file a0 <> closed_stream ->
  es <> [] -> 64 * Z.of_nat (length es) < 2 ^ 32 ->
  Forall (fun e => pak_file_t.decode (pak_file_t.encode e) = e) es ->
  let data := pak_header_t.encode (pak_header_t.mk PACK 12 (64 * Z.of_nat (length es)))
              ++ concat (map pak_file_t.encode es) ++ rest in
  fs !! path = Some data ->
  pak_archive.open fs path a0
  = Ret true (pak_archive.mk (stream (mkFILE path (12 + 64 * Z.of_nat (length es))))
                (Z.of_nat (length data)) es NoError (pak_archive.populate 0 es ∅)).
Proof.
  intros Hopen Hne Hn Hwf data Hdata.
  set (hdr := pak_header_t.mk PACK 12 (64 * Z.of_nat (length es))).
  assert (Htake : take 12 data = pak_header_t.encode hdr).
  { subst data. apply take_app_length', eq_sym, length_header_encode. }
  assert (Hdec : pak_header_t.decode (take 12 data) = hdr).
  { rewrite Htake, <- (app_nil_r (pak_header_t.encode hdr)).
    apply header_decode_encode; cbn [pak_header_t.id pak_header_t.offset pak_header_t.size hdr];
      [done|lia|lia]. }
  assert (Hlen : 12 <= Z.of_nat (length data)).
  { subst data. rewrite length_app, length_header_encode. lia. }
  rewrite (open_valid_header fs path a0 data Hopen Hdata Hlen); [|by rewrite Hdec].
  rewrite Hdec. cbn [pak_header_t.size pak_header_t.offset hdr].
  replace (64 * Z.of_nat (length es) / 64) with (Z.of_nat (length es))
    by (rewrite Z.mul_comm, Z.div_mul; lia).
  rewrite Nat2Z.id.
  assert (Hgot : take (Z.to_nat (64 * Z.of_nat (length es))) (drop (Z.to_nat 12) data)
                 = concat (map pak_file_t.encode es)).
  { subst data. change (Z.to_nat 12) with 12%nat.
    rewrite drop_app_length' by (by rewrite length_header_encode).
    apply take_app_length'. rewrite length_concat_entries. lia. }
  rewrite Hgot, length_concat_entries.
  destruct (length es) as [|n'] eqn:En; [by destruct es|]. rewrite <- En.
  rewrite (proj2 (Nat.ltb_ge _ _)) by lia.
  rewrite (proj2 (Z.eqb_eq _ _)) by lia.
  cbv zeta.
  assert (Hov : overwrite (zeros (64 * length es)) (concat (map pak_file_t.encode es))
                = concat (map pak_file_t.encode es) ++ []).
  { unfold overwrite, zeros. rewrite drop_replicate, length_concat_entries.
    by rewrite Nat.sub_diag. }
  rewrite Hov, vector_of_bytes_encode by done.
  by replace (Z.of_nat (64 * length es)) with (64 * Z.of_nat (length es)) by lia.
Qed.

Lemma extract_file_spec can_create (fs : filesystem) a name out garbage
  (i : nat) e path pos data :
  pak_archive.m_lookupMap a !! name = Some i ->
  pak_archive.m_files a !! i = Some e ->
  pak_archive.m_file a = stream (mkFILE path pos) ->
  can_create out = true -> path <> out -> fs !! path = Some data ->
  0 <= pak_file_t.offset e -> 0 <= pak_file_t.size e < 2 ^ 63 ->
  pak_file_t.offset e + pak_file_t.size e <= Z.of_nat (length data) ->
  pak_archive.extract_file can_create name out garbage (a, fs)
  = Ret true
      (pak_archive.set_m_file
         (stream (mkFILE path (pak_file_t.offset e + pak_file_t.size e))) a,
       <[out := take (Z.to_nat (pak_file_t.size e))
                  (drop (Z.to_nat (pak_file_t.offset e)) data)]> fs).
Proof.
  intros Hl He Hf Hc Hne Hdata Hoff Hsz Hin.
  unfold pak_archive.extract_file. rewrite Hl, Hc, He, Hf. cbn [negb].
  unfold fseek_set. cbn [f_path].
  rewrite to_int64_small by lia.
  rewrite (extract_loop_spec path out data Hne _ _ _ _ _ []);
    [|by rewrite lookup_insert_ne|apply lookup_insert_eq|lia|lia|lia|
     unfold pak_archive.extract_fuel; lia].
  rewrite insert_insert_eq, Z.max_r by lia. reflexivity.
Qed.

(** ** C3: entries with the same name *)

Lemma decode_fields_range mem :
  0 <= pak_file_t.offset (pak_file_t.decode mem) < 2 ^ 32 /\
  0 <= pak_file_t.size (pak_file_t.decode mem) < 2 ^ 32.
Proof. split; apply load_uint32_range. Qed.

(** C3 (amended). After a successful [open] the vector holds every record
    of the table, in table order, and enumeration shows them all in that
    order, whatever their names.  A name resolves to the FIRST entry that
    carries it ([unordered_map::insert] does not replace an existing key):
    the index maps a name to [i] exactly when entry [i] has that name and
    no earlier entry has, and [stat], [read_file] and [extract_file] then
    work on entry [i]. *)
Theorem open_duplicate_names (can_create : string -> bool) (fs : filesystem)
  (path : string) (a0 a : pak_archive.t) :
  pak_archive.open fs path a0 = Ret true a ->
  exists data,
    fs !! path = Some data /\
    let hdr := pak_header_t.decode (take 12 data) in
    let table := take (Z.to_nat (pak_header_t.size hdr))
                   (drop (Z.to_nat (pak_header_t.offset hdr)) data) in
    Z.of_nat (length (pak_archive.m_files a)) = pak_header_t.size hdr / 64 /\
    (forall (i : nat), (i < length (pak_archive.m_files a))%nat ->
       pak_archive.m_files a !! i
       = Some (pak_file_t.decode (take 64 (drop (64 * i) table)))) /\
    pak_archive.enumerate a = Some (map entry_view (pak_archive.m_files a)) /\
    (forall name (i : nat),
       pak_archive.m_lookupMap a !! name = Some i <->
       exists e, pak_archive.m_files a !! i = Some e /\ pak_archive.entry_name e = name /\
                 forall (j : nat) e', pak_archive.m_files a !! j = Some e' -> (j < i)%nat ->
                                      pak_archive.entry_name e' <> name) /\
    (forall name (i : nat) e,
       pak_archive.m_lookupMap a !! name = Some i ->
       pak_archive.m_files a !! i = Some e ->
       (forall file_size offset,
          pak_archive.stat name file_size offset a
          = Ret (true, pak_file_t.size e, pak_file_t.offset e) a) /\
       (forall max_size, exists ok a',
          pak_archive.read_file fs name max_size a
          = Ret (ok, take (Z.to_nat max_size) (drop (Z.to_nat (pak_file_t.offset e)) data)) a') /\
       (forall out garbage,
          can_create out = true -> path <> out ->
          pak_file_t.offset e + pak_file_t.size e <= Z.of_nat (length data) ->
          exists a',
            pak_archive.extract_file can_create name out garbage (a, fs)
            = Ret true (a', <[out := take (Z.to_nat (pak_file_t.size e))
                                       (drop (Z.to_nat (pak_file_t.offset e)) data)]> fs))).
Proof.
  intros H. destruct (open_true_state _ _ _ _ H) as (data & Hdata & Hst).
  exists data. split; [exact Hdata|]. intros hdr table.
  destruct Hst as (Hsz & Hpos & Htab & ->). fold hdr table in Hsz, Hpos, Htab |- *.
  set (n := Z.to_nat (pak_header_t.size hdr / 64)) in *.
  cbn [pak_archive.m_files pak_archive.m_lookupMap].
  pose proof (load_uint32_range (drop 8 (take 12 data))) as Hs.
  change (load_uint32 (drop 8 (take 12 data))) with (pak_header_t.size hdr) in Hs.
  rewrite length_vector_of_bytes.
  assert (Hn : Z.of_nat n = pak_header_t.size hdr / 64).
  { subst n. rewrite Z2Nat.id; [done|]. apply Z.div_pos; lia. }
  split; [exact Hn|]. split; [|split; [|split]].
  - intros i Hi. by apply vector_of_bytes_lookup.
  - apply enumerate_spec. cbn [pak_archive.m_files]. rewrite length_vector_of_bytes. lia.
  - intros name i. rewrite populate_lookup, lookup_empty.
    rewrite <- first_named_Some.
    destruct (first_named name _); cbn; split; congruence.
  - intros name i e Hl He.
    assert (Hrange : 0 <= pak_file_t.offset e < 2 ^ 32 /\ 0 <= pak_file_t.size e < 2 ^ 32).
    { rewrite vector_of_bytes_lookup in He by (by apply lookup_lt_Some in He;
        rewrite length_vector_of_bytes in He).
      inversion He. apply decode_fields_range. }
    split; [|split].
    + intros file_size offset. unfold pak_archive.stat.
      cbn [pak_archive.m_files pak_archive.m_lookupMap]. by rewrite Hl, He.
    + intros max_size. unfold pak_archive.read_file.
      cbn [pak_archive.m_files pak_archive.m_lookupMap pak_archive.m_file]. rewrite Hl, He.
      unfold fread, fseek_set. cbn [f_path f_pos]. rewrite (file_bytes_Some _ _ _ Hdata).
      by eexists _, _.
    + intros out garbage Hc Hne Hin. eexists.
      eapply extract_file_spec; cbn [pak_archive.m_files pak_archive.m_lookupMap pak_archive.m_file];
        try done; lia.
Qed.

Lemma open_duplicate_names_witness :
  pak_archive.m_lookupMap same_name_opened !! "x"%string = Some 0%nat /\
  pak_archive.enumerate same_name_opened
  = Some (map entry_view (pak_archive.m_files same_name_opened)).
Proof.
  destruct (open_duplicate_names always same_name_disk "x.pak" pak_archive.init same_name_opened)
    as (data & Hdata & _ & _ & Henum & Hidx & _).
  - vm_compute. reflexivity.
  - split; [|exact Henum]. apply Hidx. eexists. split; [reflexivity|].
    split; [vm_compute; reflexivity|]. intros j e' _ Hj. lia.
Defined.

(** C3, as stated, fails: with two entries named "x" (offsets 140 and
    142) both are enumerated, and the name resolves to the earlier one,
    at index 0, not to the later one. *)
Lemma duplicate_names_counterexample :
  pak_archive.enumerate same_name_opened
  = Some [("x"%string, pak_file_details_t.mk 140 2); ("x"%string, pak_file_details_t.mk 142 3)] /\
  pak_archive.m_lookupMap same_name_opened !! "x"%string = Some 0%nat /\
  pak_archive.stat "x" 0 0 same_name_opened = Ret (true, 2, 140) same_name_opened /\
  returned (pak_archive.read_file same_name_disk "x" 2 same_name_opened)
  = Some (true, [x68; x69]) /\
  (fun st : pak_archive.t * filesystem => snd st !! "out"%string)
    <$> final_state (pak_archive.extract_file always "x" "out" []
                       (same_name_opened, same_name_disk))
  = Some (Some [x68; x69]).
Proof. repeat split; vm_compute; reflexivity. Qed.

(** ** C1: build, open, extract *)

Lemma add_files_spec fs inputs : forall b,
  Forall (registrable fs) inputs ->
  add_files fs inputs b
  = Ret true (pak_builder.mk (pak_builder.m_files b ++ map (pending fs) inputs)).
Proof.
  induction inputs as [|[d nm] inputs IH]; intros b Hreg.
  - cbn. rewrite app_nil_r. by destruct b.
  - inversion Hreg as [|? ? (Hlen & data & Hdata & Hsize) Hreg']; subst.
    cbn [fst snd] in *. cbn [add_files]. unfold pak_builder.add_file.
    rewrite (proj2 (Z.ltb_ge _ _) Hlen), Hdata. cbv zeta.
    rewrite (proj2 (Z.ltb_ge _ _) Hsize). cbn [bind].
    rewrite IH by done. cbn [pak_builder.m_files map]. rewrite <- app_assoc.
    unfold pending at 2. cbn [fst snd]. by rewrite (file_bytes_Some _ _ _ Hdata).
Qed.

Lemma sources_present_pending fs file inputs :
  Forall (registrable fs) inputs -> Forall (fun inp => fst inp <> file) inputs ->
  sources_present fs file (map (pending fs) inputs).
Proof.
  intros Hreg. unfold sources_present.
  induction Hreg as [|[d nm] inputs (_ & data & Hdata & _) _ IH]; intros Hne;
    cbn [map]; [constructor|].
  inversion Hne as [|? ? Hd Hne']; subst. cbn [fst] in *.
  constructor; [|by apply IH].
  cbn [pending pak_builder.file_t.disk_path pak_builder.file_t.size fst].
  split; [done|]. exists data. split; [done|]. by rewrite (file_bytes_Some _ _ _ Hdata).
Qed.

(** The name a reader sees in the entry written for a registered pair. *)
Lemma entry_name_pending fs curoff (input : string * string) :
  Z.of_nat (String.length (snd input)) <= MAX_PAK_NAME_LEN -> nul_free (snd input) ->
  pak_archive.entry_name (pak_builder.build_entry curoff (pending fs input)) = snd input.
Proof.
  intros Hlen Hnul. unfold pak_archive.entry_name, pak_builder.build_entry, pending.
  cbn [pak_file_t.name pak_builder.file_t.pak_path].
  set (bs := list_byte_of_string (snd input)).
  assert (Hc : c_str bs = bs) by (by apply c_str_nul_free).
  assert (Hl : (length bs <= 56)%nat).
  { subst bs. rewrite length_list_byte_of_string. unfold MAX_PAK_NAME_LEN in Hlen. lia. }
  unfold string_c_str. fold bs. rewrite Hc.
  assert (Hfield : c_str (overwrite (zeros 57) (strncpy bs 56)) = bs).
  { rewrite c_str_field; [done|by rewrite Hc|lia]. }
  rewrite (take_ge (strncpy _ 56)) by (by rewrite length_strncpy).
  unfold string_of_chars. rewrite c_str_field.
  - rewrite Hfield. apply string_of_list_byte_of_string.
  - by rewrite Hfield.
  - lia.
Qed.

Lemma total_size_sources fs file files :
  sources_present fs file files ->
  total_size files = Z.of_nat (length (concat (sources fs files))).
Proof.
  induction 1 as [|f files (_ & data & Hdata & Hsize) _ IH]; [done|].
  cbn [total_size foldr sources map concat]. fold (total_size files).
  fold (sources fs files).
  rewrite length_app, (file_bytes_Some _ _ _ Hdata), IH. lia.
Qed.

Lemma sources_present_take fs file files i :
  sources_present fs file files -> sources_present fs file (take i files).
Proof. apply Forall_take. Qed.

(** Where the data of pending file [i] lies in the written archive. *)
Lemma archive_data_at fs file files (i : nat) f (front : list byte) :
  sources_present fs file files -> files !! i = Some f ->
  take (Z.to_nat (pak_builder.file_t.size f))
    (drop (Z.to_nat (Z.of_nat (length front) + total_size (take i files)))
       (front ++ concat (sources fs files)))
  = file_bytes fs (pak_builder.file_t.disk_path f).
Proof.
  intros Hsrc Hi.
  rewrite (total_size_sources fs file) by (by apply sources_present_take).
  replace (Z.to_nat (Z.of_nat (length front)
                     + Z.of_nat (length (concat (sources fs (take i files))))))
    with (length front + length (concat (sources fs (take i files))))%nat by lia.
  rewrite drop_app_add.
  pose proof (Forall_lookup_1 _ _ _ _ Hsrc Hi) as (_ & data & Hdata & Hsize).
  assert (Hsplit : sources fs files
                   = sources fs (take i files)
                     ++ file_bytes fs (pak_builder.file_t.disk_path f)
                        :: sources fs (drop (S i) files)).
  { rewrite <- (take_drop_middle _ _ _ Hi) at 1. unfold sources. by rewrite map_app. }
  rewrite Hsplit, concat_app. cbn [concat].
  rewrite drop_app_length, Hsize.
  rewrite (file_bytes_Some _ _ _ Hdata), Nat2Z.id. apply take_app_length.
Qed.

Lemma total_size_take_S files (i : nat) f :
  sizes_ok files -> files !! i = Some f ->
  total_size (take i files) + pak_builder.file_t.size f <= total_size files.
Proof.
  intros Hok Hi. pose proof (total_size_take (S i) files Hok) as H.
  rewrite (take_S_r _ _ _ Hi), total_size_app in H. cbn [total_size foldr] in H.
  fold (total_size (take i files)) in H. lia.
Qed.

(** ** The builder: what pass 2 leaves of the output *)

Lemma take_stream_write (K p : nat) (old bs : list byte) :
  (K <= length old)%nat -> (K <= p)%nat ->
  take K (take p old ++ zeros (p - length old) ++ bs ++ drop (p + length bs) old) = take K old.
Proof.
  intros Hold Hp. rewrite take_app_le by (rewrite length_take; lia).
  rewrite take_take. f_equal. lia.
Qed.

(** A [stream.write] rewrites the file of the stream and nothing else; it
    keeps the bytes in front of the put position. *)
Lemma stream_write_shape fs s bs old :
  fs !! o_path s = Some old ->
  exists old' s',
    stream_write fs s bs = (<[o_path s := old']> fs, s') /\
    o_path s' = o_path s /\ o_pos s <= o_pos s' /\
    forall K : nat, (K <= length old)%nat -> Z.of_nat K <= o_pos s ->
                    take K old' = take K old /\ (K <= length old')%nat.
Proof.
  intros Hold. unfold stream_write. destruct bs as [|b bs].
  - exists old, s. rewrite insert_id by done. split; [done|]. split; [done|]. split; [lia|done].
  - eexists _, _. split; [reflexivity|]. cbn [o_path o_pos]. split; [done|].
    split; [lia|]. intros K HK Hp. rewrite (file_bytes_Some _ _ _ Hold).
    split.
    + apply take_stream_write; lia.
    + rewrite !length_app, length_take, length_zeros. cbn [length]. lia.
Qed.

Lemma copy_loop_shape ipath : forall (fuel : nat) (fs : filesystem) ipos s buf sz old,
  fs !! o_path s = Some old ->
  exists old' s',
    pak_builder.copy_loop fuel fs ipath ipos s buf sz = (<[o_path s := old']> fs, s') /\
    o_path s' = o_path s /\ o_pos s <= o_pos s' /\
    forall K : nat, (K <= length old)%nat -> Z.of_nat K <= o_pos s ->
                    take K old' = take K old /\ (K <= length old')%nat.
Proof.
  induction fuel as [|fuel IH]; intros fs ipos s buf sz old Hold.
  - exists old, s. cbn [pak_builder.copy_loop]. rewrite insert_id by done.
    split; [done|]. split; [done|]. split; [lia|done].
  - cbn [pak_builder.copy_loop]. destruct (0 <? sz).
    + set (chunk := take _ (overwrite buf _)).
      destruct (stream_write_shape fs s chunk old Hold) as (old1 & s1 & Hw & Hp1 & Hpos1 & Hk1).
      rewrite Hw.
      destruct (IH (<[o_path s := old1]> fs)
                   (ipos + Z.of_nat (length (take (Z.to_nat sizeof_buf)
                                               (drop (Z.to_nat ipos) (file_bytes fs ipath)))))
                   s1 (overwrite buf (take (Z.to_nat sizeof_buf)
                                        (drop (Z.to_nat ipos) (file_bytes fs ipath))))
                   (to_int64 (to_size_t sz - sizeof_buf)) old1)
        as (old2 & s2 & Hl & Hp2 & Hpos2 & Hk2).
      { rewrite Hp1. apply lookup_insert_eq. }
      rewrite Hl, Hp1, insert_insert_eq. exists old2, s2.
      split; [done|]. split; [congruence|]. split; [lia|].
      intros K HK Hp. destruct (Hk1 K HK Hp) as [Ht1 Hl1].
      destruct (Hk2 K Hl1 ltac:(lia)) as [Ht2 Hl2]. split; [congruence|done].
    + exists old, s. rewrite insert_id by done.
      split; [done|]. split; [done|]. split; [lia|done].
Qed.

(** Pass 2 succeeds exactly when every source exists when its turn comes;
    it rewrites the output file only, and keeps the bytes in front of the
    smallest offset it seeks to. *)
Lemma write_data_shape garbage path : forall files (fs : filesystem) s old,
  o_path s = path -> fs !! path = Some old ->
  exists ok old',
    pak_builder.write_data fs s garbage files = (ok, <[path := old']> fs) /\
    (ok = true <->
     Forall (fun f => pak_builder.file_t.disk_path f = path \/
                      is_Some (fs !! pak_builder.file_t.disk_path f)) files) /\
    forall K : nat, (K <= length old)%nat ->
      Forall (fun f => Z.of_nat K <= pak_builder.file_t.offset f) files ->
      take K old' = take K old /\ (K <= length old')%nat.
Proof.
  induction files as [|f files IH]; intros fs s old Hs Hold.
  - exists true, old. cbn [pak_builder.write_data]. rewrite insert_id by done.
    split; [done|]. split; [done|]. done.
  - cbn [pak_builder.write_data].
    destruct (fs !! pak_builder.file_t.disk_path f) as [src|] eqn:Hsrc.
    + set (s0 := seekp s (pak_builder.file_t.offset f)).
      destruct (copy_loop_shape (pak_builder.file_t.disk_path f)
                  (pak_builder.copy_fuel (to_int64 (pak_builder.file_t.size f))) fs 0 s0
                  (stack_buf garbage) (to_int64 (pak_builder.file_t.size f)) old)
        as (old1 & s1 & Hl & Hp1 & Hpos1 & Hk1).
      { subst s0. cbn [seekp o_path]. by rewrite Hs. }
      rewrite Hl. subst s0. cbn [seekp o_path o_pos] in *. rewrite Hs in *.
      destruct (IH (<[path := old1]> fs) s1 old1 Hp1 (lookup_insert_eq _ _ _))
        as (ok & old2 & Hd & Hiff & Hk2).
      rewrite Hd, insert_insert_eq. exists ok, old2. split; [done|]. split.
      * rewrite Hiff, Forall_cons. split.
        -- intros HF. split; [right; by eexists|].
           eapply Forall_impl; [exact HF|]. cbn. intros g [Hg|Hg]; [by left|].
           destruct (decide (pak_builder.file_t.disk_path g = path)) as [Heq|Hne]; [by left|].
           right. by rewrite lookup_insert_ne in Hg.
        -- intros [_ HF]. eapply Forall_impl; [exact HF|]. cbn. intros g [Hg|Hg]; [by left|].
           destruct (decide (pak_builder.file_t.disk_path g = path)) as [Heq|Hne]; [by left|].
           right. by rewrite lookup_insert_ne.
      * intros K HK HF. apply Forall_cons in HF as [Hf HF].
        destruct (Hk1 K HK Hf) as [Ht1 Hl1]. destruct (Hk2 K Hl1 HF) as [Ht2 Hl2].
        split; [congruence|done].
    + exists false, old. rewrite insert_id by done. split; [done|]. split; [|done].
      split; [discriminate|]. intros HF. apply Forall_cons in HF as [[Hf|Hf] _].
      * rewrite Hf, Hold in Hsrc. discriminate.
      * rewrite Hsrc in Hf. by destruct Hf.
Qed.

Lemma assign_offsets_ge files : forall curoff,
  sizes_ok files -> 0 <= curoff -> curoff + total_size files < 2 ^ 64 ->
  Forall (fun f => curoff <= pak_builder.file_t.offset f) (assign_offsets curoff files).
Proof.
  induction files as [|f files IH]; intros curoff Hok Hc Hfit; cbn [assign_offsets];
    constructor.
  - cbn. lia.
  - inversion Hok as [|? ? Hf Hok']; subst.
    pose proof (total_size_nonneg _ Hok') as Hn.
    cbn [total_size foldr] in Hfit. fold (total_size files) in Hfit.
    rewrite to_size_t_small by lia.
    eapply Forall_impl; [apply IH; [done|lia|lia]|]. cbn. intros g Hg. lia.
Qed.

(** ** C7: the layout *)

Lemma sizes_32bit_ok files : sizes_32bit files -> sizes_ok files.
Proof. intros H. eapply Forall_impl; [exact H|]. cbn. intros f Hf. lia. Qed.

Lemma total_size_bound files :
  sizes_32bit files -> 0 <= total_size files <= Z.of_nat (length files) * UINT32_MAX.
Proof.
  induction 1 as [|f files Hf _ IH]; cbn [total_size foldr length]; [lia|].
  fold (total_size files). unfold UINT32_MAX in *. lia.
Qed.

Lemma to_uint32_range z : 0 <= to_uint32 z < 2 ^ 32.
Proof. unfold to_uint32. apply Z.mod_pos_bound. lia. Qed.

Lemma header_offset_ge b :
  12 <= to_size_t (pak_header_t.sizeof + pak_header_t.size (pak_builder.build_header b))
     < 2 ^ 33.
Proof.
  unfold pak_builder.build_header, pak_header_t.sizeof. cbn [pak_header_t.size].
  pose proof (to_uint32_range
                (to_size_t (Z.of_nat (length (pak_builder.m_files b)) * pak_file_t.sizeof))) as H.
  rewrite to_size_t_small by lia. lia.
Qed.

(** Whatever the disk holds, [write] on a creatable output returns, leaves
    the pending files with the offsets of pass 1, and the output begins
    with what pass 1 wrote, up to the smallest offset of pass 2. *)
Lemma write_shape can_create file garbage b fs :
  can_create file = true ->
  let c := to_size_t (pak_header_t.sizeof + pak_header_t.size (pak_builder.build_header b)) in
  let front := pak_header_t.encode (pak_builder.build_header b)
               ++ concat (map pak_file_t.encode (listing_entries c (pak_builder.m_files b))) in
  exists ok content,
    pak_builder.write can_create file garbage (b, fs)
    = Ret ok (pak_builder.mk (assign_offsets c (pak_builder.m_files b)),
              <[file := content]> fs) /\
    forall K : nat, (K <= length front)%nat ->
      Forall (fun f => Z.of_nat K <= pak_builder.file_t.offset f)
        (assign_offsets c (pak_builder.m_files b)) ->
      take K content = take K front /\ (K <= length content)%nat.
Proof.
  intros Hc c front. unfold pak_builder.write. rewrite Hc. cbn [negb].
  rewrite write_layout_spec by apply lookup_insert_eq. rewrite insert_insert_eq.
  fold c. fold front. cbn [pak_builder.m_files].
  destruct (write_data_shape garbage file (assign_offsets c (pak_builder.m_files b))
              (<[file := front]> fs)
              (mkofstream file (12 + 64 * Z.of_nat (length (pak_builder.m_files b)))) front
              eq_refl (lookup_insert_eq _ _ _)) as (ok & old' & Hd & _ & Hk).
  rewrite Hd, insert_insert_eq. exists ok, old'. split; [reflexivity|exact Hk].
Qed.

(** The header survives pass 2 for every pending list. *)
Lemma write_header can_create file garbage b fs :
  can_create file = true ->
  sizes_ok (pak_builder.m_files b) -> total_size (pak_builder.m_files b) < 2 ^ 63 ->
  exists ok b' content,
    pak_builder.write can_create file garbage (b, fs) = Ret ok (b', <[file := content]> fs) /\
    pak_header_t.decode content = pak_builder.build_header b.
Proof.
  intros Hc Hok Htot.
  destruct (write_shape can_create file garbage b fs Hc) as (ok & content & Hw & Hk).
  pose proof (header_offset_ge b) as Hc12.
  pose proof (total_size_nonneg _ Hok) as Hn.
  set (c := to_size_t _) in *.
  destruct (Hk 12%nat) as [Ht Hl].
  - rewrite length_app, length_header_encode. lia.
  - eapply Forall_impl; [apply assign_offsets_ge; [exact Hok|lia|lia]|]. cbn. intros f Hf. lia.
  - exists ok, (pak_builder.mk (assign_offsets c (pak_builder.m_files b))), content.
    split; [exact Hw|].
    rewrite take_app_length' in Ht by (by rewrite length_header_encode).
    rewrite <- (take_drop 12 content), Ht.
    apply header_decode_encode.
    + apply length_strncpy.
    + cbn. unfold pak_header_t.sizeof. lia.
    + apply to_uint32_range.
Qed.

(** C7 (amended). Two writes of one pending list leave the same pending
    records, whatever the list.  When the sizes are those [add_file]
    accepts and 64 n fits 32 bits, [write] puts a header with table
    offset 12 and table size 64 n in front; it gives file [i] the data
    offset 12 + 64 n + s_0 + ... + s_(i-1) in the pending record, and
    writes that offset modulo 2^32 into entry [i] of the table, so the
    offset itself whenever it is below 2^32; and the header and the table
    are the same bytes in every write of the list. *)
Theorem write_layout_deterministic (can_create : string -> bool) (file : string)
  (garbage : list byte) (b : pak_builder.t) (fs : filesystem) :
  can_create file = true ->
  let n := Z.of_nat (length (pak_builder.m_files b)) in
  exists ok b' content,
    pak_builder.write can_create file garbage (b, fs) = Ret ok (b', <[file := content]> fs) /\
    (forall can_create2 file2 garbage2 (fs2 : filesystem) ok2 b2 fs2',
       can_create2 file2 = true ->
       pak_builder.write can_create2 file2 garbage2 (b, fs2) = Ret ok2 (b2, fs2') ->
       b2 = b') /\
    (sizes_32bit (pak_builder.m_files b) -> 64 * n < 2 ^ 32 ->
     pak_header_t.decode content = pak_header_t.mk PACK 12 (64 * n) /\
     (forall (i : nat) f, pak_builder.m_files b !! i = Some f ->
        let off := 12 + 64 * n + total_size (take i (pak_builder.m_files b)) in
        pak_builder.m_files b' !! i = Some (with_offset off f) /\
        pak_file_t.decode (take 64 (drop (12 + 64 * i) content))
        = pak_file_t.mk (strncpy (pak_builder.file_t.pak_path f) 56) (off mod 2 ^ 32)
            (pak_builder.file_t.size f) /\
        (off < 2 ^ 32 ->
         pak_file_t.offset (pak_file_t.decode (take 64 (drop (12 + 64 * i) content))) = off)) /\
     (forall can_create2 garbage2 (fs2 : filesystem) ok2 b2 fs2',
        can_create2 file = true ->
        pak_builder.write can_create2 file garbage2 (b, fs2) = Ret ok2 (b2, fs2') ->
        take (Z.to_nat (12 + 64 * n)) (file_bytes fs2' file)
        = take (Z.to_nat (12 + 64 * n)) content)).
Proof.
  intros Hc n.
  destruct (write_shape can_create file garbage b fs Hc) as (ok & content & Hw & Hk).
  set (c := to_size_t _) in *.
  exists ok, (pak_builder.mk (assign_offsets c (pak_builder.m_files b))), content.
  split; [exact Hw|]. split.
  { intros can_create2 file2 garbage2 fs2 ok2 b2 fs2' Hc2 H2.
    exact (write_pending _ _ _ _ _ _ _ _ H2 Hc2). }
  intros H32 Hn64.
  assert (Hn0 : 0 <= n) by apply Nat2Z.is_nonneg.
  pose proof (sizes_32bit_ok _ H32) as Hok.
  pose proof (total_size_bound _ H32) as Htot. fold n in Htot. unfold UINT32_MAX in Htot.
  assert (Hcv : c = 12 + 64 * n).
  { subst c. rewrite build_header_small by (fold n; lia). fold n.
    cbn [pak_header_t.size]. unfold pak_header_t.sizeof. apply to_size_t_small. lia. }
  set (H := pak_header_t.encode (pak_header_t.mk PACK 12 (64 * n))).
  set (T := concat (map pak_file_t.encode
                      (listing_entries (12 + 64 * n) (pak_builder.m_files b)))).
  assert (HlenHT : length (H ++ T) = Z.to_nat (12 + 64 * n)).
  { subst H T. rewrite length_app, length_header_encode, length_concat_entries,
      length_listing_entries. lia. }
  assert (Hfront : forall can_create2 garbage2 (fs2 : filesystem) ok2 b2 fs2',
            can_create2 file = true ->
            pak_builder.write can_create2 file garbage2 (b, fs2) = Ret ok2 (b2, fs2') ->
            file_bytes fs2' file
            = (H ++ T) ++ drop (Z.to_nat (12 + 64 * n)) (file_bytes fs2' file)).
  { intros can_create2 garbage2 fs2 ok2 b2 fs2' Hc2 H2.
    destruct (write_shape can_create2 file garbage2 b fs2 Hc2) as (ok' & content2 & Hw2 & Hk2).
    fold c in Hw2, Hk2. rewrite Hw2 in H2. injection H2 as _ _ <-.
    rewrite file_bytes_insert_eq.
    rewrite build_header_small in Hk2 by (fold n; lia). fold n in Hk2. rewrite Hcv in Hk2.
    fold H T in Hk2.
    destruct (Hk2 (length (H ++ T)) (Nat.le_refl _)) as [Ht _].
    { rewrite HlenHT, Z2Nat.id by lia.
      apply assign_offsets_ge; [exact Hok|lia|lia]. }
    rewrite (take_ge (H ++ T)) in Ht by lia. rewrite <- HlenHT. rewrite <- Ht at 1.
    by rewrite take_drop. }
  pose proof (Hfront can_create garbage fs ok _ _ Hc Hw) as Hcontent.
  rewrite file_bytes_insert_eq in Hcontent.
  set (rest := drop (Z.to_nat (12 + 64 * n)) content) in *.
  split; [|split].
  - rewrite Hcontent, <- app_assoc. subst H.
    apply header_decode_encode;
      cbn [pak_header_t.id pak_header_t.offset pak_header_t.size]; [done|lia|lia].
  - intros i f Hi off.
    destruct (layout_lookup (pak_builder.m_files b) (12 + 64 * n) i f) as [H1 H2];
      [exact Hok|lia|lia|exact Hi|].
    fold off in H1, H2.
    pose proof (total_size_take i _ Hok) as Hti.
    pose proof (Forall_lookup_1 _ _ _ _ H32 Hi) as Hsz. cbn beta in Hsz.
    unfold UINT32_MAX in Hsz.
    assert (Hdec : pak_file_t.decode (take 64 (drop (12 + 64 * i) content))
                   = pak_builder.build_entry off f).
    { rewrite Hcontent, <- app_assoc.
      replace (12 + 64 * i)%nat with (length H + 64 * i)%nat
        by (subst H; rewrite length_header_encode; lia).
      rewrite drop_app_add. subst T. rewrite (table_record _ i _ rest H1).
      apply build_entry_wf. }
    split; [|split].
    + cbn [pak_builder.m_files]. rewrite Hcv. exact H2.
    + rewrite Hdec. unfold pak_builder.build_entry.
      rewrite (to_uint32_small (pak_builder.file_t.size f)) by lia. reflexivity.
    + intros Hoff. rewrite Hdec. cbn [pak_builder.build_entry pak_file_t.offset].
      apply to_uint32_small. subst off. lia.
  - intros can_create2 garbage2 fs2 ok2 b2 fs2' Hc2 H2.
    rewrite (Hfront can_create2 garbage2 fs2 ok2 b2 fs2' Hc2 H2), Hcontent.
    rewrite <- HlenHT. by rewrite !take_app_length.
Qed.

Lemma write_layout_deterministic_witness :
  exists ok b' content,
    pak_builder.write always "o.pak" [] (two_pending, disk2)
    = Ret ok (b', <["o.pak"%string := content]> disk2) /\
    pak_header_t.decode content = pak_header_t.mk PACK 12 128 /\
    pak_builder.file_t.offset <$> pak_builder.m_files b' !! 1%nat = Some 142 /\
    pak_file_t.offset (pak_file_t.decode (take 64 (drop (12 + 64 * 1) content))) = 142.
Proof.
  destruct (write_layout_deterministic always "o.pak" [] two_pending disk2)
    as (ok & b' & content & Hw & _ & Hlay).
  - reflexivity.
  - destruct Hlay as (Hh & He & _).
    + apply (bool_decide_unpack _). vm_compute. exact I.
    + vm_compute. reflexivity.
    + exists ok, b', content. split; [exact Hw|]. split; [exact Hh|].
      destruct (He 1%nat (pending disk2 ("b.txt", "dir/b.txt")%string)) as (Hp & _ & Ho).
      * vm_compute. reflexivity.
      * split; [by rewrite Hp|]. apply Ho. vm_compute. reflexivity.
Defined.

(** C7, as stated, fails once the layout leaves the 32-bit range.  For two
    pending files of 4 GiB - 1 bytes, [write] puts offset 139 into the
    second entry of the table, while 12 + 64 * 2 + s_0 is 4294967435.  For
    2^26 pending files the header that [write] leaves carries table size
    0, while 64 n is 2^32. *)
Lemma write_layout_counterexample :
  ((fun st : pak_builder.t * filesystem =>
      pak_file_t.offset
        (pak_file_t.decode (take 64 (drop (12 + 64 * 1) (file_bytes (snd st) "o.pak")))))
   <$> final_state (pak_builder.write always "o.pak" [] (two_huge, ∅)) = Some 139 /\
   12 + 64 * 2 + total_size (take 1 (pak_builder.m_files two_huge)) = 4294967435) /\
  ((exists ok b' content,
      pak_builder.write always "o.pak" [] (pak_builder.mk many_empty, ∅)
      = Ret ok (b', <["o.pak"%string := content]> ∅) /\
      pak_header_t.size (pak_header_t.decode content) = 0) /\
   64 * Z.of_nat (length many_empty) = 4294967296).
Proof.
  split; [split; vm_compute; reflexivity|]. split.
  - assert (Hsz : total_size many_empty = 0).
    { unfold many_empty. generalize (Z.to_nat 67108864).
      intros k. induction k as [|k IH]; [reflexivity|].
      cbn [replicate total_size foldr pak_builder.file_t.size]. fold (total_size
        (replicate k (pak_builder.file_t.mk "e" (zeros 57) 0 0))). rewrite IH. reflexivity. }
    destruct (write_header always "o.pak" [] (pak_builder.mk many_empty) ∅ eq_refl)
      as (ok & b' & content & Hw & Hd).
    + unfold many_empty. apply Forall_replicate. cbn. lia.
    + cbn [pak_builder.m_files]. rewrite Hsz. lia.
    + exists ok, b', content. split; [exact Hw|]. rewrite Hd.
      unfold pak_builder.build_header, many_empty.
      cbn [pak_header_t.size pak_builder.m_files].
      rewrite length_replicate, Z2Nat.id by lia. reflexivity.
  - unfold many_empty. rewrite length_replicate, Z2Nat.id by lia. reflexivity.
Qed.

(** ** C1: the round trip *)

(** [write] when the table size fits 32 bits and the sizes add up to less
    than 2^63: offsets beyond 2^32 are cut in the table, not in the data. *)
Lemma write_spec_wide can_create file garbage b fs :
  can_create file = true ->
  sources_present fs file (pak_builder.m_files b) ->
  let n := Z.of_nat (length (pak_builder.m_files b)) in
  64 * n < 2 ^ 32 -> archive_size (pak_builder.m_files b) < 2 ^ 63 ->
  pak_builder.write can_create file garbage (b, fs)
  = Ret true
      (pak_builder.mk (assign_offsets (12 + 64 * n) (pak_builder.m_files b)),
       <[file := pak_header_t.encode (pak_header_t.mk PACK 12 (64 * n))
                 ++ concat (map pak_file_t.encode
                              (listing_entries (12 + 64 * n) (pak_builder.m_files b)))
                 ++ concat (sources fs (pak_builder.m_files b))]> fs).
Proof.
  intros Hc Hsrc n Hn64 Hfit. unfold archive_size in Hfit. fold n in Hfit.
  assert (Hn0 : 0 <= n) by apply Nat2Z.is_nonneg.
  pose proof (sources_present_sizes_ok _ _ _ Hsrc) as Hok.
  pose proof (total_size_nonneg _ Hok) as Hn.
  unfold pak_builder.write. rewrite Hc. cbn [negb].
  rewrite write_layout_spec by apply lookup_insert_eq.
  rewrite build_header_small by (fold n; lia). fold n.
  cbn [pak_header_t.size pak_builder.m_files]. unfold pak_header_t.sizeof.
  rewrite to_size_t_small by lia. rewrite insert_insert_eq.
  set (H := pak_header_t.encode _).
  set (T := concat (map pak_file_t.encode _)).
  assert (Hlen : Z.of_nat (length (H ++ T)) = 12 + 64 * n).
  { subst H T. rewrite length_app, length_header_encode, length_concat_entries,
      length_listing_entries. lia. }
  rewrite <- Hlen.
  rewrite (write_data_spec garbage file _ _ _ (H ++ T)).
  - rewrite insert_insert_eq, sources_insert by done. by rewrite <- app_assoc.
  - done.
  - apply lookup_insert_eq.
  - by apply sources_present_insert.
  - lia.
Qed.

Lemma pending_sizes_32bit fs inputs :
  Forall (registrable fs) inputs -> sizes_32bit (map (pending fs) inputs).
Proof.
  intros H. apply Forall_fmap. eapply Forall_impl; [exact H|].
  intros input (_ & data & Hd & Hsz). cbn [compose pending pak_builder.file_t.size].
  rewrite (file_bytes_Some _ _ _ Hd). lia.
Qed.

Lemma total_size_take_mono files (i j : nat) :
  sizes_ok files -> (i <= j)%nat -> total_size (take i files) <= total_size (take j files).
Proof.
  intros Hok Hij. replace (take i files) with (take i (take j files))
    by (rewrite take_take; f_equal; lia).
  apply total_size_take. by apply sizes_ok_take.
Qed.

(** Every offset of the table is at most the last one. *)
Lemma last_offset_bound files (i : nat) f :
  sizes_ok files -> files !! i = Some f ->
  12 + 64 * Z.of_nat (length files) + total_size (take i files) <= last_offset files.
Proof.
  intros Hok Hi. apply lookup_lt_Some in Hi. unfold last_offset.
  pose proof (total_size_take_mono files i (length files - 1) Hok ltac:(lia)). lia.
Qed.

(** Build, open, extract, with offsets as the table holds them: cut to 32
    bits. *)
Lemma roundtrip_wide (can_create : string -> bool) (fs : filesystem)
  (inputs : list (string * string)) (pak : string) (garbage : list byte) :
  inputs <> [] ->
  Forall (registrable fs) inputs ->
  Forall (fun input => nul_free (snd input) /\ fst input <> pak) inputs ->
  64 * Z.of_nat (length inputs) < 2 ^ 32 ->
  can_create pak = true ->
  let files := map (pending fs) inputs in
  let n := Z.of_nat (length inputs) in
  let data := pak_header_t.encode (pak_header_t.mk PACK 12 (64 * n))
              ++ concat (map pak_file_t.encode (listing_entries (12 + 64 * n) files))
              ++ concat (sources fs files) in
  exists a,
    add_files fs inputs pak_builder.init = Ret true (pak_builder.mk files) /\
    pak_builder.write can_create pak garbage (pak_builder.mk files, fs)
    = Ret true (pak_builder.mk (assign_offsets (12 + 64 * n) files), <[pak := data]> fs) /\
    pak_archive.open (<[pak := data]> fs) pak pak_archive.init = Ret true a /\
    pak_archive.file_count a = n /\
    a = pak_archive.set_m_file (stream (mkFILE pak (12 + 64 * n))) a /\
    forall (i : nat) disk_path name,
      inputs !! i = Some (disk_path, name) ->
      (forall (j : nat) input, inputs !! j = Some input -> (j < i)%nat -> snd input <> name) ->
      forall out garbage' pos (fs2 : filesystem),
        can_create out = true -> out <> pak -> fs2 !! pak = Some data ->
        let off := to_uint32 (12 + 64 * n + total_size (take i files)) in
        let sz := Z.of_nat (length (file_bytes fs disk_path)) in
        pak_archive.extract_file can_create name out garbage'
          (pak_archive.set_m_file (stream (mkFILE pak pos)) a, fs2)
        = Ret true (pak_archive.set_m_file (stream (mkFILE pak (off + sz))) a,
                    <[out := take (Z.to_nat sz) (drop (Z.to_nat off) data)]> fs2).
Proof.
  intros Hne Hreg Hnames Hn64 Hc files n data. fold n in Hn64.
  assert (Hlenf : length files = length inputs) by apply length_map.
  assert (Hsrc : sources_present fs pak files).
  { apply sources_present_pending; [done|].
    eapply Forall_impl; [exact Hnames|]. by intros ? [_ ?]. }
  pose proof (pending_sizes_32bit fs inputs Hreg) as H32. fold files in H32.
  pose proof (sizes_32bit_ok _ H32) as Hok.
  pose proof (total_size_bound _ H32) as Htot. rewrite Hlenf in Htot. fold n in Htot.
  unfold UINT32_MAX in Htot.
  assert (Hpos : 0 < n) by (subst n; destruct inputs; [done|cbn; lia]).
  set (es := listing_entries (12 + 64 * n) files) in *.
  assert (Hlene : length es = length inputs).
  { subst es. by rewrite length_listing_entries. }
  assert (Hlend : Z.of_nat (length data) = 12 + 64 * n + total_size files).
  { subst data. rewrite !length_app, length_header_encode, length_concat_entries, Hlene.
    rewrite (total_size_sources fs pak files Hsrc). lia. }
  exists (pak_archive.mk (stream (mkFILE pak (12 + 64 * n))) (Z.of_nat (length data)) es
            NoError (pak_archive.populate 0 es ∅)).
  split; [|split; [|split; [|split; [|split; [reflexivity|]]]]].
  - by rewrite add_files_spec.
  - pose proof (write_spec_wide can_create pak garbage (pak_builder.mk files) fs Hc Hsrc) as Hw.
    cbv zeta in Hw. cbn [pak_builder.m_files] in Hw. rewrite Hlenf in Hw. fold n es in Hw.
    apply Hw; [lia|]. unfold archive_size. rewrite Hlenf. fold n. lia.
  - pose proof (open_archive (<[pak := data]> fs) pak pak_archive.init es
                  (concat (sources fs files))) as Hopen.
    cbv zeta in Hopen. rewrite Hlene in Hopen. fold n in Hopen. fold data in Hopen.
    apply Hopen.
    + discriminate.
    + intros Hnil. rewrite Hnil in Hlene. cbn in Hlene. lia.
    + lia.
    + apply listing_entries_wf.
    + apply lookup_insert_eq.
  - unfold pak_archive.file_count. cbn [pak_archive.m_files]. rewrite Hlene.
    apply to_int_small. fold n. lia.
  - intros i d nm Hi Hfirst out garbage' pos fs2 Hcout Hout Hfs2 off sz.
    assert (Hfi : files !! i = Some (pending fs (d, nm))).
    { subst files. by rewrite list_lookup_fmap, Hi. }
    set (f := pending fs (d, nm)) in *.
    destruct (layout_lookup files (12 + 64 * n) i f Hok ltac:(lia) ltac:(lia) Hfi) as [Hei _].
    fold es in Hei.
    pose proof (total_size_take i files Hok) as Hti.
    pose proof (total_size_take_S files i f Hok Hfi) as HtS.
    pose proof (Forall_lookup_1 _ _ _ _ H32 Hfi) as Hsz. cbn beta in Hsz.
    unfold UINT32_MAX in Hsz.
    change (pak_builder.file_t.size f) with sz in Hsz, HtS.
    assert (Hregi : registrable fs (d, nm)) by exact (Forall_lookup_1 _ _ _ _ Hreg Hi).
    assert (Hnami : nul_free nm) by exact (proj1 (Forall_lookup_1 _ _ _ _ Hnames Hi)).
    assert (Hidx : pak_archive.populate 0 es ∅ !! nm = Some i).
    { rewrite populate_lookup, lookup_empty.
      assert (Hfn : first_named nm es = Some i); [|by rewrite Hfn].
      apply first_named_Some. eexists. split; [exact Hei|]. split.
      - apply (entry_name_pending fs _ (d, nm)); [apply Hregi|exact Hnami].
      - intros j e' Hej Hji.
        destruct (lookup_lt_is_Some_2 inputs j) as [input Hj].
        { apply lookup_lt_Some in Hi. lia. }
        assert (Hfj : files !! j = Some (pending fs input)).
        { subst files. by rewrite list_lookup_fmap, Hj. }
        destruct (layout_lookup files (12 + 64 * n) j _ Hok ltac:(lia) ltac:(lia) Hfj)
          as [Hej' _].
        fold es in Hej'. rewrite Hej in Hej'. inversion Hej' as [He']; subst e'.
        rewrite entry_name_pending.
        + by apply (Hfirst j).
        + exact (proj1 (Forall_lookup_1 _ _ _ _ Hreg Hj)).
        + exact (proj1 (Forall_lookup_1 _ _ _ _ Hnames Hj)). }
    pose proof (to_uint32_range (12 + 64 * n + total_size (take i files))) as Hoff.
    assert (Hle : off <= 12 + 64 * n + total_size (take i files)).
    { subst off. unfold to_uint32. apply Z.mod_le; lia. }
    fold off in Hoff.
    rewrite (extract_file_spec can_create fs2 _ nm out garbage' i
               (pak_builder.build_entry (12 + 64 * n + total_size (take i files)) f)
               pak pos data);
      cbn [pak_archive.m_lookupMap pak_archive.m_files pak_archive.m_file
           pak_archive.set_m_file pak_builder.build_entry pak_file_t.offset pak_file_t.size];
      fold off; change (pak_builder.file_t.size f) with sz;
      rewrite ?(to_uint32_small sz) by lia; try done; try lia.
Qed.

(** C1 (amended). Take a non-empty list of (source, name) pairs whose
    sources exist and have at most [UINT32_MAX] bytes, whose names are
    NUL-free and at most 56 bytes long, and whose last file starts below
    4 GiB (12 + 64 n + s_0 + ... + s_(n-2) < 2^32), so that every offset
    fits its 32-bit field.  Registering them with [add_file], writing with
    [write] to a creatable path that is none of the sources, and opening
    the result with [open] all succeed, [file_count] is the number of
    pairs, and extracting the name of a pair that is the first one
    registered under that name, to any creatable path other than the
    archive, succeeds and leaves there exactly the bytes of that pair's
    source.  This holds wherever the cursor of the reader stands and
    whatever else the disk holds, so the names can be extracted one after
    the other. *)
Theorem build_open_extract_roundtrip (can_create : string -> bool) (fs : filesystem)
  (inputs : list (string * string)) (pak : string) (garbage : list byte) :
  inputs <> [] ->
  Forall (registrable fs) inputs ->
  Forall (fun input => nul_free (snd input) /\ fst input <> pak) inputs ->
  last_offset (map (pending fs) inputs) < 2 ^ 32 ->
  can_create pak = true ->
  exists b b' fs1 a,
    add_files fs inputs pak_builder.init = Ret true b /\
    pak_builder.write can_create pak garbage (b, fs) = Ret true (b', fs1) /\
    pak_archive.open fs1 pak pak_archive.init = Ret true a /\
    pak_archive.file_count a = Z.of_nat (length inputs) /\
    forall (i : nat) disk_path name,
      inputs !! i = Some (disk_path, name) ->
      (forall (j : nat) input, inputs !! j = Some input -> (j < i)%nat -> snd input <> name) ->
      forall out garbage' pos (fs2 : filesystem),
        can_create out = true -> out <> pak -> fs2 !! pak = fs1 !! pak ->
        exists pos',
          pak_archive.extract_file can_create name out garbage'
            (pak_archive.set_m_file (stream (mkFILE pak pos)) a, fs2)
          = Ret true (pak_archive.set_m_file (stream (mkFILE pak pos')) a,
                      <[out := file_bytes fs disk_path]> fs2).
Proof.
  intros Hne Hreg Hnames Hfit Hc.
  set (files := map (pending fs) inputs) in *.
  set (n := Z.of_nat (length inputs)).
  assert (Hlenf : length files = length inputs) by apply length_map.
  assert (Hsrc : sources_present fs pak files).
  { apply sources_present_pending; [done|].
    eapply Forall_impl; [exact Hnames|]. by intros ? [_ ?]. }
  pose proof (sources_present_sizes_ok _ _ _ Hsrc) as Hok.
  assert (Hpos : 0 < n) by (subst n; destruct inputs; [done|cbn; lia]).
  assert (Hn64 : 64 * n < 2 ^ 32).
  { pose proof (total_size_take (length files - 1) files Hok) as Ht.
    unfold last_offset in Hfit. rewrite Hlenf in Hfit, Ht. fold n in Hfit. lia. }
  destruct (roundtrip_wide can_create fs inputs pak garbage Hne Hreg Hnames Hn64 Hc)
    as (a & Hadd & Hw & Hopen & Hcount & _ & Hx).
  fold files n in Hadd, Hw, Hopen, Hcount, Hx.
  set (data := pak_header_t.encode _ ++ _) in *.
  exists (pak_builder.mk files), (pak_builder.mk (assign_offsets (12 + 64 * n) files)),
         (<[pak := data]> fs), a.
  split; [exact Hadd|]. split; [exact Hw|]. split; [exact Hopen|]. split; [exact Hcount|].
  intros i d nm Hi Hfirst out garbage' pos fs2 Hcout Hout Hfs2.
  rewrite lookup_insert_eq in Hfs2.
  assert (Hfi : files !! i = Some (pending fs (d, nm))).
  { subst files. by rewrite list_lookup_fmap, Hi. }
  pose proof (last_offset_bound files i _ Hok Hfi) as Hlast. rewrite Hlenf in Hlast.
  fold n in Hlast.
  pose proof (total_size_take i files Hok) as Hti.
  eexists.
  rewrite (Hx i d nm Hi Hfirst out garbage' pos fs2 Hcout Hout Hfs2).
  rewrite (to_uint32_small (12 + 64 * n + total_size (take i files))) by lia.
  do 2 f_equal. f_equal.
  subst data. rewrite app_assoc.
  set (front := pak_header_t.encode _ ++ concat _).
  assert (Hfront : Z.of_nat (length front) = 12 + 64 * n).
  { subst front. rewrite length_app, length_header_encode, length_concat_entries,
      length_listing_entries, Hlenf. fold n. lia. }
  rewrite <- Hfront.
  apply (archive_data_at fs pak files i _ front Hsrc Hfi).
Qed.

Lemma build_open_extract_roundtrip_witness :
  exists b b' fs1 a,
    add_files disk2 inputs2 pak_builder.init = Ret true b /\
    pak_builder.write always "o.pak" [] (b, disk2) = Ret true (b', fs1) /\
    pak_archive.open fs1 "o.pak" pak_archive.init = Ret true a /\
    pak_archive.file_count a = 2 /\
    exists pos',
      pak_archive.extract_file always "dir/b.txt" "out" []
        (pak_archive.set_m_file (stream (mkFILE "o.pak" 0)) a, fs1)
      = Ret true (pak_archive.set_m_file (stream (mkFILE "o.pak" pos')) a,
                  <["out"%string := file_bytes disk2 "b.txt"]> fs1).
Proof.
  assert (H1 : inputs2 <> []) by discriminate.
  assert (H2 : Forall (registrable disk2) inputs2).
  { unfold inputs2. apply Forall_cons_2; [|apply Forall_cons_2; [|apply Forall_nil_2]].
    - split; [vm_compute; discriminate|]. exists [x68; x69].
      split; [reflexivity|vm_compute; discriminate].
    - split; [vm_compute; discriminate|]. exists [x79; x6f; x75].
      split; [reflexivity|vm_compute; discriminate]. }
  assert (H3 : Forall (fun input => nul_free (snd input) /\ fst input <> "o.pak"%string) inputs2).
  { unfold inputs2. apply Forall_cons_2; [|apply Forall_cons_2; [|apply Forall_nil_2]].
    - split; [solve_nul_free|discriminate].
    - split; [solve_nul_free|discriminate]. }
  assert (H4 : last_offset (map (pending disk2) inputs2) < 2 ^ 32)
    by (vm_compute; reflexivity).
  assert (H5 : always "o.pak" = true) by reflexivity.
  destruct (build_open_extract_roundtrip always disk2 inputs2 "o.pak" [] H1 H2 H3 H4 H5)
    as (b & b' & fs1 & a & Ha & Hw & Ho & Hc & Hx).
  exists b, b', fs1, a.
  split; [exact Ha|]. split; [exact Hw|]. split; [exact Ho|]. split; [exact Hc|].
  assert (Hfirst : forall (j : nat) (input : string * string),
            inputs2 !! j = Some input -> (j < 1)%nat -> snd input <> "dir/b.txt"%string).
  { intros [|j] input Hj Hlt; [|lia]. inversion Hj. discriminate. }
  assert (Hne : "out"%string <> "o.pak"%string) by discriminate.
  exact (Hx 1%nat "b.txt"%string "dir/b.txt"%string eq_refl Hfirst
           "out"%string [] 0 fs1 eq_refl Hne eq_refl).
Defined.

(** When the second of two files starts at offset 2^32, its table entry
    says offset 0, and extracting it yields the first bytes of the
    archive. *)
Lemma offset_wrap (big : list byte) :
  Z.of_nat (length big) = 4294967156 ->
  exists b b' fs1 a a',
    add_files (wrap_disk_of big) wrap_inputs pak_builder.init = Ret true b /\
    pak_builder.write always "w.pak" [] (b, wrap_disk_of big) = Ret true (b', fs1) /\
    pak_archive.open fs1 "w.pak" pak_archive.init = Ret true a /\
    pak_archive.file_count a = 2 /\
    pak_archive.extract_file always "b.txt" "out" [] (a, fs1)
    = Ret true (a', <["out"%string := [x50; x41; x43]]> fs1).
Proof.
  intros Hbig. set (fs := wrap_disk_of big).
  assert (Hb : fs !! "big.bin"%string = Some big) by apply lookup_insert_eq.
  assert (Hs : fs !! "b.txt"%string = Some [x79; x6f; x75]).
  { subst fs. unfold wrap_disk_of. rewrite lookup_insert_ne by discriminate. reflexivity. }
  assert (H1 : wrap_inputs <> []) by discriminate.
  assert (H2 : Forall (registrable fs) wrap_inputs).
  { unfold wrap_inputs. apply Forall_cons_2; [|apply Forall_cons_2; [|apply Forall_nil_2]].
    - split; [vm_compute; discriminate|]. exists big. split; [exact Hb|].
      unfold UINT32_MAX. lia.
    - split; [vm_compute; discriminate|]. exists [x79; x6f; x75].
      split; [exact Hs|vm_compute; discriminate]. }
  assert (H3 : Forall (fun input => nul_free (snd input) /\ fst input <> "w.pak"%string)
                 wrap_inputs).
  { unfold wrap_inputs. apply Forall_cons_2; [|apply Forall_cons_2; [|apply Forall_nil_2]].
    - split; [solve_nul_free|discriminate].
    - split; [solve_nul_free|discriminate]. }
  assert (H4 : 64 * Z.of_nat (length wrap_inputs) < 2 ^ 32) by (vm_compute; reflexivity).
  destruct (roundtrip_wide always fs wrap_inputs "w.pak" [] H1 H2 H3 H4 eq_refl)
    as (a & Ha & Hw & Ho & Hc & Hcur & Hx).
  assert (Hfirst : forall (j : nat) (input : string * string),
            wrap_inputs !! j = Some input -> (j < 1)%nat -> snd input <> "b.txt"%string).
  { intros [|j] input Hj Hlt; [|lia]. inversion Hj. discriminate. }
  assert (Hne : "out"%string <> "w.pak"%string) by discriminate.
  match type of Hw with
  | _ = Ret true (_, ?fs1) =>
    pose proof (Hx 1%nat "b.txt"%string "b.txt"%string eq_refl Hfirst "out"%string []
                  (12 + 64 * Z.of_nat (length wrap_inputs)) fs1 eq_refl Hne
                  (lookup_insert_eq _ _ _)) as Hout
  end.
  cbv zeta in Hout. rewrite <- Hcur in Hout.
  assert (Hsz : Z.of_nat (length (file_bytes fs "b.txt")) = 3)
    by (by rewrite (file_bytes_Some _ _ _ Hs)).
  assert (Htot : total_size (take 1 (map (pending fs) wrap_inputs)) = 4294967156).
  { unfold wrap_inputs.
    cbn [map take total_size foldr pending fst snd pak_builder.file_t.size].
    rewrite (file_bytes_Some _ _ _ Hb), Hbig. reflexivity. }
  rewrite Hsz, Htot in Hout.
  change (Z.of_nat (length wrap_inputs)) with 2 in Hout.
  change (to_uint32 (12 + 64 * 2 + 4294967156)) with 0 in Hout.
  change (Z.to_nat 3) with 3%nat in Hout. change (Z.to_nat 0) with 0%nat in Hout.
  rewrite drop_0 in Hout.
  assert (Hhdr : pak_header_t.encode (pak_header_t.mk PACK 12 (64 * 2))
                 = [x50; x41; x43; x4b; x0c; x00; x00; x00; x80; x00; x00; x00])
    by (vm_compute; reflexivity).
  rewrite Hhdr in Hout. cbn [app take] in Hout.
  eexists _, _, _, a, _. split; [exact Ha|]. split; [exact Hw|]. split; [exact Ho|].
  split; [exact Hc|exact Hout].
Qed.

(** C1, as stated, fails on these inputs.  Two files registered under one
    name: everything succeeds, but extracting the name yields the bytes of
    the first file ("hi"), so the second file ("you") is not reproduced.
    No file at all: [write] succeeds and [open] throws.  A name with an
    embedded NUL: the entry is stored under the name cut at the NUL, and
    extracting the registered name fails.  A file of 2^32 - 140 bytes
    followed by the file "you", both smaller than 4 GiB: the second file
    starts at offset 2^32, its entry says 0, and extracting it yields
    "PAC".  A source that is the archive path itself: it is truncated
    before it is read, and extracting it yields "PA" for "hi".  An
    extraction onto the archive path: the archive is truncated before it
    is read, and what is left there are not the bytes of the file. *)
Lemma roundtrip_counterexample :
  (add_files disk2 [("a.txt", "x"); ("b.txt", "x")]%string pak_builder.init
   = Ret true same_name_pending /\
   returned (pak_builder.write always "x.pak" [] (same_name_pending, disk2)) = Some true /\
   pak_archive.open same_name_disk "x.pak" pak_archive.init = Ret true same_name_opened /\
   (fun st : pak_archive.t * filesystem => snd st !! "out"%string)
     <$> final_state (pak_archive.extract_file always "x" "out" []
                        (same_name_opened, same_name_disk))
   = Some (Some [x68; x69]) /\
   disk2 !! "b.txt"%string = Some [x79; x6f; x75]) /\
  (pak_builder.write always "empty.pak" [] (pak_builder.init, ∅)
   = Ret true (pak_builder.init, {[ "empty.pak"%string := empty_pak ]}) /\
   exists a, pak_archive.open {[ "empty.pak"%string := empty_pak ]} "empty.pak" pak_archive.init
             = Exn out_of_range a) /\
  (returned (add_files disk2 [("a.txt"%string, name_with_nul)] pak_builder.init) = Some true /\
   exists a, pak_archive.open nul_name_disk "n.pak" pak_archive.init = Ret true a /\
             pak_archive.enumerate a = Some [("a"%string, pak_file_details_t.mk 76 2)] /\
             pak_archive.extract_file always name_with_nul "out" [] (a, nul_name_disk)
             = Ret false (a, nul_name_disk)) /\
  (Z.of_nat (length wrap_big) = 4294967156 /\
   wrap_disk_of wrap_big !! "b.txt"%string = Some [x79; x6f; x75] /\
   exists b b' fs1 a a',
     add_files (wrap_disk_of wrap_big) wrap_inputs pak_builder.init = Ret true b /\
     pak_builder.write always "w.pak" [] (b, wrap_disk_of wrap_big) = Ret true (b', fs1) /\
     pak_archive.open fs1 "w.pak" pak_archive.init = Ret true a /\
     pak_archive.file_count a = 2 /\
     pak_archive.extract_file always "b.txt" "out" [] (a, fs1)
     = Ret true (a', <["out"%string := [x50; x41; x43]]> fs1)) /\
  (add_files self_disk [("o.pak", "x")]%string pak_builder.init = Ret true self_pending /\
   returned (pak_builder.write always "o.pak" [] (self_pending, self_disk)) = Some true /\
   pak_archive.open self_built "o.pak" pak_archive.init = Ret true self_opened /\
   (fun st : pak_archive.t * filesystem => snd st !! "out"%string)
     <$> final_state (pak_archive.extract_file always "x" "out" [] (self_opened, self_built))
   = Some (Some [x50; x41]) /\
   self_disk !! "o.pak"%string = Some [x68; x69]) /\
  ((fun st : pak_archive.t * filesystem => snd st !! "o.pak"%string)
     <$> final_state (pak_archive.extract_file always "a.txt" "o.pak" [] (opened, built_disk))
   = Some (Some [x00; x00]) /\
   disk2 !! "a.txt"%string = Some [x68; x69]).
Proof.
  split; [|split; [|split; [|split; [|split]]]].
  - split; [vm_compute; reflexivity|]. split; [vm_compute; reflexivity|].
    split; [vm_compute; reflexivity|]. split; vm_compute; reflexivity.
  - split; [vm_compute; reflexivity|]. eexists. vm_compute. reflexivity.
  - split; [vm_compute; reflexivity|].
    exists (pak_archive.mk (stream (mkFILE "n.pak" 76)) 78
              [pak_file_t.mk (strncpy [x61] 56) 76 2] NoError {[ "a"%string := 0%nat ]}).
    split; [vm_compute; reflexivity|]. split; vm_compute; reflexivity.
  - assert (Hbig : Z.of_nat (length wrap_big) = 4294967156).
    { unfold wrap_big. rewrite length_replicate. apply Z2Nat.id. lia. }
    split; [exact Hbig|]. split.
    + unfold wrap_disk_of. rewrite lookup_insert_ne by discriminate. reflexivity.
    + exact (offset_wrap wrap_big Hbig).
  - split; [vm_compute; reflexivity|]. split; [vm_compute; reflexivity|].
    split; [vm_compute; reflexivity|]. split; vm_compute; reflexivity.
  - split; vm_compute; reflexivity.
Qed.

(** * Further properties *)

(** ** The reader: when [open] succeeds *)

Lemma magic_ok_PACK hdr : pak_archive.magic_ok hdr = true <-> pak_header_t.id hdr = PACK.
Proof.
  unfold pak_archive.magic_ok, PACK. split.
  - destruct (pak_header_t.id hdr) as [|b0 [|b1 [|b2 [|b3 [|? ?]]]]]; try discriminate.
    intros H. apply andb_prop in H as [H H3]. apply andb_prop in H as [H H2].
    apply andb_prop in H as [H0 H1].
    apply Byte.byte_dec_bl in H0, H1, H2, H3. by subst.
  - intros ->. reflexivity.
Qed.

Lemma header_fields_range data :
  0 <= pak_header_t.offset (pak_header_t.decode data) < 2 ^ 32 /\
  0 <= pak_header_t.size (pak_header_t.decode data) < 2 ^ 32.
Proof. split; apply load_uint32_range. Qed.

(** The files that [open] turns down before it reads the table. *)
Lemma open_rejects (fs : filesystem) (path : string) (a : pak_archive.t) :
  pak_archive.m_file a <> closed_stream ->
  match fs !! path with
  | None => True
  | Some data =>
    Z.of_nat (length data) < 12 \/
    pak_archive.magic_ok (pak_header_t.decode (take 12 data)) = false
  end ->
  exists a', pak_archive.open fs path a = Ret false a'.
Proof.
  intros Hopen Hbad.
  assert (Hclose : pak_archive.close a
            = Ret tt (pak_archive.mk nullptr (pak_archive.m_fileSize a) []
                        (pak_archive.m_errno a) ∅)).
  { unfold pak_archive.close. by destruct (pak_archive.m_file a). }
  unfold pak_archive.open. rewrite Hclose. cbn [bind].
  destruct (fs !! path) as [data|] eqn:Hdata; [|by eexists].
  unfold pak_archive.set_m_file, pak_archive.set_m_fileSize, pak_archive.set_m_files,
    pak_archive.set_m_errno, pak_archive.set_m_lookupMap.
  cbn [pak_archive.m_file pak_archive.m_fileSize pak_archive.m_files pak_archive.m_errno
       pak_archive.m_lookupMap].
  unfold pak_header_t.sizeof.
  destruct (Z.ltb_spec (Z.of_nat (length data)) 12) as [Hshort|Hlen]; [by eexists|].
  destruct Hbad as [?|Hmagic]; [lia|].
  unfold fread at 1. cbn [f_path f_pos]. rewrite (file_bytes_Some _ _ _ Hdata).
  change (Z.to_nat 0) with 0%nat. rewrite drop_0. change (Z.to_nat 12) with 12%nat.
  rewrite Hmagic, orb_true_r. by eexists.
Qed.

(** X1. What [open] checks, on a reader without a stale stream pointer.
    Its result is defined and [true] exactly when the file exists, has at
    least 12 bytes, starts with PACK, and announces a table whose size is
    a positive multiple of 64 and which lies inside the file.  There is no
    alignment check: when the announced size is at least 64, not a
    multiple of 64, and the file holds more than 64 * (size / 64) bytes
    from the table offset on, the table is read past the end of the entry
    vector, which is undefined behaviour (a build may well return [true]
    then); these are the only files on which [open] is undefined.
    Nothing else is checked. *)
Theorem open_true_iff (fs : filesystem) (path : string) (a : pak_archive.t) :
  pak_archive.m_file a <> closed_stream ->
  ((exists a', pak_archive.open fs path a = Ret true a') <->
   exists data, fs !! path = Some data /\
     12 <= Z.of_nat (length data) /\
     let hdr := pak_header_t.decode (take 12 data) in
     pak_header_t.id hdr = PACK /\
     64 <= pak_header_t.size hdr /\ pak_header_t.size hdr mod 64 = 0 /\
     pak_header_t.offset hdr + pak_header_t.size hdr <= Z.of_nat (length data)) /\
  (pak_archive.open fs path a = UB <->
   exists data, fs !! path = Some data /\
     12 <= Z.of_nat (length data) /\
     let hdr := pak_header_t.decode (take 12 data) in
     pak_header_t.id hdr = PACK /\
     64 <= pak_header_t.size hdr /\ pak_header_t.size hdr mod 64 <> 0 /\
     pak_header_t.offset hdr + 64 * (pak_header_t.size hdr / 64) < Z.of_nat (length data)).
Proof.
  intros Hopen.
  destruct (fs !! path) as [data|] eqn:Hdata.
  2:{ destruct (open_rejects fs path a Hopen) as [a' Ha']; [by rewrite Hdata|].
      rewrite Ha'. split; (split; [|intros (data & Hd & _); discriminate Hd]).
      - intros [a2 H]. discriminate H.
      - intros H. discriminate H. }
  destruct (Z.ltb_spec (Z.of_nat (length data)) 12) as [Hshort|Hlen].
  { destruct (open_rejects fs path a Hopen) as [a' Ha']; [rewrite Hdata; by left|].
    rewrite Ha'. split; (split; [|intros (d & Hd & ? & _); injection Hd as <-; lia]).
    - intros [a2 H]. discriminate H.
    - intros H. discriminate H. }
  destruct (pak_archive.magic_ok (pak_header_t.decode (take 12 data))) eqn:Hmagic.
  2:{ destruct (open_rejects fs path a Hopen) as [a' Ha']; [rewrite Hdata; by right|].
      rewrite Ha'.
      split; (split; [|intros (d & Hd & _ & Hid & _); injection Hd as <-;
                       apply magic_ok_PACK in Hid; congruence]).
      - intros [a2 H]. discriminate H.
      - intros H. discriminate H. }
  rewrite (open_valid_header fs path a data Hopen Hdata Hlen Hmagic).
  assert (Hid : pak_header_t.id (pak_header_t.decode (take 12 data)) = PACK)
    by (by apply magic_ok_PACK).
  destruct (header_fields_range (take 12 data)) as [Ho Hs].
  remember (pak_header_t.decode (take 12 data)) as hdr eqn:Ehdr.
  pose proof (Z.div_mod (pak_header_t.size hdr) 64 ltac:(lia)) as Hdm.
  pose proof (Z.mod_pos_bound (pak_header_t.size hdr) 64 ltac:(lia)) as Hmb.
  remember (pak_header_t.size hdr / 64) as q eqn:Eq.
  assert (Hq : 0 <= q) by (subst q; apply Z.div_pos; lia).
  remember (take (Z.to_nat (pak_header_t.size hdr))
              (drop (Z.to_nat (pak_header_t.offset hdr)) data)) as got eqn:Egot.
  assert (Hgot : length got
                 = (Z.to_nat (pak_header_t.size hdr)
                    `min` (length data - Z.to_nat (pak_header_t.offset hdr)))%nat).
  { subst got. by rewrite length_take, length_drop. }
  assert (Hyes : (exists d, Some data = Some d /\ 12 <= Z.of_nat (length d) /\
               let h := pak_header_t.decode (take 12 d) in
               pak_header_t.id h = PACK /\ 64 <= pak_header_t.size h /\
               pak_header_t.size h mod 64 = 0 /\
               pak_header_t.offset h + pak_header_t.size h <= Z.of_nat (length d)) <->
            64 <= pak_header_t.size hdr /\ pak_header_t.size hdr mod 64 = 0 /\
            pak_header_t.offset hdr + pak_header_t.size hdr <= Z.of_nat (length data)).
  { split.
    - intros (d & Hd & _ & H). injection Hd as <-. cbv zeta in H. rewrite <- Ehdr in H. tauto.
    - intros H. exists data. cbv zeta. rewrite <- Ehdr. tauto. }
  assert (Hub : (exists d, Some data = Some d /\ 12 <= Z.of_nat (length d) /\
               let h := pak_header_t.decode (take 12 d) in
               pak_header_t.id h = PACK /\ 64 <= pak_header_t.size h /\
               pak_header_t.size h mod 64 <> 0 /\
               pak_header_t.offset h + 64 * (pak_header_t.size h / 64)
               < Z.of_nat (length d)) <->
            64 <= pak_header_t.size hdr /\ pak_header_t.size hdr mod 64 <> 0 /\
            pak_header_t.offset hdr + 64 * q < Z.of_nat (length data)).
  { split.
    - intros (d & Hd & _ & H). injection Hd as <-. cbv zeta in H.
      rewrite <- Ehdr, <- Eq in H. tauto.
    - intros H. exists data. cbv zeta. rewrite <- Ehdr, <- Eq. tauto. }
  rewrite Hyes, Hub. clear Hyes Hub.
  destruct (Z.to_nat q) as [|n'] eqn:En.
  { assert (q = 0) by lia.
    split; (split; [|intros (? & _); lia]).
    - intros [a2 H']. discriminate H'.
    - intros H'. discriminate H'. }
  assert (Hq1 : 1 <= q) by lia. rewrite <- En. clear En n'.
  destruct (Nat.ltb_spec (64 * Z.to_nat q) (length got)) as [Hover|Hfit].
  { split; split.
    - intros [a2 H']. discriminate H'.
    - intros (_ & Hmod & _). lia.
    - intros _. lia.
    - done. }
  destruct (Z.eqb_spec (Z.of_nat (length got)) (pak_header_t.size hdr)) as [Heq|Hneq].
  - split; split.
    + intros _. lia.
    + intros _. by eexists.
    + intros H'. discriminate H'.
    + intros (_ & Hmod & Hav). lia.
  - split; split.
    + intros [a2 H']. discriminate H'.
    + intros (? & Hmod & Hav). lia.
    + intros H'. discriminate H'.
    + intros (? & Hmod & Hav). lia.
Qed.

Lemma open_true_iff_witness :
  (exists a', pak_archive.open built_disk "o.pak" pak_archive.init = Ret true a') /\
  pak_archive.open bad_disk "long.pak" pak_archive.init = UB.
Proof.
  split.
  - apply (proj1 (open_true_iff built_disk "o.pak" pak_archive.init ltac:(discriminate))).
    eexists. split; [apply built_disk_bytes|]. split; [vm_compute; discriminate|].
    cbv zeta. split; [reflexivity|]. split; [vm_compute; discriminate|].
    split; [reflexivity|vm_compute; discriminate].
  - apply (proj2 (open_true_iff bad_disk "long.pak" pak_archive.init ltac:(discriminate))).
    exists overlong_pak. split; [reflexivity|]. split; [vm_compute; discriminate|].
    cbv zeta. split; [reflexivity|]. split; [vm_compute; discriminate|].
    split; [vm_compute; discriminate|vm_compute; reflexivity].
Defined.

(** X2. After a successful [open] the reader is good, reports no error
    and counts [table_size / 64] entries, at least one. *)
Theorem open_true_good (fs : filesystem) (path : string) (a0 a : pak_archive.t) :
  pak_archive.open fs path a0 = Ret true a ->
  pak_archive.good a = true /\ pak_archive.last_error a = NoError /\
  0 < pak_archive.file_count a /\
  exists data, fs !! path = Some data /\
    pak_archive.file_count a = pak_header_t.size (pak_header_t.decode (take 12 data)) / 64.
Proof.
  intros H. destruct (open_true_state _ _ _ _ H) as (data & Hdata & Hst).
  cbv zeta in Hst. destruct Hst as (Hsz & Hpos & Htab & ->).
  destruct (header_fields_range (take 12 data)) as [_ Hs].
  set (hdr := pak_header_t.decode (take 12 data)) in *.
  assert (Hn : 0 <= pak_header_t.size hdr / 64 < 2 ^ 26).
  { split; [apply Z.div_pos; lia|apply Z.div_lt_upper_bound; lia]. }
  unfold pak_archive.good, pak_archive.last_error, pak_archive.file_count.
  cbn [pak_archive.m_file pak_archive.m_errno pak_archive.m_files].
  rewrite length_vector_of_bytes, to_int_small by lia.
  split; [reflexivity|]. split; [reflexivity|]. split; [lia|].
  exists data. split; [exact Hdata|]. fold hdr. lia.
Qed.

Lemma open_true_good_witness :
  pak_archive.good opened = true /\ pak_archive.file_count opened = 2.
Proof.
  destruct (open_true_good built_disk "o.pak" pak_archive.init opened)
    as (Hg & _ & _ & data & Hdata & Hc).
  - vm_compute. reflexivity.
  - split; [exact Hg|]. rewrite Hc. rewrite built_disk_bytes in Hdata.
    injection Hdata as <-. vm_compute. reflexivity.
Defined.

(** X3. [open] reads the header and the table and nothing else: on a
    file with the same first 12 bytes and the same table bytes it succeeds
    with the same entries and index, whatever the data region holds (entry
    offsets and sizes are never compared with the file). *)
Theorem open_reads_header_and_table (fs fs2 : filesystem) (path path2 : string)
  (a0 a a2 : pak_archive.t) (data data2 : list byte) :
  pak_archive.open fs path a0 = Ret true a ->
  fs !! path = Some data -> fs2 !! path2 = Some data2 ->
  pak_archive.m_file a2 <> closed_stream ->
  take 12 data2 = take 12 data ->
  (let hdr := pak_header_t.decode (take 12 data) in
   take (Z.to_nat (pak_header_t.size hdr)) (drop (Z.to_nat (pak_header_t.offset hdr)) data2)
   = take (Z.to_nat (pak_header_t.size hdr)) (drop (Z.to_nat (pak_header_t.offset hdr)) data)) ->
  exists a', pak_archive.open fs2 path2 a2 = Ret true a' /\ same_entries a a'.
Proof.
  intros H Hdata Hdata2 Hopen2 Hhdr Htab. cbv zeta in Htab.
  destruct (open_true_inv _ _ _ _ H) as (_ & d & Hd & Hlen & Hmagic).
  rewrite Hdata in Hd. injection Hd as <-.
  destruct (open_true_state _ _ _ _ H) as (d & Hd & Hst).
  rewrite Hdata in Hd. injection Hd as <-.
  cbv zeta in Hst. destruct Hst as (Hsz & Hpos & Hlt & ->).
  assert (Hlen2 : 12 <= Z.of_nat (length data2)).
  { apply (f_equal length) in Hhdr. rewrite !length_take in Hhdr. lia. }
  rewrite (open_valid_header fs2 path2 a2 data2 Hopen2 Hdata2 Hlen2) by (by rewrite Hhdr).
  rewrite Hhdr, Htab.
  set (hdr := pak_header_t.decode (take 12 data)) in *.
  set (table := take _ (drop _ data)) in *.
  destruct (Z.to_nat (pak_header_t.size hdr / 64)) as [|n'] eqn:En; [lia|].
  rewrite <- En.
  rewrite (proj2 (Nat.ltb_ge _ _)) by lia.
  rewrite (proj2 (Z.eqb_eq _ _)) by lia.
  eexists. split; [reflexivity|]. unfold same_entries.
  cbn [pak_archive.m_files pak_archive.m_lookupMap].
  assert (Hov : overwrite (zeros (64 * Z.to_nat (pak_header_t.size hdr / 64))) table = table).
  { unfold overwrite, zeros. rewrite drop_replicate.
    replace (64 * Z.to_nat (pak_header_t.size hdr / 64) - length table)%nat with 0%nat by lia.
    apply app_nil_r. }
  by rewrite Hov.
Qed.

Lemma open_reads_header_and_table_witness :
  exists a', pak_archive.open (<["cut"%string := take 140 (file_bytes built_disk "o.pak")]> built_disk)
               "cut" pak_archive.init = Ret true a' /\ same_entries opened a'.
Proof.
  eapply (open_reads_header_and_table built_disk _ "o.pak" "cut" pak_archive.init opened
            pak_archive.init).
  - vm_compute. reflexivity.
  - apply built_disk_bytes.
  - apply lookup_insert_eq.
  - discriminate.
  - vm_compute. reflexivity.
  - vm_compute. reflexivity.
Defined.

(** ** The reader: how [open] fails and what [close] does *)

(** X4. [open] on a path that does not exist returns [false] with
    [OpenFailed]; no stream is held, the entry table and the index are
    empty, and the reader can be closed or opened again. *)
Theorem open_missing_file (fs : filesystem) (path : string) (a : pak_archive.t) :
  pak_archive.m_file a <> closed_stream -> fs !! path = None ->
  exists a', pak_archive.open fs path a = Ret false a' /\
    pak_archive.last_error a' = OpenFailed /\ pak_archive.good a' = false /\
    pak_archive.m_file a' = nullptr /\ pak_archive.file_count a' = 0 /\
    pak_archive.m_lookupMap a' = ∅ /\ pak_archive.close a' = Ret tt a'.
Proof.
  intros Hopen Hnone. unfold pak_archive.open, pak_archive.close.
  destruct (pak_archive.m_file a) eqn:Ef; [| |done]; cbn [bind]; rewrite Hnone;
    eexists; (split; [reflexivity|]); cbn; done.
Qed.

Lemma open_missing_file_witness :
  exists a', pak_archive.open disk2 "nothing.pak" opened = Ret false a' /\
             pak_archive.last_error a' = OpenFailed.
Proof.
  destruct (open_missing_file disk2 "nothing.pak" opened) as (a' & H & He & _).
  - vm_compute. discriminate.
  - reflexivity.
  - exists a'. split; [exact H|exact He].
Defined.

(** X5. [open] on a file of fewer than 12 bytes, or whose first four bytes
    are not PACK, returns [false] with [InvalidHeader]; the entry table
    and the index are empty and [good] is false. *)
Theorem open_invalid_header (fs : filesystem) (path : string) (a : pak_archive.t)
  (data : list byte) :
  pak_archive.m_file a <> closed_stream -> fs !! path = Some data ->
  Z.of_nat (length data) < 12 \/ take 4 data <> PACK ->
  exists a', pak_archive.open fs path a = Ret false a' /\
    pak_archive.last_error a' = InvalidHeader /\ pak_archive.good a' = false /\
    pak_archive.file_count a' = 0 /\ pak_archive.m_lookupMap a' = ∅.
Proof.
  intros Hopen Hdata Hbad.
  assert (Hclose : pak_archive.close a
            = Ret tt (pak_archive.mk nullptr (pak_archive.m_fileSize a) []
                        (pak_archive.m_errno a) ∅)).
  { unfold pak_archive.close. by destruct (pak_archive.m_file a). }
  unfold pak_archive.open. rewrite Hclose. cbn [bind]. rewrite Hdata.
  unfold pak_archive.set_m_file, pak_archive.set_m_fileSize, pak_archive.set_m_files,
    pak_archive.set_m_errno, pak_archive.set_m_lookupMap.
  cbn [pak_archive.m_file pak_archive.m_fileSize pak_archive.m_files pak_archive.m_errno
       pak_archive.m_lookupMap].
  unfold pak_header_t.sizeof.
  destruct (Z.ltb_spec (Z.of_nat (length data)) 12) as [Hshort|Hlen].
  - eexists. split; [reflexivity|]. cbn. done.
  - destruct Hbad as [?|Hmagic]; [lia|].
    unfold fread at 1. cbn [f_path f_pos]. rewrite (file_bytes_Some _ _ _ Hdata).
    change (Z.to_nat 0) with 0%nat. rewrite drop_0. change (Z.to_nat 12) with 12%nat.
    assert (Hm : pak_archive.magic_ok (pak_header_t.decode (take 12 data)) = false).
    { destruct (pak_archive.magic_ok _) eqn:E; [|done].
      apply magic_ok_PACK in E. cbn [pak_header_t.decode pak_header_t.id] in E.
      rewrite take_take in E. by destruct Hmagic. }
    rewrite Hm, orb_true_r. eexists. split; [reflexivity|]. cbn. done.
Qed.

Lemma open_invalid_header_witness :
  exists a', pak_archive.open disk2 "a.txt" pak_archive.init = Ret false a' /\
             pak_archive.last_error a' = InvalidHeader.
Proof.
  destruct (open_invalid_header disk2 "a.txt" pak_archive.init [x68; x69]) as (a' & H & He & _).
  - discriminate.
  - reflexivity.
  - left. vm_compute. reflexivity.
  - exists a'. split; [exact H|exact He].
Defined.

(** X6. Opening does not depend on what the reader held before: from any
    state without a stale stream pointer, [open] returns what it returns
    on a fresh reader and leaves the same stream, entries, error code and
    index.  With a stale pointer (left by a failed [open]) it is
    undefined: the stream is closed twice. *)
Theorem open_forgets_previous_state (fs : filesystem) (path : string) (a : pak_archive.t) :
  (pak_archive.m_file a <> closed_stream ->
   outcome_map observable (pak_archive.open fs path a)
   = outcome_map observable (pak_archive.open fs path pak_archive.init)) /\
  (pak_archive.m_file a = closed_stream -> pak_archive.open fs path a = UB).
Proof.
  split.
  - intros Hopen.
    assert (Hclose : pak_archive.close a
              = Ret tt (pak_archive.mk nullptr (pak_archive.m_fileSize a) []
                          (pak_archive.m_errno a) ∅)).
    { unfold pak_archive.close. by destruct (pak_archive.m_file a). }
    unfold pak_archive.open. rewrite Hclose.
    change (pak_archive.close pak_archive.init)
      with (Ret (S := pak_archive.t) tt (pak_archive.mk nullptr 0 [] NoError ∅)).
    cbn [bind].
    unfold pak_archive.set_m_file, pak_archive.set_m_fileSize, pak_archive.set_m_files,
      pak_archive.set_m_errno, pak_archive.set_m_lookupMap.
    cbn [pak_archive.m_file pak_archive.m_fileSize pak_archive.m_files pak_archive.m_errno
         pak_archive.m_lookupMap].
    destruct (fs !! path) as [data|]; [|reflexivity].
    destruct (_ <? _); [reflexivity|].
    destruct (fread fs _ _) as [[mem items] f].
    destruct (negb _ || negb _); [reflexivity|].
    destruct (pak_archive.resize _) as [|e v]; [reflexivity|].
    destruct (fread fs _ _) as [[got items'] f'].
    destruct (_ <? _)%nat; [reflexivity|].
    destruct (negb _); reflexivity.
  - intros Hc. unfold pak_archive.open, pak_archive.close. by rewrite Hc.
Qed.

Lemma open_forgets_previous_state_witness :
  outcome_map observable (pak_archive.open built_disk "o.pak" same_name_opened)
  = outcome_map observable (pak_archive.open built_disk "o.pak" pak_archive.init).
Proof.
  apply (open_forgets_previous_state built_disk "o.pak" same_name_opened).
  vm_compute. discriminate.
Defined.

(** X7. [close], when it returns, leaves a reader with no stream, no
    entries and an empty index; [good] is false, [file_count] is 0 and
    enumeration is empty.  The error code is not reset.  Closing again
    changes nothing. *)
Theorem close_resets (a a' : pak_archive.t) :
  pak_archive.close a = Ret tt a' ->
  pak_archive.good a' = false /\ pak_archive.file_count a' = 0 /\
  pak_archive.enumerate a' = Some [] /\ pak_archive.m_lookupMap a' = ∅ /\
  pak_archive.last_error a' = pak_archive.last_error a /\
  pak_archive.close a' = Ret tt a'.
Proof.
  unfold pak_archive.close. destruct (pak_archive.m_file a); [| |discriminate];
    intros H; injection H as <-; done.
Qed.

Lemma close_resets_witness :
  exists a', pak_archive.close opened = Ret tt a' /\ pak_archive.file_count a' = 0 /\
             pak_archive.close a' = Ret tt a'.
Proof.
  eexists. split; [reflexivity|].
  destruct (close_resets opened _ eq_refl) as (_ & Hc & _ & _ & _ & Hi).
  split; [exact Hc|exact Hi].
Defined.

(** ** The reader: an open archive stays usable *)

Lemma first_named_is_Some name files :
  is_Some (first_named name files) <->
  exists e, e ∈ files /\ pak_archive.entry_name e = name.
Proof.
  unfold first_named. split.
  - intros [i Hi]. destruct (list_find _ files) as [[j x]|] eqn:E; [|done].
    apply list_find_Some in E as (H1 & H2 & _). exists x. split; [|done].
    by eapply list_elem_of_lookup_2.
  - intros (e & Hin & He).
    destruct (list_find (fun e => pak_archive.entry_name e = name) files) as [[j x]|] eqn:E.
    + by eexists.
    + apply list_find_None in E. rewrite Forall_forall in E. by destruct (E e Hin).
Qed.

(** X8. After a successful [open], [stat] finds a name exactly when
    enumeration shows an entry with that name. *)
Theorem stat_finds_enumerated (fs : filesystem) (path : string) (a0 a : pak_archive.t)
  (name : string) :
  pak_archive.open fs path a0 = Ret true a ->
  exists listing, pak_archive.enumerate a = Some listing /\
    ((exists file_size offset, pak_archive.stat name 0 0 a = Ret (true, file_size, offset) a)
     <-> exists d, (name, d) ∈ listing).
Proof.
  intros H. destruct (open_true_state _ _ _ _ H) as (data & Hdata & Hst).
  cbv zeta in Hst. destruct Hst as (Hsz & Hpos & Htab & ->). clear H.
  destruct (header_fields_range (take 12 data)) as [_ Hs].
  set (n := Z.to_nat (pak_header_t.size (pak_header_t.decode (take 12 data)) / 64)) in *.
  set (v := pak_archive.vector_of_bytes n _).
  assert (Hlen : length v = n) by apply length_vector_of_bytes.
  exists (map entry_view v). split.
  { apply enumerate_spec. cbn [pak_archive.m_files]. fold v. lia. }
  unfold pak_archive.stat. cbn [pak_archive.m_lookupMap pak_archive.m_files]. fold v.
  rewrite populate_lookup, lookup_empty.
  pose proof (first_named_is_Some name v) as Hfn.
  split.
  - intros (sz & off & Hstat). destruct (first_named name v) as [i|] eqn:E; [|discriminate].
    destruct (proj1 Hfn ltac:(by eexists)) as (e & Hin & He).
    exists (pak_file_details_t.mk (pak_file_t.offset e) (pak_file_t.size e)).
    apply list_elem_of_fmap. exists e. split; [|done]. unfold entry_view. by rewrite He.
  - intros (d & Hin). apply list_elem_of_fmap in Hin as (e & Heq & Hin).
    unfold entry_view in Heq. injection Heq as Hname _.
    destruct (proj2 Hfn) as [i Hi]; [by exists e|].
    rewrite Hi. cbn [fmap option_fmap option_map].
    assert (Hlt : (i < length v)%nat).
    { apply first_named_Some in Hi as (e' & He' & _). by apply lookup_lt_Some in He'. }
    destruct (lookup_lt_is_Some_2 v i Hlt) as [e' He'].
    rewrite Nat.add_0_l, He'. by eexists _, _.
Qed.

Lemma stat_finds_enumerated_witness :
  exists file_size offset,
    pak_archive.stat "dir/b.txt" 0 0 opened = Ret (true, file_size, offset) opened.
Proof.
  destruct (stat_finds_enumerated built_disk "o.pak" pak_archive.init opened "dir/b.txt")
    as (listing & Hl & Hiff).
  - vm_compute. reflexivity.
  - apply Hiff. exists (pak_file_details_t.mk 142 3).
    assert (Hv : pak_archive.enumerate opened
                 = Some [("a.txt"%string, pak_file_details_t.mk 140 2);
                         ("dir/b.txt"%string, pak_file_details_t.mk 142 3)])
      by (vm_compute; reflexivity).
    rewrite Hv in Hl. injection Hl as <-. apply list_elem_of_here || (right; left).
Defined.

Lemma vector_of_bytes_range (n : nat) : forall mem,
  Forall (fun e => 0 <= pak_file_t.offset e < 2 ^ 32 /\ 0 <= pak_file_t.size e < 2 ^ 32)
    (pak_archive.vector_of_bytes n mem).
Proof.
  induction n as [|n IH]; intros mem; cbn [pak_archive.vector_of_bytes]; constructor.
  - apply decode_fields_range.
  - apply IH.
Qed.

Lemma open_true_Open_ok fs path a0 a :
  pak_archive.open fs path a0 = Ret true a -> Open_ok a.
Proof.
  intros H. destruct (open_true_state _ _ _ _ H) as (data & Hdata & Hst).
  cbv zeta in Hst. destruct Hst as (_ & _ & _ & ->). clear H.
  split; [by eexists|]. cbn [pak_archive.m_files pak_archive.m_lookupMap]. split.
  - intros name i Hi. rewrite populate_lookup, lookup_empty in Hi.
    destruct (first_named name _) as [j|] eqn:E; [|discriminate].
    injection Hi as <-. apply first_named_Some in E as (e & He & _).
    apply lookup_lt_Some in He. lia.
  - apply vector_of_bytes_range.
Qed.

Lemma length_stack_buf garbage : length (stack_buf garbage) = Z.to_nat sizeof_buf.
Proof.
  unfold stack_buf. rewrite length_take, length_app, length_zeros. lia.
Qed.

(** The loop of [extract_file] appends exactly [sz] bytes to the sink,
    whatever the reads deliver. *)
Lemma extract_loop_writes out : forall (fuel : nat) (fs : filesystem) f buf sz old,
  fs !! out = Some old -> length buf = Z.to_nat sizeof_buf -> sz < 2 ^ 63 ->
  (Z.to_nat (sz / sizeof_buf + 1) <= fuel)%nat ->
  exists w f',
    pak_archive.extract_loop fuel fs f out buf sz = (<[out := old ++ w]> fs, f') /\
    length w = Z.to_nat sz /\ f_path f' = f_path f.
Proof.
  induction fuel as [|fuel IH]; intros fs f buf sz old Ho Hbuf Hsz Hfuel.
  - apply no_chunk_fuel in Hfuel. exists [], f. cbn [pak_archive.extract_loop].
    rewrite app_nil_r, insert_id by done. split; [done|]. split; [cbn; lia|done].
  - cbn [pak_archive.extract_loop]. destruct (Z.ltb_spec 0 sz) as [Hgt|Hle].
    + rewrite to_int64_chunk, to_size_t_small by lia.
      set (n := if sz <? sizeof_buf then sz else sizeof_buf).
      assert (Hn : 0 < n <= sizeof_buf /\ (sizeof_buf < sz -> n = sizeof_buf)
                   /\ (sz <= sizeof_buf -> n = sz)).
      { subst n. unfold sizeof_buf. destruct (Z.ltb_spec sz 8192); lia. }
      clearbody n.
      destruct (fread fs f n) as [[got items] f1] eqn:Er.
      assert (Hgot : (length got <= Z.to_nat n)%nat /\ f_path f1 = f_path f).
      { unfold fread in Er. injection Er as <- _ <-. rewrite length_take. split; [lia|done]. }
      destruct Hgot as [Hgot Hpath].
      set (buf' := overwrite buf got).
      assert (Hbuf' : length buf' = Z.to_nat sizeof_buf).
      { subst buf'. unfold overwrite. rewrite length_app, length_drop. lia. }
      set (chunk := take (Z.to_nat n) buf').
      assert (Hchunk : length chunk = Z.to_nat n).
      { subst chunk. rewrite length_take. lia. }
      unfold fwrite. rewrite (file_bytes_Some _ _ _ Ho).
      destruct (IH (<[out := old ++ chunk]> fs) f1 buf' (sz - sizeof_buf) (old ++ chunk))
        as (w & f' & Hloop & Hw & Hf').
      * apply lookup_insert_eq.
      * exact Hbuf'.
      * unfold sizeof_buf. lia.
      * by apply chunk_fuel.
      * exists (chunk ++ w), f'. rewrite Hloop, insert_insert_eq, <- app_assoc.
        split; [done|]. split; [|congruence].
        rewrite length_app, Hchunk, Hw. unfold sizeof_buf in *. lia.
    + exists [], f. rewrite app_nil_r, insert_id by done.
      split; [done|]. split; [cbn; lia|done].
Qed.

(** The copying case of [extract_file]: the name is indexed and the sink
    can be created. *)
Lemma extract_file_writes (can_create : string -> bool) (fs : filesystem)
  (a : pak_archive.t) (name out : string) (garbage : list byte) (i : nat) :
  Open_ok a -> pak_archive.m_lookupMap a !! name = Some i -> can_create out = true ->
  exists e a' w,
    pak_archive.m_files a !! i = Some e /\
    pak_archive.extract_file can_create name out garbage (a, fs)
    = Ret true (a', <[out := w]> fs) /\
    Z.of_nat (length w) = pak_file_t.size e /\
    Open_ok a' /\ same_entries a a'.
Proof.
  intros ([f Hf] & Hidx & Hrange) Hl Hcc. unfold pak_archive.extract_file.
  rewrite Hl, Hcc. cbn [negb].
  destruct (lookup_lt_is_Some_2 _ i (Hidx _ _ Hl)) as [e He].
  pose proof (Forall_lookup_1 _ _ _ _ Hrange He) as [Hoff Hsz].
  rewrite He, Hf. rewrite to_int64_small by lia.
  destruct (extract_loop_writes out (pak_archive.extract_fuel (pak_file_t.size e))
              (<[out := []]> fs) (fseek_set f (pak_file_t.offset e)) (stack_buf garbage)
              (pak_file_t.size e) [])
    as (w & f' & Hloop & Hw & _).
  - apply lookup_insert_eq.
  - apply length_stack_buf.
  - lia.
  - unfold pak_archive.extract_fuel. lia.
  - rewrite Hloop, insert_insert_eq. cbn [app].
    exists e, (pak_archive.set_m_file (stream f') a), w.
    split; [done|]. split; [done|]. split; [lia|].
    split; [|done]. split; [by eexists|]. done.
Qed.

(** The refusing cases: no such name, or no sink. *)
Lemma extract_file_refuses (can_create : string -> bool) (fs : filesystem)
  (a : pak_archive.t) (name out : string) (garbage : list byte) :
  pak_archive.m_lookupMap a !! name = None \/
  (is_Some (pak_archive.m_lookupMap a !! name) /\ can_create out = false) ->
  pak_archive.extract_file can_create name out garbage (a, fs) = Ret false (a, fs).
Proof.
  unfold pak_archive.extract_file. intros [->|[[i ->] ->]]; reflexivity.
Qed.

(** X9. On a reader left by a successful [open], [extract_file] always
    returns: [false], changing nothing, when the name is not in the index
    or the sink cannot be created; otherwise [true], after putting exactly
    [entry.size] bytes into the sink and touching no other file, even when
    the archive does not hold that many bytes behind the entry's offset
    (a short read is not noticed).  Entries and index stay as they are. *)
Theorem extract_file_outcome (can_create : string -> bool) (fs : filesystem)
  (a : pak_archive.t) (name out : string) (garbage : list byte) :
  Open_ok a ->
  match pak_archive.m_lookupMap a !! name with
  | Some i =>
    if can_create out then
      exists e a' w,
        pak_archive.m_files a !! i = Some e /\
        pak_archive.extract_file can_create name out garbage (a, fs)
        = Ret true (a', <[out := w]> fs) /\
        Z.of_nat (length w) = pak_file_t.size e /\
        Open_ok a' /\ same_entries a a'
    else pak_archive.extract_file can_create name out garbage (a, fs) = Ret false (a, fs)
  | None => pak_archive.extract_file can_create name out garbage (a, fs) = Ret false (a, fs)
  end.
Proof.
  intros Hok. destruct (pak_archive.m_lookupMap a !! name) as [i|] eqn:Hl.
  - destruct (can_create out) eqn:Hcc.
    + by apply extract_file_writes.
    + apply extract_file_refuses. right. by rewrite Hl.
  - apply extract_file_refuses. by left.
Qed.

Lemma opened_Open_ok : Open_ok opened.
Proof.
  apply (open_true_Open_ok built_disk "o.pak" pak_archive.init). vm_compute. reflexivity.
Qed.

Lemma extract_file_outcome_witness :
  exists a' w,
    pak_archive.extract_file always "a.txt" "out" [] (opened, cut_disk)
    = Ret true (a', <["out"%string := w]> cut_disk) /\
    Z.of_nat (length w) = 2.
Proof.
  pose proof (extract_file_outcome always cut_disk opened "a.txt" "out" [] opened_Open_ok) as H.
  assert (Hl : pak_archive.m_lookupMap opened !! "a.txt"%string = Some 0%nat)
    by (vm_compute; reflexivity).
  rewrite Hl in H. unfold always in H at 1.
  destruct H as (e & a' & w & He & Hx & Hw & _).
  assert (He0 : pak_archive.m_files opened !! 0%nat
                = Some (pak_file_t.mk (strncpy [x61; x2e; x74; x78; x74] 56) 140 2))
    by (vm_compute; reflexivity).
  rewrite He0 in He. injection He as <-.
  exists a', w. split; [exact Hx|exact Hw].
Defined.

(** X10. On a reader left by a successful [open], [read_file] of a name in
    the index always returns, storing the bytes that follow the entry's
    offset in the archive, up to [max_size] of them.  It returns [true]
    exactly when [max_size] is not 0 and the archive holds [max_size]
    bytes from that offset on; the entry's size plays no part.  Entries
    and index stay as they are. *)
Theorem read_file_true_iff (fs : filesystem) (a : pak_archive.t) (name : string)
  (i : nat) (max_size : Z) :
  Open_ok a -> pak_archive.m_lookupMap a !! name = Some i -> 0 <= max_size ->
  exists e f ok a',
    pak_archive.m_files a !! i = Some e /\ pak_archive.m_file a = stream f /\
    pak_archive.read_file fs name max_size a
    = Ret (ok, take (Z.to_nat max_size)
                 (drop (Z.to_nat (pak_file_t.offset e)) (file_bytes fs (f_path f)))) a' /\
    (ok = true <->
     0 < max_size /\
     pak_file_t.offset e + max_size <= Z.of_nat (length (file_bytes fs (f_path f)))) /\
    Open_ok a' /\ same_entries a a'.
Proof.
  intros ([f Hf] & Hidx & Hrange) Hl Hmax.
  destruct (lookup_lt_is_Some_2 _ i (Hidx _ _ Hl)) as [e He].
  pose proof (Forall_lookup_1 _ _ _ _ Hrange He) as [Hoff Hsz].
  unfold pak_archive.read_file. rewrite Hl, He, Hf.
  unfold fread, fseek_set. cbn [f_path f_pos].
  set (data := file_bytes fs (f_path f)).
  eexists e, f, _, _. split; [done|]. split; [done|]. split; [reflexivity|].
  split; [|split; [split; [by eexists|done]|done]].
  rewrite length_take, length_drop. fold data. clearbody data.
  destruct (Z.ltb_spec 0 max_size) as [Hpos|Hz]; cbn [andb].
  - destruct (Z.eqb_spec (Z.of_nat (Z.to_nat max_size `min` (length data - Z.to_nat (pak_file_t.offset e)))) max_size) as [Heq|Hneq].
    + split; [intros _; lia|reflexivity].
    + split; [discriminate|]. intros [_ Hfit]. lia.
  - split; [discriminate|]. intros [? _]. lia.
Qed.

Lemma read_file_true_iff_witness :
  exists ok a', pak_archive.read_file built_disk "dir/b.txt" 0 opened = Ret (ok, []) a' /\
                ok <> true.
Proof.
  destruct (read_file_true_iff built_disk opened "dir/b.txt" 1 0)
    as (e & f & ok & a' & He & Hf & Hr & Hiff & _).
  - exact opened_Open_ok.
  - vm_compute. reflexivity.
  - lia.
  - exists ok, a'. split; [exact Hr|]. intros Hok. apply Hiff in Hok as [Hlt _]. lia.
Defined.

(** X11. The calls that look up a name keep a reader usable.  On a reader
    whose stream is live and whose index points into the entry table, as
    [open] leaves it, [stat] returns without changing the reader, and
    [read_file] and [extract_file] return leaving the stream live and the
    entries and the index as they were; [extract_file] changes no file
    but its sink.  The condition is preserved, so this holds after any
    sequence of such calls. *)
Theorem lookups_keep_open (can_create : string -> bool) (fs : filesystem)
  (a : pak_archive.t) (name : string) :
  Open_ok a ->
  (exists r, pak_archive.stat name 0 0 a = Ret r a) /\
  (forall max_size, exists r a',
     pak_archive.read_file fs name max_size a = Ret r a' /\ Open_ok a' /\ same_entries a a') /\
  (forall out garbage, exists r a' fs',
     pak_archive.extract_file can_create name out garbage (a, fs) = Ret r (a', fs') /\
     Open_ok a' /\ same_entries a a' /\ only_changes out fs fs').
Proof.
  intros Hok. pose proof Hok as ([f Hf] & Hidx & Hrange). split; [|split].
  - unfold pak_archive.stat. destruct (pak_archive.m_lookupMap a !! name) as [i|] eqn:Hl.
    + destruct (lookup_lt_is_Some_2 _ i (Hidx _ _ Hl)) as [e He]. rewrite He. by eexists.
    + by eexists.
  - intros max_size. unfold pak_archive.read_file.
    destruct (pak_archive.m_lookupMap a !! name) as [i|] eqn:Hl.
    + destruct (lookup_lt_is_Some_2 _ i (Hidx _ _ Hl)) as [e He]. rewrite He, Hf.
      destruct (fread fs _ max_size) as [[got items] f']. eexists _, _.
      split; [reflexivity|]. split; [|done]. split; [by eexists|done].
    + eexists _, _. split; [reflexivity|]. split; [exact Hok|done].
  - intros out garbage.
    destruct (pak_archive.m_lookupMap a !! name) as [i|] eqn:Hl.
    + destruct (can_create out) eqn:Hcc.
      * destruct (extract_file_writes can_create fs a name out garbage i Hok Hl Hcc)
          as (e & a' & w & _ & Hx & _ & Hok' & Hsame).
        exists true, a', (<[out := w]> fs). split; [exact Hx|]. split; [exact Hok'|].
        split; [exact Hsame|]. intros p Hp. by rewrite lookup_insert_ne.
      * exists false, a, fs. split; [|split; [exact Hok|done]].
        apply extract_file_refuses. right. by rewrite Hl.
    + exists false, a, fs. split; [|split; [exact Hok|done]].
      apply extract_file_refuses. by left.
Qed.

Lemma lookups_keep_open_witness :
  exists r a', pak_archive.read_file built_disk "a.txt" 2 opened = Ret r a' /\ Open_ok a'.
Proof.
  destruct (lookups_keep_open always built_disk opened "a.txt") as (_ & Hr & _).
  - exact opened_Open_ok.
  - destruct (Hr 2) as (r & a' & H & Hok & _). exists r, a'. split; [exact H|exact Hok].
Defined.

(** ** The builder: what [write] does to the disk *)

(** X12. [write] returns [false] without touching anything when the
    output cannot be created.  Otherwise it rewrites the output file and
    no other file, and returns [true] exactly when every pending source
    exists (or is the output file itself); sizes and contents play no part
    in the result.  The pending records keep their source, name and
    size. *)
Theorem write_outcome (can_create : string -> bool) (file : string) (garbage : list byte)
  (b : pak_builder.t) (fs : filesystem) :
  if can_create file then
    exists ok b' content,
      pak_builder.write can_create file garbage (b, fs) = Ret ok (b', <[file := content]> fs) /\
      (ok = true <->
       Forall (fun f => pak_builder.file_t.disk_path f = file \/
                        is_Some (fs !! pak_builder.file_t.disk_path f))
         (pak_builder.m_files b)) /\
      map registered (pak_builder.m_files b') = map registered (pak_builder.m_files b)
  else pak_builder.write can_create file garbage (b, fs) = Ret false (b, fs).
Proof.
  unfold pak_builder.write. destruct (can_create file); [|reflexivity]. cbn [negb].
  rewrite write_layout_spec by apply lookup_insert_eq. rewrite insert_insert_eq.
  set (old := pak_header_t.encode _ ++ _). cbn [pak_builder.m_files].
  set (files' := assign_offsets _ _).
  destruct (write_data_shape garbage file files' (<[file := old]> fs)
              (mkofstream file (12 + 64 * Z.of_nat (length (pak_builder.m_files b)))) old
              eq_refl (lookup_insert_eq _ _ _)) as (ok & old' & Hd & Hiff & _).
  rewrite Hd, insert_insert_eq. exists ok, (pak_builder.mk files'), old'.
  split; [done|]. split.
  - rewrite Hiff. subst files'.
    assert (Hmap : forall fs' : filesystem, forall curoff l,
              Forall (fun f => pak_builder.file_t.disk_path f = file \/
                               is_Some (fs' !! pak_builder.file_t.disk_path f))
                (assign_offsets curoff l)
              <-> Forall (fun f => pak_builder.file_t.disk_path f = file \/
                                   is_Some (fs' !! pak_builder.file_t.disk_path f)) l).
    { intros fs' curoff l. revert curoff.
      induction l as [|g l IH]; intros curoff; cbn [assign_offsets]; [done|].
      by rewrite !Forall_cons, IH. }
    rewrite Hmap.
    split; intros HF; (eapply Forall_impl; [exact HF|]); cbn; intros g [Hg|Hg];
      try (by left);
      (destruct (decide (pak_builder.file_t.disk_path g = file)) as [Heq|Hne]; [by left|]);
      right; [by rewrite lookup_insert_ne in Hg|by rewrite lookup_insert_ne].
  - cbn [pak_builder.m_files]. subst files'. apply map_registered_assign_offsets.
Qed.

Lemma write_outcome_witness :
  exists b' content,
    pak_builder.write always "o.pak" [] (two_pending, {[ "a.txt"%string := [x68] ]})
    = Ret false (b', <["o.pak"%string := content]> {[ "a.txt"%string := [x68] ]}).
Proof.
  pose proof (write_outcome always "o.pak" [] two_pending {[ "a.txt"%string := [x68] ]}) as H.
  unfold always in H at 1. destruct H as (ok & b' & content & Hw & Hiff & _).
  destruct ok.
  - exfalso. apply proj1 in Hiff. specialize (Hiff eq_refl).
    assert (Hm : pak_builder.m_files two_pending !! 1%nat
                 = Some (pending disk2 ("b.txt", "dir/b.txt")%string))
      by (vm_compute; reflexivity).
    pose proof (Forall_lookup_1 _ _ _ _ Hiff Hm) as [Hp|[x Hx]].
    + discriminate Hp.
    + vm_compute in Hx. discriminate Hx.
  - exists b', content. exact Hw.
Defined.

Lemma length_layout_bytes files :
  Z.of_nat (length (layout_bytes files)) = 12 + 64 * Z.of_nat (length files).
Proof.
  unfold layout_bytes.
  rewrite length_app, length_header_encode, length_concat_entries, length_listing_entries. lia.
Qed.

(** X13. No rollback, and no damage to the layout: when the output can be
    created and the archive fits the 32-bit fields, [write] leaves the
    output file starting with the header and the complete entry table,
    whether it returns [true] or gives up with [false] at a missing
    source. *)
Theorem write_leaves_layout (can_create : string -> bool) (file : string)
  (garbage : list byte) (b : pak_builder.t) (fs : filesystem) :
  can_create file = true ->
  sizes_ok (pak_builder.m_files b) ->
  archive_size (pak_builder.m_files b) < 2 ^ 32 ->
  exists ok b' rest,
    pak_builder.write can_create file garbage (b, fs)
    = Ret ok (b', <[file := layout_bytes (pak_builder.m_files b) ++ rest]> fs).
Proof.
  intros Hc Hok Hfit. unfold archive_size in Hfit.
  pose proof (total_size_nonneg _ Hok) as Hn.
  unfold pak_builder.write. rewrite Hc. cbn [negb].
  rewrite write_layout_spec by apply lookup_insert_eq. rewrite insert_insert_eq.
  rewrite build_header_small by lia.
  cbn [pak_header_t.size pak_builder.m_files]. unfold pak_header_t.sizeof.
  rewrite to_size_t_small by lia. fold (layout_bytes (pak_builder.m_files b)).
  set (old := layout_bytes _). set (files' := assign_offsets _ _).
  destruct (write_data_shape garbage file files' (<[file := old]> fs)
              (mkofstream file (12 + 64 * Z.of_nat (length (pak_builder.m_files b)))) old
              eq_refl (lookup_insert_eq _ _ _)) as (ok & old' & Hd & _ & Hk).
  rewrite Hd, insert_insert_eq.
  destruct (Hk (length old) ltac:(lia)) as [Ht Hl].
  { subst old files'. rewrite length_layout_bytes. apply assign_offsets_ge; [done|lia|lia]. }
  exists ok, (pak_builder.mk files'), (drop (length old) old').
  rewrite (take_ge old) in Ht by lia. rewrite <- Ht at 1. by rewrite take_drop.
Qed.

Lemma write_leaves_layout_witness :
  exists b' rest,
    pak_builder.write always "o.pak" [] (two_pending, {[ "a.txt"%string := [x68] ]})
    = Ret false (b', <["o.pak"%string := layout_bytes (pak_builder.m_files two_pending) ++ rest]>
                       {[ "a.txt"%string := [x68] ]}).
Proof.
  destruct (write_leaves_layout always "o.pak" [] two_pending {[ "a.txt"%string := [x68] ]})
    as (ok & b' & rest & Hw).
  - reflexivity.
  - vm_compute. repeat constructor; discriminate.
  - vm_compute. reflexivity.
  - assert (Hr : returned (pak_builder.write always "o.pak" []
                             (two_pending, {[ "a.txt"%string := [x68] ]})) = Some false)
      by (vm_compute; reflexivity).
    rewrite Hw in Hr. injection Hr as ->. exists b', rest. exact Hw.
Defined.

Lemma copy_loop_writes ipath path : forall (fuel : nat) (fs : filesystem) ipos buf sz old,
  fs !! path = Some old -> length buf = Z.to_nat sizeof_buf -> sz < 2 ^ 63 ->
  (Z.to_nat (sz / sizeof_buf + 1) <= fuel)%nat ->
  exists w,
    pak_builder.copy_loop fuel fs ipath ipos (mkofstream path (Z.of_nat (length old))) buf sz
    = (<[path := old ++ w]> fs, mkofstream path (Z.of_nat (length (old ++ w)))) /\
    length w = Z.to_nat sz.
Proof.
  induction fuel as [|fuel IH]; intros fs ipos buf sz old Ho Hbuf Hsz Hfuel.
  - apply no_chunk_fuel in Hfuel. exists []. cbn [pak_builder.copy_loop].
    rewrite app_nil_r, insert_id by done. split; [done|cbn; lia].
  - cbn [pak_builder.copy_loop]. destruct (Z.ltb_spec 0 sz) as [Hgt|Hle].
    + rewrite to_int64_chunk, to_size_t_small by lia.
      set (n := if sz <? sizeof_buf then sz else sizeof_buf).
      assert (Hn : 0 < n <= sizeof_buf /\ (sizeof_buf < sz -> n = sizeof_buf)
                   /\ (sz <= sizeof_buf -> n = sz)).
      { subst n. unfold sizeof_buf. destruct (Z.ltb_spec sz 8192); lia. }
      clearbody n.
      set (got := take (Z.to_nat sizeof_buf) _).
      assert (Hgot : (length got <= Z.to_nat sizeof_buf)%nat).
      { subst got. rewrite length_take. lia. }
      set (buf' := overwrite buf got).
      assert (Hbuf' : length buf' = Z.to_nat sizeof_buf).
      { subst buf'. unfold overwrite. rewrite length_app, length_drop. lia. }
      set (chunk := take (Z.to_nat n) buf').
      assert (Hchunk : length chunk = Z.to_nat n).
      { subst chunk. rewrite length_take. lia. }
      rewrite (stream_write_append _ _ _ old) by done. cbn [o_path o_pos].
      replace (Z.of_nat (length old) + Z.of_nat (length chunk))
        with (Z.of_nat (length (old ++ chunk))) by (rewrite length_app; lia).
      destruct (IH (<[path := old ++ chunk]> fs) (ipos + Z.of_nat (length got)) buf'
                   (sz - sizeof_buf) (old ++ chunk)) as (w & Hloop & Hw).
      * apply lookup_insert_eq.
      * exact Hbuf'.
      * unfold sizeof_buf. lia.
      * by apply chunk_fuel.
      * exists (chunk ++ w). rewrite Hloop, insert_insert_eq, <- app_assoc.
        split; [done|]. rewrite length_app, Hchunk, Hw. unfold sizeof_buf in *. lia.
    + exists []. rewrite app_nil_r, insert_id by done. split; [done|cbn; lia].
Qed.

Lemma write_data_writes garbage path : forall files (fs : filesystem) s old,
  o_path s = path -> fs !! path = Some old ->
  sources_exist fs path files -> sizes_ok files ->
  Z.of_nat (length old) + total_size files < 2 ^ 63 ->
  exists w,
    pak_builder.write_data fs s garbage (assign_offsets (Z.of_nat (length old)) files)
    = (true, <[path := old ++ w]> fs) /\
    Z.of_nat (length w) = total_size files.
Proof.
  induction files as [|f files IH]; intros fs s old Hs Hold Hex Hok Hfit.
  - exists []. cbn. by rewrite app_nil_r, insert_id.
  - inversion Hex as [|? ? Hf Hex']; subst. inversion Hok as [|? ? Hsz Hok']; subst.
    pose proof (total_size_nonneg _ Hok') as Hn.
    cbn [total_size foldr] in Hfit |- *. fold (total_size files) in Hfit |- *.
    cbn [assign_offsets pak_builder.write_data with_offset
         pak_builder.file_t.disk_path pak_builder.file_t.offset pak_builder.file_t.size].
    assert (Hsrc : is_Some (fs !! pak_builder.file_t.disk_path f)).
    { destruct Hf as [->|Hf]; [by eexists|done]. }
    destruct Hsrc as [src Hsrc]. rewrite Hsrc. unfold seekp.
    rewrite to_int64_small, to_size_t_small by lia.
    destruct (copy_loop_writes (pak_builder.file_t.disk_path f) (o_path s)
                (pak_builder.copy_fuel (pak_builder.file_t.size f)) fs 0 (stack_buf garbage)
                (pak_builder.file_t.size f) old) as (w & Hloop & Hw);
      [done|apply length_stack_buf|lia|unfold pak_builder.copy_fuel; lia|].
    rewrite Hloop.
    replace (Z.of_nat (length old) + pak_builder.file_t.size f)
      with (Z.of_nat (length (old ++ w))) by (rewrite length_app; lia).
    destruct (IH (<[o_path s := old ++ w]> fs)
                 (mkofstream (o_path s) (Z.of_nat (length (old ++ w)))) (old ++ w))
      as (w' & Hd & Hw').
    + done.
    + apply lookup_insert_eq.
    + eapply Forall_impl; [exact Hex'|]. cbn. intros g [Hg|Hg]; [by left|].
      destruct (decide (pak_builder.file_t.disk_path g = o_path s)) as [Heq|Hne]; [by left|].
      right. by rewrite lookup_insert_ne.
    + done.
    + rewrite length_app. lia.
    + exists (w ++ w'). rewrite Hd, insert_insert_eq, <- app_assoc.
      split; [done|]. rewrite length_app. lia.
Qed.

(** X14. [write] copies the size measured by [add_file], not the size the
    source has now: when the output can be created, every source exists
    and the archive fits the 32-bit fields, [write] returns [true] and the
    data region has exactly as many bytes as the registered sizes add up
    to, so the archive has 12 + 64 n + s_0 + ... + s_(n-1) bytes even when
    sources have shrunk or grown since. *)
Theorem write_uses_registered_sizes (can_create : string -> bool) (file : string)
  (garbage : list byte) (b : pak_builder.t) (fs : filesystem) :
  can_create file = true ->
  sources_exist fs file (pak_builder.m_files b) ->
  sizes_ok (pak_builder.m_files b) ->
  archive_size (pak_builder.m_files b) < 2 ^ 32 ->
  exists b' region,
    pak_builder.write can_create file garbage (b, fs)
    = Ret true (b', <[file := layout_bytes (pak_builder.m_files b) ++ region]> fs) /\
    Z.of_nat (length region) = total_size (pak_builder.m_files b) /\
    Z.of_nat (length (layout_bytes (pak_builder.m_files b) ++ region))
    = archive_size (pak_builder.m_files b).
Proof.
  intros Hc Hex Hok Hfit. unfold archive_size in Hfit |- *.
  pose proof (total_size_nonneg _ Hok) as Hn.
  unfold pak_builder.write. rewrite Hc. cbn [negb].
  rewrite write_layout_spec by apply lookup_insert_eq. rewrite insert_insert_eq.
  rewrite build_header_small by lia.
  cbn [pak_header_t.size pak_builder.m_files]. unfold pak_header_t.sizeof.
  rewrite to_size_t_small by lia. fold (layout_bytes (pak_builder.m_files b)).
  pose proof (length_layout_bytes (pak_builder.m_files b)) as Hlen.
  set (old := layout_bytes _) in *. rewrite <- Hlen.
  destruct (write_data_writes garbage file (pak_builder.m_files b) (<[file := old]> fs)
              (mkofstream file (Z.of_nat (length old))) old) as (w & Hd & Hw).
  - done.
  - apply lookup_insert_eq.
  - eapply Forall_impl; [exact Hex|]. cbn. intros g [Hg|Hg]; [by left|].
    destruct (decide (pak_builder.file_t.disk_path g = file)) as [Heq|Hne]; [by left|].
    right. by rewrite lookup_insert_ne.
  - done.
  - lia.
  - rewrite Hd, insert_insert_eq. exists (pak_builder.mk (assign_offsets (Z.of_nat (length old))
                                                          (pak_builder.m_files b))), w.
    split; [done|]. split; [done|]. rewrite length_app. lia.
Qed.

Lemma write_uses_registered_sizes_witness :
  exists b' region,
    pak_builder.write always "o.pak" [] (two_pending, grown_disk)
    = Ret true (b', <["o.pak"%string := layout_bytes (pak_builder.m_files two_pending) ++ region]>
                      grown_disk) /\
    Z.of_nat (length region) = 5.
Proof.
  destruct (write_uses_registered_sizes always "o.pak" [] two_pending grown_disk)
    as (b' & region & Hw & Hr & _).
  - reflexivity.
  - apply (bool_decide_unpack _). vm_compute. exact I.
  - vm_compute. repeat constructor; discriminate.
  - vm_compute. reflexivity.
  - exists b', region. split; [exact Hw|exact Hr].
Defined.

(** X15. The data region is the sources back to back: when the output can
    be created, is none of the sources, every source still has its
    registered size, and the archive fits the 32-bit fields, [write]
    returns [true] and the output file is the header, the entry table and
    then the bytes of the sources in registration order, without gaps. *)
Theorem write_archive_bytes (can_create : string -> bool) (file : string)
  (garbage : list byte) (b : pak_builder.t) (fs : filesystem) :
  can_create file = true ->
  sources_present fs file (pak_builder.m_files b) ->
  archive_size (pak_builder.m_files b) < 2 ^ 32 ->
  exists b',
    pak_builder.write can_create file garbage (b, fs)
    = Ret true (b', <[file := layout_bytes (pak_builder.m_files b)
                              ++ concat (sources fs (pak_builder.m_files b))]> fs) /\
    pak_builder.m_files b'
    = assign_offsets (12 + 64 * Z.of_nat (length (pak_builder.m_files b))) (pak_builder.m_files b).
Proof.
  intros Hc Hsrc Hfit. rewrite write_spec by done. cbv zeta.
  exists (pak_builder.mk (assign_offsets (12 + 64 * Z.of_nat (length (pak_builder.m_files b)))
                            (pak_builder.m_files b))).
  split; [|reflexivity]. unfold layout_bytes. by rewrite <- app_assoc.
Qed.

Lemma write_archive_bytes_witness :
  exists b',
    pak_builder.write always "o.pak" [] (two_pending, disk2)
    = Ret true (b', <["o.pak"%string := layout_bytes (pak_builder.m_files two_pending)
                                         ++ [x68; x69] ++ [x79; x6f; x75]]> disk2).
Proof.
  destruct (write_archive_bytes always "o.pak" [] two_pending disk2) as (b' & Hw & _).
  - reflexivity.
  - assert (Hm : pak_builder.m_files two_pending
                = map (pending disk2) [("a.txt", "a.txt"); ("b.txt", "dir/b.txt")]%string)
      by (vm_compute; reflexivity).
    unfold sources_present. rewrite Hm. cbn [map pending fst snd].
    apply Forall_cons_2; [split; [discriminate|eexists; split; reflexivity]|].
    apply Forall_cons_2; [split; [discriminate|eexists; split; reflexivity]|].
    apply Forall_nil_2.
  - vm_compute. reflexivity.
  - exists b'. exact Hw.
Defined.

(** ** The reader on an archive made by the builder *)

Lemma built_archive can_create (fs : filesystem) (inputs : list (string * string))
  (pak : string) garbage :
  inputs <> [] ->
  Forall (registrable fs) inputs ->
  Forall (fun input => nul_free (snd input) /\ fst input <> pak) inputs ->
  archive_size (map (pending fs) inputs) < 2 ^ 32 ->
  can_create pak = true ->
  let files := map (pending fs) inputs in
  let n := Z.of_nat (length inputs) in
  let es := listing_entries (12 + 64 * n) files in
  let data := layout_bytes files ++ concat (sources fs files) in
  add_files fs inputs pak_builder.init = Ret true (pak_builder.mk files) /\
  pak_builder.write can_create pak garbage (pak_builder.mk files, fs)
  = Ret true (pak_builder.mk (assign_offsets (12 + 64 * n) files), <[pak := data]> fs) /\
  pak_archive.open (<[pak := data]> fs) pak pak_archive.init
  = Ret true (pak_archive.mk (stream (mkFILE pak (12 + 64 * n))) (Z.of_nat (length data)) es
                NoError (pak_archive.populate 0 es ∅)) /\
  Z.of_nat (length data) = 12 + 64 * n + total_size files /\
  sources_present fs pak files.
Proof.
  intros Hne Hreg Hnames Hfit Hc files n es data.
  assert (Hlenf : length files = length inputs) by apply length_map.
  assert (Hsrc : sources_present fs pak files).
  { apply sources_present_pending; [done|].
    eapply Forall_impl; [exact Hnames|]. by intros ? [_ ?]. }
  pose proof (sources_present_sizes_ok _ _ _ Hsrc) as Hok.
  pose proof (total_size_nonneg _ Hok) as Htot.
  fold files in Hfit. unfold archive_size in Hfit. rewrite Hlenf in Hfit. fold n in Hfit.
  assert (Hpos : 0 < n) by (subst n; destruct inputs; [done|cbn; lia]).
  assert (Hlene : length es = length inputs).
  { subst es. by rewrite length_listing_entries. }
  assert (Hdata : data = pak_header_t.encode (pak_header_t.mk PACK 12 (64 * n))
                         ++ concat (map pak_file_t.encode es) ++ concat (sources fs files)).
  { subst data es n. unfold layout_bytes. by rewrite Hlenf, <- app_assoc. }
  assert (Hlend : Z.of_nat (length data) = 12 + 64 * n + total_size files).
  { rewrite Hdata, !length_app, length_header_encode, length_concat_entries, Hlene.
    rewrite (total_size_sources fs pak files Hsrc). lia. }
  split; [|split; [|split; [|split]]].
  - by rewrite add_files_spec.
  - rewrite write_spec; cbn [pak_builder.m_files]; rewrite ?Hlenf; try done.
    + cbv zeta. fold n. fold es. by rewrite Hdata.
    + unfold archive_size. rewrite Hlenf. fold n. lia.
  - pose proof (open_archive (<[pak := data]> fs) pak pak_archive.init es
                  (concat (sources fs files))) as Hopen.
    cbv zeta in Hopen. rewrite Hlene in Hopen. fold n in Hopen. rewrite <- Hdata in Hopen.
    apply Hopen.
    + discriminate.
    + intros Hnil. rewrite Hnil in Hlene. cbn in Hlene. lia.
    + lia.
    + apply listing_entries_wf.
    + apply lookup_insert_eq.
  - exact Hlend.
  - exact Hsrc.
Qed.

Lemma built_entry (fs : filesystem) (inputs : list (string * string)) (pak : string)
  (i : nat) d nm :
  Forall (registrable fs) inputs ->
  Forall (fun input => nul_free (snd input) /\ fst input <> pak) inputs ->
  archive_size (map (pending fs) inputs) < 2 ^ 32 ->
  inputs !! i = Some (d, nm) ->
  let files := map (pending fs) inputs in
  let n := Z.of_nat (length inputs) in
  let off := 12 + 64 * n + total_size (take i files) in
  let sz := Z.of_nat (length (file_bytes fs d)) in
  exists e,
    listing_entries (12 + 64 * n) files !! i = Some e /\
    pak_archive.entry_name e = nm /\
    pak_file_t.offset e = off /\ pak_file_t.size e = sz /\
    12 + 64 * n <= off /\ 0 <= sz /\ off + sz <= 12 + 64 * n + total_size files.
Proof.
  intros Hreg Hnames Hfit Hi files n off sz.
  assert (Hlenf : length files = length inputs) by apply length_map.
  assert (Hsrc : sources_present fs pak files).
  { apply sources_present_pending; [done|].
    eapply Forall_impl; [exact Hnames|]. by intros ? [_ ?]. }
  pose proof (sources_present_sizes_ok _ _ _ Hsrc) as Hok.
  pose proof (total_size_nonneg _ Hok) as Htot.
  fold files in Hfit. unfold archive_size in Hfit. rewrite Hlenf in Hfit. fold n in Hfit.
  assert (Hfi : files !! i = Some (pending fs (d, nm))).
  { subst files. by rewrite list_lookup_fmap, Hi. }
  destruct (layout_lookup files (12 + 64 * n) i _ Hok ltac:(lia) ltac:(lia) Hfi) as [Hei _].
  fold off in Hei.
  pose proof (total_size_take i files Hok) as Hti.
  pose proof (total_size_take_S files i _ Hok Hfi) as HtS.
  pose proof (total_size_lookup files i _ Hok Hfi) as Hsz.
  cbn [pending pak_builder.file_t.size fst] in Hsz, HtS. fold sz in Hsz, HtS.
  exists (pak_builder.build_entry off (pending fs (d, nm))).
  split; [exact Hei|]. split.
  { apply (entry_name_pending fs off (d, nm)).
    - exact (proj1 (Forall_lookup_1 _ _ _ _ Hreg Hi)).
    - exact (proj1 (Forall_lookup_1 _ _ _ _ Hnames Hi)). }
  cbn [pak_builder.build_entry pending pak_file_t.offset pak_file_t.size
       pak_builder.file_t.size fst]. fold sz.
  rewrite !to_uint32_small by lia. repeat split; lia.
Qed.

Lemma built_index (fs : filesystem) (inputs : list (string * string)) (pak : string)
  (i : nat) d nm :
  Forall (registrable fs) inputs ->
  Forall (fun input => nul_free (snd input) /\ fst input <> pak) inputs ->
  archive_size (map (pending fs) inputs) < 2 ^ 32 ->
  inputs !! i = Some (d, nm) ->
  (forall (j : nat) input, inputs !! j = Some input -> (j < i)%nat -> snd input <> nm) ->
  pak_archive.populate 0
    (listing_entries (12 + 64 * Z.of_nat (length inputs)) (map (pending fs) inputs)) ∅ !! nm
  = Some i.
Proof.
  intros Hreg Hnames Hfit Hi Hfirst.
  rewrite populate_lookup, lookup_empty.
  match goal with |- _ <$> ?x = _ => assert (Hfn : x = Some i); [|by rewrite Hfn] end.
  apply first_named_Some.
  destruct (built_entry fs inputs pak i d nm Hreg Hnames Hfit Hi) as (e & He & Hnm & _).
  exists e. split; [exact He|]. split; [exact Hnm|].
  intros j e' Hej Hji.
  destruct (lookup_lt_is_Some_2 inputs j) as [[dj nj] Hj].
  { apply lookup_lt_Some in Hi. lia. }
  destruct (built_entry fs inputs pak j dj nj Hreg Hnames Hfit Hj) as (ej & Hej' & Hnj & _).
  rewrite Hej in Hej'. injection Hej' as ->. rewrite Hnj.
  exact (Hfirst j _ Hj Hji).
Qed.

Lemma inputs2_registrable : Forall (registrable disk2) inputs2.
Proof.
  unfold inputs2. apply Forall_cons_2; [|apply Forall_cons_2; [|apply Forall_nil_2]].
  - split; [vm_compute; discriminate|]. exists [x68; x69].
    split; [reflexivity|vm_compute; discriminate].
  - split; [vm_compute; discriminate|]. exists [x79; x6f; x75].
    split; [reflexivity|vm_compute; discriminate].
Qed.

Lemma inputs2_names :
  Forall (fun input => nul_free (snd input) /\ fst input <> "o.pak"%string) inputs2.
Proof.
  unfold inputs2. apply Forall_cons_2; [|apply Forall_cons_2; [|apply Forall_nil_2]].
  - split; [solve_nul_free|discriminate].
  - split; [solve_nul_free|discriminate].
Qed.

(** X16. What the reader lists is what the builder was given.  For a
    non-empty list of (source, name) pairs accepted by [add_file], with
    NUL-free names, written to a creatable path that is none of the
    sources, with an archive below 4 GiB: iterating over the opened
    archive yields one item per pair, in registration order, the i-th with
    the i-th name, the size of the i-th source, and the offset
    12 + 64 n + the sizes of the sources before it; and [stat] of a name
    reports the size and offset of the first pair registered under it. *)
Theorem build_open_listing (can_create : string -> bool) (fs : filesystem)
  (inputs : list (string * string)) (pak : string) (garbage : list byte) :
  inputs <> [] ->
  Forall (registrable fs) inputs ->
  Forall (fun input => nul_free (snd input) /\ fst input <> pak) inputs ->
  archive_size (map (pending fs) inputs) < 2 ^ 32 ->
  can_create pak = true ->
  exists b b' fs1 a views,
    add_files fs inputs pak_builder.init = Ret true b /\
    pak_builder.write can_create pak garbage (b, fs) = Ret true (b', fs1) /\
    pak_archive.open fs1 pak pak_archive.init = Ret true a /\
    pak_archive.enumerate a = Some views /\
    length views = length inputs /\
    forall (i : nat) disk_path name,
      inputs !! i = Some (disk_path, name) ->
      let offset := 12 + 64 * Z.of_nat (length inputs)
                    + total_size (take i (map (pending fs) inputs)) in
      let size := Z.of_nat (length (file_bytes fs disk_path)) in
      views !! i = Some (name, pak_file_details_t.mk offset size) /\
      ((forall (j : nat) input, inputs !! j = Some input -> (j < i)%nat -> snd input <> name) ->
       forall file_size0 offset0,
         pak_archive.stat name file_size0 offset0 a = Ret (true, size, offset) a).
Proof.
  intros Hne Hreg Hnames Hfit Hc.
  destruct (built_archive can_create fs inputs pak garbage Hne Hreg Hnames Hfit Hc)
    as (Hadd & Hw & Hopen & Hlend & Hsrc).
  set (files := map (pending fs) inputs) in *.
  set (n := Z.of_nat (length inputs)) in *.
  set (es := listing_entries (12 + 64 * n) files) in *.
  set (data := layout_bytes files ++ concat (sources fs files)) in *.
  assert (Hlene : length es = length inputs).
  { subst es files. by rewrite length_listing_entries, length_map. }
  assert (Hn : 64 * n < 2 ^ 32).
  { pose proof (total_size_nonneg _ (sources_present_sizes_ok _ _ _ Hsrc)).
    unfold archive_size in Hfit. fold files in Hfit. subst files n.
    rewrite length_map in Hfit. lia. }
  eexists _, _, _, _, (map entry_view es).
  split; [exact Hadd|]. split; [exact Hw|]. split; [exact Hopen|].
  split; [|split].
  - apply enumerate_spec. cbn [pak_archive.m_files]. rewrite Hlene. fold n. lia.
  - by rewrite length_map.
  - intros i d nm Hi offset size.
    destruct (built_entry fs inputs pak i d nm Hreg Hnames Hfit Hi)
      as (e & He & Hnm & Hoff & Hsz & _).
    fold files n es offset size in He, Hoff, Hsz.
    split.
    + rewrite list_lookup_fmap, He. cbn. unfold entry_view. by rewrite Hnm, Hoff, Hsz.
    + intros Hfirst fz0 off0. unfold pak_archive.stat. cbn [pak_archive.m_lookupMap pak_archive.m_files].
      pose proof (built_index fs inputs pak i d nm Hreg Hnames Hfit Hi Hfirst) as Hidx.
      fold files n es in Hidx. rewrite Hidx, He. by rewrite Hoff, Hsz.
Qed.

Lemma build_open_listing_witness :
  exists b b' fs1 a,
    add_files disk2 inputs2 pak_builder.init = Ret true b /\
    pak_builder.write always "o.pak" [] (b, disk2) = Ret true (b', fs1) /\
    pak_archive.open fs1 "o.pak" pak_archive.init = Ret true a /\
    pak_archive.enumerate a
    = Some [("a.txt"%string, pak_file_details_t.mk 140 2);
            ("dir/b.txt"%string, pak_file_details_t.mk 142 3)].
Proof.
  destruct (build_open_listing always disk2 inputs2 "o.pak" [])
    as (b & b' & fs1 & a & views & Ha & Hw & Ho & He & Hl & Hv).
  - discriminate.
  - exact inputs2_registrable.
  - exact inputs2_names.
  - vm_compute. reflexivity.
  - reflexivity.
  - exists b, b', fs1, a.
    split; [exact Ha|]. split; [exact Hw|]. split; [exact Ho|].
    rewrite He. f_equal.
    destruct (Hv 0%nat "a.txt"%string "a.txt"%string eq_refl) as [H0 _].
    destruct (Hv 1%nat "b.txt"%string "dir/b.txt"%string eq_refl) as [H1 _].
    destruct views as [|v0 [|v1 [|v2 views]]]; try discriminate Hl.
    cbn in H0, H1. injection H0 as ->. injection H1 as ->. reflexivity.
Defined.

(** X17. Round trip through [read_file].  On an archive built as above,
    [read_file] of a name, with the size of the first source registered
    under that name as [max_size], stores exactly the bytes of that
    source, wherever the cursor stood; but it returns [true] only when
    the source is not empty: an empty file cannot be told from a
    failure. *)
Theorem build_open_read_file (can_create : string -> bool) (fs : filesystem)
  (inputs : list (string * string)) (pak : string) (garbage : list byte) :
  inputs <> [] ->
  Forall (registrable fs) inputs ->
  Forall (fun input => nul_free (snd input) /\ fst input <> pak) inputs ->
  archive_size (map (pending fs) inputs) < 2 ^ 32 ->
  can_create pak = true ->
  exists b b' fs1 a,
    add_files fs inputs pak_builder.init = Ret true b /\
    pak_builder.write can_create pak garbage (b, fs) = Ret true (b', fs1) /\
    pak_archive.open fs1 pak pak_archive.init = Ret true a /\
    forall (i : nat) disk_path name,
      inputs !! i = Some (disk_path, name) ->
      (forall (j : nat) input, inputs !! j = Some input -> (j < i)%nat -> snd input <> name) ->
      forall pos (fs2 : filesystem), fs2 !! pak = fs1 !! pak ->
        exists ok pos',
          pak_archive.read_file fs2 name (Z.of_nat (length (file_bytes fs disk_path)))
            (pak_archive.set_m_file (stream (mkFILE pak pos)) a)
          = Ret (ok, file_bytes fs disk_path)
                (pak_archive.set_m_file (stream (mkFILE pak pos')) a) /\
          (ok = true <-> file_bytes fs disk_path <> []).
Proof.
  intros Hne Hreg Hnames Hfit Hc.
  destruct (built_archive can_create fs inputs pak garbage Hne Hreg Hnames Hfit Hc)
    as (Hadd & Hw & Hopen & Hlend & Hsrc).
  set (files := map (pending fs) inputs) in *.
  set (n := Z.of_nat (length inputs)) in *.
  set (es := listing_entries (12 + 64 * n) files) in *.
  set (data := layout_bytes files ++ concat (sources fs files)) in *.
  eexists _, _, _, _.
  split; [exact Hadd|]. split; [exact Hw|]. split; [exact Hopen|].
  intros i d nm Hi Hfirst pos fs2 Hfs2. rewrite lookup_insert_eq in Hfs2.
  destruct (built_entry fs inputs pak i d nm Hreg Hnames Hfit Hi)
    as (e & He & Hnm & Hoff & Hsz & Hlo & Hsz0 & Hhi).
  fold files n es in He, Hoff, Hsz, Hlo, Hhi.
  pose proof (built_index fs inputs pak i d nm Hreg Hnames Hfit Hi Hfirst) as Hidx.
  fold files n es in Hidx.
  assert (Hfi : files !! i = Some (pending fs (d, nm))).
  { subst files. by rewrite list_lookup_fmap, Hi. }
  pose proof (archive_data_at fs pak files i _ (layout_bytes files) Hsrc Hfi) as Hat.
  cbn [pending pak_builder.file_t.size pak_builder.file_t.disk_path fst] in Hat.
  rewrite length_layout_bytes in Hat. subst files. rewrite length_map in Hat.
  set (files := map (pending fs) inputs) in *. fold n in Hat. fold data in Hat.
  unfold pak_archive.read_file.
  cbn [pak_archive.set_m_file pak_archive.m_lookupMap pak_archive.m_files pak_archive.m_file].
  rewrite Hidx, He. unfold fread, fseek_set. cbn [f_path f_pos].
  assert (Hfb : file_bytes fs2 pak = data) by (unfold file_bytes; by rewrite Hfs2).
  rewrite Hfb, Hoff, Hat. eexists _, _. split; [reflexivity|].
  rewrite Nat2Z.id in Hat.
  destruct (file_bytes fs d) as [|c cs] eqn:Hd.
  - cbn. split; [discriminate|done].
  - split; [done|intros _]. cbn [length]. rewrite Z.eqb_refl.
    by destruct (Z.ltb_spec 0 (Z.of_nat (S (length cs)))); [|lia].
Qed.

Lemma build_open_read_file_witness :
  exists b b' fs1 a,
    add_files disk2 inputs2 pak_builder.init = Ret true b /\
    pak_builder.write always "o.pak" [] (b, disk2) = Ret true (b', fs1) /\
    pak_archive.open fs1 "o.pak" pak_archive.init = Ret true a /\
    exists ok pos',
      pak_archive.read_file fs1 "dir/b.txt" 3 (pak_archive.set_m_file (stream (mkFILE "o.pak" 0)) a)
      = Ret (ok, [x79; x6f; x75]) (pak_archive.set_m_file (stream (mkFILE "o.pak" pos')) a).
Proof.
  destruct (build_open_read_file always disk2 inputs2 "o.pak" [])
    as (b & b' & fs1 & a & Ha & Hw & Ho & Hr).
  - discriminate.
  - exact inputs2_registrable.
  - exact inputs2_names.
  - vm_compute. reflexivity.
  - reflexivity.
  - exists b, b', fs1, a.
    split; [exact Ha|]. split; [exact Hw|]. split; [exact Ho|].
    assert (Hfirst : forall (j : nat) (input : string * string),
              inputs2 !! j = Some input -> (j < 1)%nat -> snd input <> "dir/b.txt"%string).
    { intros [|j] input Hj Hlt; [|lia]. inversion Hj. discriminate. }
    destruct (Hr 1%nat "b.txt"%string "dir/b.txt"%string eq_refl Hfirst 0 fs1 eq_refl)
      as (ok & pos' & Hread & _).
    exists ok, pos'. exact Hread.
Defined.

(** ** The destructor *)

Lemma open_m_file (fs : filesystem) (path : string) (a a' : pak_archive.t) :
  (pak_archive.open fs path a = Ret true a' -> exists f, pak_archive.m_file a' = stream f) /\
  (forall e, pak_archive.open fs path a = Exn e a' ->
             exists f, pak_archive.m_file a' = stream f) /\
  (pak_archive.open fs path a = Ret false a' ->
   pak_archive.m_file a' = match fs !! path with None => nullptr | Some _ => closed_stream end).
Proof.
  unfold pak_archive.open, pak_archive.close.
  split; [|split]; [intros H|intros e H|intros H];
    destruct (pak_archive.m_file a); cbn [bind] in H;
    repeat case_match; try discriminate H; inversion H; subst; cbn; eauto.
Qed.

(** X18. Destroying a reader after [open]: defined when [open] returned
    [true], threw, or found no file at the path; undefined (a second
    [fclose] of the same stream) whenever [open] returned [false] for a
    file that exists, that is after [InvalidHeader] and
    [InvalidFileEntry]. *)
Theorem destructor_after_open (fs : filesystem) (path : string) (a a' : pak_archive.t) :
  (pak_archive.open fs path a = Ret true a' -> pak_archive_destructor a' = Ret tt a') /\
  (forall e, pak_archive.open fs path a = Exn e a' -> pak_archive_destructor a' = Ret tt a') /\
  (pak_archive.open fs path a = Ret false a' ->
   pak_archive_destructor a' = match fs !! path with Some _ => UB | None => Ret tt a' end).
Proof.
  destruct (open_m_file fs path a a') as (Ht & He & Hf).
  unfold pak_archive_destructor. split; [|split].
  - intros H. destruct (Ht H) as [f ->]. reflexivity.
  - intros e H. destruct (He e H) as [f ->]. reflexivity.
  - intros H. rewrite (Hf H). by destruct (fs !! path).
Qed.

Lemma destructor_after_open_witness :
  exists a', pak_archive.open disk2 "a.txt" pak_archive.init = Ret false a' /\
             pak_archive_destructor a' = UB.
Proof.
  eexists. split; [vm_compute; reflexivity|].
  eapply eq_trans.
  - apply (proj2 (proj2 (destructor_after_open disk2 "a.txt" pak_archive.init _))).
    vm_compute. reflexivity.
  - reflexivity.
Defined.

(** ** [main]: the names given to files and directories *)

Lemma occurs_head c set : paktool.occurs c (String c set) = true.
Proof. cbn. by rewrite Ascii.eqb_refl. Qed.

Lemma string_app_cons c (s t : string) : String c s +:+ t = String c (s +:+ t).
Proof. reflexivity. Qed.

Lemma string_app_nil (t : string) : EmptyString +:+ t = t.
Proof. reflexivity. Qed.

Lemma string_drop_app (s t : string) (n : nat) :
  paktool.string_drop (String.length s + n) (s +:+ t) = paktool.string_drop n t.
Proof.
  induction s as [|c s IH]; [done|].
  rewrite string_app_cons. cbn [String.length Nat.add paktool.string_drop]. exact IH.
Qed.

Lemma erase_0 s (count : nat) : paktool.erase s 0 count = Some (paktool.string_drop count s).
Proof. by destruct s. Qed.

Lemma string_app_assoc (s t u : string) : (s +:+ t) +:+ u = s +:+ (t +:+ u).
Proof.
  induction s as [|c s IH]; [done|]. rewrite !string_app_cons. by rewrite IH.
Qed.

Lemma find_first_of_lt s set (i : nat) :
  paktool.find_first_of s set = Some i -> (i < String.length s)%nat.
Proof.
  revert i. induction s as [|c s IH]; intros i; cbn; [done|].
  destruct (paktool.occurs c set).
  - intros [= <-]. lia.
  - destruct (paktool.find_first_of s set) as [j|]; [|done].
    intros [= <-]. specialize (IH j eq_refl). lia.
Qed.

Lemma find_last_of_lt s set (i : nat) :
  paktool.find_last_of s set = Some i -> (i < String.length s)%nat.
Proof.
  revert i. induction s as [|c s IH]; intros i; cbn; [done|].
  destruct (paktool.find_last_of s set) as [j|].
  - intros [= <-]. specialize (IH j eq_refl). lia.
  - destruct (paktool.occurs c set); [|done]. intros [= <-]. lia.
Qed.

Lemma erase_is_Some s (pos count : nat) :
  (pos <= String.length s)%nat -> is_Some (paktool.erase s pos count).
Proof.
  revert pos. induction s as [|c s IH]; intros [|pos] Hpos; cbn in *; try by eexists.
  - lia.
  - destruct (IH pos ltac:(lia)) as [r ->]. by eexists.
Qed.

Lemma erase_at_is_Some s (l : nat) :
  (l < String.length s)%nat -> is_Some (paktool.erase_at s l).
Proof.
  revert l. induction s as [|c s IH]; intros [|l] Hl; cbn in *; try lia; try by eexists.
  destruct (IH l ltac:(lia)) as [r ->]. by eexists.
Qed.

Lemma find_last_of_app stem ext c :
  paktool.find_last_of ext (String c EmptyString) = None ->
  paktool.find_last_of (stem +:+ String c ext) (String c EmptyString)
  = Some (String.length stem).
Proof.
  intros Hext. induction stem as [|d stem IH].
  - rewrite string_app_nil. cbn [paktool.find_last_of String.length].
    by rewrite Hext, occurs_head.
  - rewrite string_app_cons. cbn [paktool.find_last_of String.length]. by rewrite IH.
Qed.

Lemma erase_at_app stem ext c :
  paktool.erase_at (stem +:+ String c ext) (String.length stem) = Some (stem +:+ ext).
Proof.
  induction stem as [|d stem IH]; [done|].
  rewrite !string_app_cons. cbn [String.length paktool.erase_at]. by rewrite IH.
Qed.

Lemma pak_name_prefix (dir rest : string) :
  dir <> EmptyString ->
  paktool.pak_name dir (dir +:+ rest) = Some (paktool.string_drop 1 rest).
Proof.
  intros Hdir. unfold paktool.pak_name.
  assert (Hf : paktool.find_first_of (dir +:+ rest) dir = Some 0%nat).
  { destruct dir as [|c dir]; [done|].
    rewrite string_app_cons. cbn [paktool.find_first_of]. by rewrite occurs_head. }
  by rewrite Hf, erase_0, string_drop_app.
Qed.

(** X19. The name a file gets inside the archive.  Computing it never
    throws.  For the paths a directory iterator produces, which start
    with the non-empty [dir] given on the command line, the name is the
    path without its first [dir.size() + 1] characters: the part after
    the separator when [dir] is followed by one, and the relative path
    short of its first character when [dir] itself ends with the
    separator. *)
Theorem pak_name_of_path (dir rest : string) :
  (forall pp, is_Some (paktool.pak_name dir pp)) /\
  (dir <> EmptyString ->
   paktool.pak_name dir (dir +:+ rest) = Some (paktool.string_drop 1 rest) /\
   forall sep rel, rest = String sep rel -> paktool.pak_name dir (dir +:+ rest) = Some rel).
Proof.
  split.
  - intros pp. unfold paktool.pak_name.
    destruct (paktool.find_first_of pp dir) as [pos|] eqn:E; [|by eexists].
    apply erase_is_Some. apply find_first_of_lt in E. lia.
  - intros Hdir.
    pose proof (pak_name_prefix dir rest Hdir) as H.
    split; [exact H|]. intros sep rel ->. exact H.
Qed.

Lemma pak_name_of_path_witness :
  paktool.pak_name "data" "data/maps/e1m1.bsp" = Some "maps/e1m1.bsp"%string /\
  paktool.pak_name "data/" "data/maps/e1m1.bsp" = Some "aps/e1m1.bsp"%string.
Proof.
  split.
  - apply (proj2 (proj2 (pak_name_of_path "data" "/maps/e1m1.bsp") ltac:(discriminate))
             "/"%char "maps/e1m1.bsp"%string eq_refl).
  - apply (proj1 (proj2 (pak_name_of_path "data/" "maps/e1m1.bsp") ltac:(discriminate))).
Defined.

(** X20. Where files go when [-o] names no directory.  The default is
    the archive path with its last dot deleted (not the extension) and a
    slash appended, and every output path then has two slashes; an
    archive path without any dot makes the computation undefined. *)
Theorem default_output_dir (apath : string) :
  (paktool.find_last_of apath "." = None <-> paktool.output_dir apath "" = None) /\
  forall stem ext name,
    apath = stem +:+ String "." ext -> paktool.find_last_of ext "." = None ->
    paktool.output_dir apath "" = Some (stem +:+ ext +:+ "/") /\
    paktool.output_path (stem +:+ ext +:+ "/") name = stem +:+ ext +:+ "//" +:+ name.
Proof.
  unfold paktool.output_dir. destruct (decide ("" = ""))%string as [_|Hne]; [|done].
  unfold paktool.default_odir. split.
  - split; [by intros ->|].
    destruct (paktool.find_last_of apath ".") as [l|] eqn:E; [|done].
    destruct (erase_at_is_Some apath l (find_last_of_lt _ _ _ E)) as [r ->]. done.
  - intros stem ext name -> Hext. rewrite find_last_of_app by done.
    rewrite erase_at_app. cbn [fmap option_fmap option_map]. split.
    + by rewrite string_app_assoc.
    + unfold paktool.output_path. by rewrite !string_app_assoc.
Qed.

Lemma default_output_dir_witness :
  paktool.output_dir "pak0.pak" "" = Some "pak0pak/"%string /\
  paktool.output_path "pak0pak/" "maps/e1m1.bsp" = "pak0pak//maps/e1m1.bsp"%string.
Proof.
  apply (proj2 (default_output_dir "pak0.pak") "pak0" "pak" "maps/e1m1.bsp"%string).
  - reflexivity.
  - reflexivity.
Defined.

(** ** [main]: creating an archive *)

Lemma pak_name_is_Some dir pp : is_Some (paktool.pak_name dir pp).
Proof.
  unfold paktool.pak_name.
  destruct (paktool.find_first_of pp dir) as [pos|] eqn:E; [|by eexists].
  apply erase_is_Some. apply find_first_of_lt in E. lia.
Qed.

Lemma length_named_entries dir entries :
  (length (named_entries dir entries) <= length entries)%nat.
Proof.
  unfold named_entries. induction entries as [|e entries IH]; cbn; [lia|].
  destruct (if snd e then _ else _); cbn; lia.
Qed.

Lemma add_entries_spec fs dir : forall entries filecount b,
  Forall (fun e => snd e = false -> is_Some (fs !! fst e)) entries ->
  0 <= filecount -> filecount + Z.of_nat (length (named_entries dir entries)) < 2 ^ 31 ->
  paktool.add_entries fs dir entries filecount b
  = Ret (filecount + Z.of_nat (length (named_entries dir entries)))
        (pak_builder.mk (pak_builder.m_files b
                         ++ map (pending fs) (filter (accepted fs) (named_entries dir entries)))).
Proof.
  induction entries as [|[path is_dir] entries IH]; intros filecount b Hex Hc Hfit.
  - cbn. rewrite Z.add_0_r, app_nil_r. by destruct b.
  - inversion Hex as [|? ? Hpath Hex']; subst.
    cbn [paktool.add_entries]. unfold named_entries in Hfit |- *.
    cbn [omap list_omap snd fst] in Hfit |- *.
    fold (named_entries dir entries) in Hfit |- *. destruct is_dir.
    + apply IH; [done|lia|lia].
    + destruct (pak_name_is_Some dir path) as [pp Hpp]. rewrite Hpp in Hfit |- *.
      cbn [fmap option_fmap option_map] in Hfit |- *. cbn [length] in Hfit |- *.
      destruct (Hpath eq_refl) as [data Hdata]. cbn [fst] in Hdata.
      assert (Hacc : accepted fs (path, pp)
                     = (Z.of_nat (String.length pp) <=? MAX_PAK_NAME_LEN)
                       && (Z.of_nat (length data) <=? UINT32_MAX)).
      { unfold accepted. cbn [fst snd]. by rewrite (file_bytes_Some _ _ _ Hdata). }
      assert (Hpend : pending fs (path, pp)
                      = pak_builder.file_t.mk path
                          (overwrite (zeros 57) (strncpy (string_c_str pp) 56)) 0
                          (Z.of_nat (length data))).
      { unfold pending. cbn [fst snd]. by rewrite (file_bytes_Some _ _ _ Hdata). }
      pose proof (length_named_entries dir entries) as Hlen.
      rewrite filter_cons.
      unfold pak_builder.add_file. rewrite Hdata. cbv zeta.
      destruct (Z.ltb_spec MAX_PAK_NAME_LEN (Z.of_nat (String.length pp))) as [Hlong|Hshort];
        [|destruct (Z.ltb_spec UINT32_MAX (Z.of_nat (length data))) as [Hbig|Hsmall]];
        cbn [bind]; rewrite to_int_small by lia; rewrite IH by (done || lia).
      * rewrite (proj2 (Z.leb_gt _ _) Hlong) in Hacc. cbn [andb] in Hacc.
        rewrite decide_False by (rewrite Hacc; exact id). f_equal. lia.
      * rewrite (proj2 (Z.leb_gt _ _) Hbig), andb_false_r in Hacc.
        rewrite decide_False by (rewrite Hacc; exact id). f_equal. lia.
      * rewrite (proj2 (Z.leb_le _ _) Hshort), (proj2 (Z.leb_le _ _) Hsmall) in Hacc.
        rewrite decide_True by (rewrite Hacc; exact I).
        cbn [pak_builder.m_files map]. rewrite <- app_assoc. cbn [app]. rewrite Hpend.
        f_equal. lia.
Qed.

Lemma named_entries_elem dir entries p pp :
  (p, pp) ∈ named_entries dir entries ->
  (p, false) ∈ entries /\ paktool.pak_name dir p = Some pp.
Proof.
  unfold named_entries. intros H. apply list_elem_of_omap in H as ([q is_dir] & Hin & He).
  cbn [fst snd] in He. destruct is_dir; [discriminate He|].
  destruct (paktool.pak_name dir q) as [pp'|] eqn:E; [|discriminate He].
  cbn in He. injection He as -> ->. done.
Qed.

Lemma stored_sources_present fs dir out entries :
  Forall (fun e => snd e = false -> is_Some (fs !! fst e) /\ fst e <> out) entries ->
  sources_present fs out (map (pending fs) (filter (accepted fs) (named_entries dir entries))).
Proof.
  intros Hex. unfold sources_present. apply Forall_forall. intros f Hf.
  apply list_elem_of_fmap in Hf as ([p pp] & -> & Hin).
  apply list_elem_of_filter in Hin as [_ Hin].
  apply named_entries_elem in Hin as [Hin _].
  rewrite Forall_forall in Hex. destruct (Hex _ Hin eq_refl) as [[data Hd] Hne].
  cbn [fst] in Hd, Hne. cbn [pending pak_builder.file_t.disk_path pak_builder.file_t.size fst].
  split; [exact Hne|]. exists data. split; [exact Hd|]. by rewrite (file_bytes_Some _ _ _ Hd).
Qed.

(** X21. [-c] reports the files it found, not the files it stored.  When
    every file the directory iterator produces can be measured, the output
    can be created and is none of them, and what is stored fits the 32-bit
    fields, the tool exits with 0 and reports one file per non-directory
    entry; the archive written holds only those that pass the two checks
    of [add_file] (name of at most 56 bytes, size of at most
    [UINT32_MAX]), with their bytes back to back; the others are dropped
    without a message. *)
Theorem create_reports_candidates (can_create : string -> bool) (dir out : string)
  (entries : list (string * bool)) (garbage : list byte) (fs : filesystem) :
  Forall (fun e => snd e = false -> is_Some (fs !! fst e) /\ fst e <> out) entries ->
  Z.of_nat (length entries) < 2 ^ 31 ->
  can_create out = true ->
  let stored := map (pending fs) (filter (accepted fs) (named_entries dir entries)) in
  archive_size stored < 2 ^ 32 ->
  paktool.create can_create dir out entries garbage fs
  = Ret (0, Z.of_nat (length (named_entries dir entries)))
        (<[out := layout_bytes stored ++ concat (sources fs stored)]> fs) /\
  (length stored <= length (named_entries dir entries))%nat.
Proof.
  intros Hex Hlen Hc stored Hfit. split.
  - pose proof (length_named_entries dir entries) as Hle.
    unfold paktool.create. rewrite add_entries_spec; [|..|lia|lia].
    2:{ eapply Forall_impl; [exact Hex|]. cbn. intros e He Hs. by destruct (He Hs). }
    cbn [pak_builder.init pak_builder.m_files app]. fold stored. rewrite Z.add_0_l.
    rewrite (write_spec can_create out garbage (pak_builder.mk stored) fs Hc
               (stored_sources_present fs dir out entries Hex) Hfit).
    cbv zeta. cbn [pak_builder.m_files]. unfold layout_bytes. by rewrite <- app_assoc.
  - subst stored. rewrite length_map. apply length_filter.
Qed.

Lemma create_reports_candidates_witness :
  exists fs1,
    paktool.create always "d" "o.pak" long_entries [] long_disk = Ret (0, 2) fs1 /\
    length (file_bytes fs1 "o.pak") = 78%nat.
Proof.
  destruct (create_reports_candidates always "d" "o.pak" long_entries [] long_disk)
    as [Hc _].
  - apply (bool_decide_unpack _). vm_compute. exact I.
  - vm_compute. reflexivity.
  - reflexivity.
  - vm_compute. reflexivity.
  - assert (Hn : Z.of_nat (length (named_entries "d" long_entries)) = 2)
      by (vm_compute; reflexivity).
    rewrite Hn in Hc. eexists. split; [exact Hc|]. vm_compute. reflexivity.
Defined.

(** ** [main]: extracting an archive *)

Lemma open_true_Loaded fs path a0 a :
  pak_archive.open fs path a0 = Ret true a ->
  Loaded a /\ Z.of_nat (length (pak_archive.m_files a)) < 2 ^ 31.
Proof.
  intros H. pose proof (open_true_Open_ok _ _ _ _ H) as Hok.
  destruct (open_true_state _ _ _ _ H) as (data & Hdata & Hst).
  cbv zeta in Hst. destruct Hst as (Hsz & Hpos & Htab & Ha).
  destruct (header_fields_range (take 12 data)) as [_ Hs].
  split; [split; [exact Hok|]|].
  - rewrite Ha. cbn [pak_archive.m_files pak_archive.m_lookupMap]. intros e He.
    rewrite populate_lookup, lookup_empty.
    destruct (first_named _ _) as [i|] eqn:Hi; [by eexists|].
    assert (Hsome : is_Some (first_named (pak_archive.entry_name e)
                               (pak_archive.vector_of_bytes
                                  (Z.to_nat (pak_header_t.size
                                               (pak_header_t.decode (take 12 data)) / 64))
                                  (take (Z.to_nat (pak_header_t.size
                                                     (pak_header_t.decode (take 12 data))))
                                     (drop (Z.to_nat (pak_header_t.offset
                                                        (pak_header_t.decode (take 12 data))))
                                        data)))))
      by (apply first_named_is_Some; by exists e).
    rewrite Hi in Hsome. by destruct Hsome.
  - rewrite Ha. cbn [pak_archive.m_files]. rewrite length_vector_of_bytes. lia.
Qed.

(** The directory calls of the loop body throw nothing but
    [filesystem_error]: the position that [erase] gets is inside the name. *)
Lemma erase_from_is_Some s pos :
  (pos <= String.length s)%nat -> is_Some (paktool.erase_from s pos).
Proof.
  revert s. induction pos as [|pos IH]; intros s Hpos.
  - destruct s; by eexists.
  - destruct s as [|c s]; cbn [String.length] in Hpos; [lia|].
    cbn [paktool.erase_from]. destruct (IH s ltac:(lia)) as [r ->]. by eexists.
Qed.

Lemma ensure_directory_throws can_mkdirs odir name e :
  paktool.ensure_directory can_mkdirs odir name = Some e -> e = filesystem_error.
Proof.
  unfold paktool.ensure_directory.
  destruct (paktool.find_last_of name "/") as [pos|] eqn:Hpos; [|discriminate].
  apply find_last_of_lt in Hpos.
  destruct (erase_from_is_Some name pos ltac:(lia)) as [dir ->].
  destruct (can_mkdirs _); [discriminate|]. by intros [= <-].
Qed.

Lemma ensure_directory_None can_mkdirs odir name :
  (forall p, can_mkdirs p = true) -> paktool.ensure_directory can_mkdirs odir name = None.
Proof.
  intros Hall. unfold paktool.ensure_directory.
  destruct (paktool.find_last_of name "/") as [pos|] eqn:Hpos; [|done].
  apply find_last_of_lt in Hpos.
  destruct (erase_from_is_Some name pos ltac:(lia)) as [dir ->].
  by rewrite Hall.
Qed.

(** The loop rule of [for (auto [name, d] : archive)], for the first [m]
    of [n] rounds: an invariant kept by each of them holds after them; the
    loop is then left if they were all the rounds, and an exception of the
    next directory call ends it there. *)
Lemma extract_entries_rule can_create can_mkdirs odir garbage (n m : nat) last
  (Inv : nat -> list string -> pak_archive.t * filesystem -> Prop) :
  Z.of_nat n < 2 ^ 31 -> pak_archive.it_m_file last = Z.of_nat n -> (m <= n)%nat ->
  (forall (k : nat) unable st, (k < m)%nat -> Inv k unable st ->
     exists name d ok st',
       pak_archive.deref (fst st) (pak_archive.mkiterator (Z.of_nat k)) = Some (name, d) /\
       paktool.ensure_directory can_mkdirs odir name = None /\
       pak_archive.extract_file can_create name (paktool.output_path odir name)
         (garbage (Z.of_nat k)) st = Ret ok st' /\
       Inv (S k) (if ok then unable else unable ++ [name]) st') ->
  forall (fuel k : nat) unable st, (k + fuel = n)%nat -> (k <= m)%nat -> Inv k unable st ->
    exists unable' st',
      Inv m unable' st' /\
      (m = n ->
       paktool.extract_entries can_create can_mkdirs fuel odir garbage last
         (pak_archive.mkiterator (Z.of_nat k)) unable st = Ret unable' st') /\
      (forall name d e,
         (m < n)%nat ->
         pak_archive.deref (fst st') (pak_archive.mkiterator (Z.of_nat m)) = Some (name, d) ->
         paktool.ensure_directory can_mkdirs odir name = Some e ->
         paktool.extract_entries can_create can_mkdirs fuel odir garbage last
           (pak_archive.mkiterator (Z.of_nat k)) unable st = Exn e st').
Proof.
  intros Hn Hlast Hmn Hstep. induction fuel as [|fuel IH]; intros k unable st Hk Hkm Hinv.
  - assert (k = n) by lia. subst k. assert (m = n) by lia. subst m.
    exists unable, st. split; [exact Hinv|]. split; [|intros; lia].
    intros _. cbn [paktool.extract_entries pak_archive.it_m_file].
    by rewrite Hlast, Z.eqb_refl.
  - destruct (decide (k = m)) as [->|Hne].
    + exists unable, st. split; [exact Hinv|]. split; [intros; lia|].
      intros name d e Hlt Hd He.
      cbn [paktool.extract_entries pak_archive.it_m_file]. rewrite Hlast.
      destruct (Z.eqb_spec (Z.of_nat m) (Z.of_nat n)) as [Heq|_]; [lia|].
      by rewrite Hd, He.
    + destruct (Hstep k unable st ltac:(lia) Hinv)
        as (name & d & ok & st' & Hd & Hdir & Hx & Hinv').
      destruct (IH (S k) (if ok then unable else unable ++ [name]) st' ltac:(lia) ltac:(lia)
                  Hinv') as (unable' & st'' & Hinv'' & Hret & Hexn).
      assert (Hunfold : forall r,
                paktool.extract_entries can_create can_mkdirs fuel odir garbage last
                  (pak_archive.mkiterator (Z.of_nat (S k)))
                  (if ok then unable else unable ++ [name]) st' = r ->
                paktool.extract_entries can_create can_mkdirs (S fuel) odir garbage last
                  (pak_archive.mkiterator (Z.of_nat k)) unable st = r).
      { intros r Hr. cbn [paktool.extract_entries pak_archive.it_m_file]. rewrite Hlast.
        destruct (Z.eqb_spec (Z.of_nat k) (Z.of_nat n)) as [Heq|_]; [lia|].
        rewrite Hd, Hdir. cbv zeta. rewrite Hx. cbn [bind].
        unfold pak_archive.incr. cbn [pak_archive.it_m_file].
        rewrite to_int_small by lia.
        replace (Z.of_nat k + 1) with (Z.of_nat (S k)) by lia. exact Hr. }
      exists unable', st''. split; [exact Hinv''|]. split.
      * intros Heq. apply Hunfold. by apply Hret.
      * intros name' d' e Hlt Hd' He. apply Hunfold. by apply (Hexn name' d').
Qed.

Lemma deref_lookup a (k : nat) e :
  pak_archive.m_files a !! k = Some e ->
  pak_archive.deref a (pak_archive.mkiterator (Z.of_nat k))
  = Some (pak_archive.entry_name e,
          pak_file_details_t.mk (pak_file_t.offset e) (pak_file_t.size e)).
Proof.
  intros He. unfold pak_archive.deref. cbn [pak_archive.it_m_file].
  destruct (Z.ltb_spec (Z.of_nat k) 0) as [?|_]; [lia|].
  by rewrite Nat2Z.id, He.
Qed.

Lemma output_path_inj odir name name' :
  paktool.output_path odir name = paktool.output_path odir name' -> name = name'.
Proof. unfold paktool.output_path. apply String.app_inj. Qed.

Lemma uncreatable_snoc can_create odir files e :
  uncreatable can_create odir (files ++ [e])
  = uncreatable can_create odir files
    ++ (if can_create (paktool.output_path odir (pak_archive.entry_name e)) then []
        else [pak_archive.entry_name e]).
Proof.
  unfold uncreatable. rewrite map_app, filter_app. f_equal. cbn [map].
  rewrite filter_cons, filter_nil.
  destruct (decide _) as [Hd|Hd]; cbn beta in Hd.
  - by rewrite Hd.
  - by destruct (can_create _).
Qed.

Lemma extract_entries_loaded can_create can_mkdirs odir garbage a fs (m : nat) :
  Loaded a -> Z.of_nat (length (pak_archive.m_files a)) < 2 ^ 31 ->
  (m <= length (pak_archive.m_files a))%nat ->
  directories_ok can_mkdirs odir (take m (pak_archive.m_files a)) ->
  exists a' fs',
    Loaded a' /\ same_entries a a' /\
    (forall p, (forall e, e ∈ take m (pak_archive.m_files a) ->
                          p <> paktool.output_path odir (pak_archive.entry_name e)) ->
               fs' !! p = fs !! p) /\
    (forall name (i : nat) e,
       pak_archive.m_lookupMap a !! name = Some i -> pak_archive.m_files a !! i = Some e ->
       name ∈ map pak_archive.entry_name (take m (pak_archive.m_files a)) ->
       can_create (paktool.output_path odir name) = true ->
       exists w, fs' !! paktool.output_path odir name = Some w /\
                 Z.of_nat (length w) = pak_file_t.size e) /\
    (m = length (pak_archive.m_files a) ->
     paktool.extract_entries can_create can_mkdirs (length (pak_archive.m_files a)) odir
       garbage (pak_archive.end_ a) (pak_archive.begin a) [] (a, fs)
     = Ret (uncreatable can_create odir (pak_archive.m_files a)) (a', fs')) /\
    (forall e exn,
       pak_archive.m_files a !! m = Some e ->
       paktool.ensure_directory can_mkdirs odir (pak_archive.entry_name e) = Some exn ->
       paktool.extract_entries can_create can_mkdirs (length (pak_archive.m_files a)) odir
         garbage (pak_archive.end_ a) (pak_archive.begin a) [] (a, fs)
       = Exn exn (a', fs')).
Proof.
  intros Hl Hn Hm Hdirs.
  set (files := pak_archive.m_files a) in *.
  set (Inv := fun (k : nat) (unable : list string) (st : pak_archive.t * filesystem) =>
    Loaded (fst st) /\ same_entries a (fst st) /\
    unable = uncreatable can_create odir (take k files) /\
    (forall p, (forall e, e ∈ take k files ->
                          p <> paktool.output_path odir (pak_archive.entry_name e)) ->
               snd st !! p = fs !! p) /\
    (forall name (i : nat) e,
       pak_archive.m_lookupMap a !! name = Some i -> files !! i = Some e ->
       name ∈ map pak_archive.entry_name (take k files) ->
       can_create (paktool.output_path odir name) = true ->
       exists w, snd st !! paktool.output_path odir name = Some w /\
                 Z.of_nat (length w) = pak_file_t.size e)).
  assert (Hend : pak_archive.it_m_file (pak_archive.end_ a) = Z.of_nat (length files)).
  { unfold pak_archive.end_. cbn [pak_archive.it_m_file]. fold files.
    apply to_int_small. lia. }
  assert (Hinit : Inv 0%nat [] (a, fs)).
  { unfold Inv. cbn [fst snd]. split; [exact Hl|]. split; [done|]. split; [done|].
    split; [done|]. intros name i e _ _ Hname. rewrite take_0 in Hname.
    by apply elem_of_nil in Hname. }
  destruct (extract_entries_rule can_create can_mkdirs odir garbage (length files) m
              (pak_archive.end_ a) Inv Hn Hend Hm) with (fuel := length files) (k := 0%nat)
              (unable := @nil string) (st := (a, fs))
    as (unable' & [a' fs'] & Hinv & Hret & Hexn); [|lia|lia|exact Hinit|].
  - (* one round *)
    intros k unable [ak fk] Hk (Hlk & Hsame & Hun & Hframe & Hdone). cbn [fst snd] in *.
    destruct Hsame as [Hfiles Hmap].
    destruct (lookup_lt_is_Some_2 files k ltac:(lia)) as [e He].
    exists (pak_archive.entry_name e),
           (pak_file_details_t.mk (pak_file_t.offset e) (pak_file_t.size e)).
    destruct Hl as [Hok Hindexed]. destruct Hlk as [Hokk Hindexedk].
    assert (Hin : e ∈ files) by (by eapply list_elem_of_lookup_2).
    destruct (Hindexed e Hin) as [i Hi].
    assert (Hik : pak_archive.m_lookupMap ak !! pak_archive.entry_name e = Some i)
      by (by rewrite Hmap).
    assert (Htake : take (S k) files = take k files ++ [e]) by (by apply take_S_r).
    assert (Hdir : paktool.ensure_directory can_mkdirs odir (pak_archive.entry_name e) = None).
    { unfold directories_ok in Hdirs. rewrite Forall_lookup in Hdirs.
      apply (Hdirs k e). by rewrite lookup_take_lt. }
    assert (Hink : e ∈ take (S k) files).
    { rewrite Htake. apply elem_of_app. right. apply list_elem_of_here. }
    assert (Hsub : forall e0, e0 ∈ take k files -> e0 ∈ take (S k) files).
    { intros e0 He0. rewrite Htake. apply elem_of_app. by left. }
    destruct (can_create (paktool.output_path odir (pak_archive.entry_name e))) eqn:Ecc.
    + destruct (extract_file_writes can_create fk ak (pak_archive.entry_name e)
                  (paktool.output_path odir (pak_archive.entry_name e))
                  (garbage (Z.of_nat k)) i Hokk Hik Ecc)
        as (e' & a1 & w & He' & Hx & Hw & Hok1 & [Hf1 Hm1]).
      rewrite Hfiles in He'.
      exists true, (a1, <[paktool.output_path odir (pak_archive.entry_name e) := w]> fk).
      split; [apply deref_lookup; by rewrite Hfiles|]. split; [exact Hdir|].
      split; [exact Hx|].
      unfold Inv. cbn [fst snd]. split; [|split; [|split; [|split]]].
      * split; [exact Hok1|]. intros e0 He0. rewrite Hf1, Hfiles in He0.
        rewrite Hm1, Hmap. by apply Hindexed.
      * split; congruence.
      * rewrite Htake, uncreatable_snoc, Ecc, app_nil_r. exact Hun.
      * intros p Hp. rewrite lookup_insert_ne by (intros Heq; by apply (Hp e Hink)).
        apply Hframe. intros e0 He0. apply Hp. by apply Hsub.
      * intros name j ej Hj Hej Hname Hcc.
        destruct (decide (name = pak_archive.entry_name e)) as [->|Hne].
        -- rewrite lookup_insert_eq. exists w. split; [done|].
           rewrite Hi in Hj. injection Hj as <-. fold files in He'.
           rewrite He' in Hej. by injection Hej as <-.
        -- rewrite lookup_insert_ne by (intros Heq; apply output_path_inj in Heq; congruence).
           apply (Hdone name j ej Hj Hej); [|done].
           rewrite Htake, map_app in Hname. apply elem_of_app in Hname as [?|Hname]; [done|].
           cbn in Hname. apply list_elem_of_singleton in Hname. congruence.
    + exists false, (ak, fk).
      split; [apply deref_lookup; by rewrite Hfiles|]. split; [exact Hdir|].
      split; [apply extract_file_refuses; right; by rewrite Hik|].
      unfold Inv. cbn [fst snd]. split; [|split; [|split; [|split]]].
      * done.
      * done.
      * by rewrite Htake, uncreatable_snoc, Ecc, Hun.
      * intros p Hp. apply Hframe. intros e0 He0. apply Hp. by apply Hsub.
      * intros name j ej Hj Hej Hname Hcc.
        apply (Hdone name j ej Hj Hej); [|done].
        rewrite Htake, map_app in Hname. apply elem_of_app in Hname as [?|Hname]; [done|].
        cbn in Hname. apply list_elem_of_singleton in Hname. congruence.
  - unfold Inv in Hinv. destruct Hinv as (Hl' & Hsame & Hun & Hframe & Hdone).
    cbn [fst snd] in *.
    exists a', fs'. split; [exact Hl'|]. split; [exact Hsame|].
    split; [exact Hframe|]. split; [exact Hdone|]. split.
    + intros Heq. subst m. rewrite firstn_all in Hun. subst unable'. exact (Hret eq_refl).
    + intros e exn He Hexn'.
      apply (Hexn (pak_archive.entry_name e)
               (pak_file_details_t.mk (pak_file_t.offset e) (pak_file_t.size e)));
        [by apply lookup_lt_Some in He| |exact Hexn'].
      apply deref_lookup. destruct Hsame as [Hfiles _]. by rewrite Hfiles.
Qed.

Lemma open_true_index_sound fs path a0 a :
  pak_archive.open fs path a0 = Ret true a -> index_sound a.
Proof.
  intros H. destruct (open_true_state _ _ _ _ H) as (data & Hdata & Hst).
  cbv zeta in Hst. destruct Hst as (_ & _ & _ & ->). clear H.
  intros name i Hi. cbn [pak_archive.m_files pak_archive.m_lookupMap] in *.
  rewrite populate_lookup, lookup_empty in Hi.
  destruct (first_named name _) as [j|] eqn:E; [|discriminate Hi].
  cbn in Hi. injection Hi as <-. apply first_named_Some in E as (e & He & Hn & _).
  by exists e.
Qed.

(** X22. What [-x] does with an archive.  If [open] returns [false] the
    tool exits with 1 and has written nothing.  If [open] returns [true],
    [create_directory(odir)] is called next: when it throws, the tool ends
    in [filesystem_error] and has written nothing.  Otherwise the entries
    are taken in table order, [create_directories] being called for every
    name that holds a slash.  At the first entry whose directory cannot be
    made the tool ends in [filesystem_error], having changed no file other
    than the output paths [odir + "/" + name] of the entries before it.
    When every directory can be made the tool runs to the end and exits
    with 0; it reports as "Unable to extract" exactly the entries whose
    output file cannot be created, in table order; it changes no file
    other than the output paths; and every name that [stat] finds and
    whose output can be created ends as a file of exactly the size listed
    for it, whether or not the archive holds that many bytes there. *)
Theorem extract_reports (can_create can_mkdir can_mkdirs : string -> bool)
  (apath o odir : string) (garbage : Z -> list byte) (fs : filesystem) :
  paktool.output_dir apath o = Some odir ->
  (forall a', pak_archive.open fs apath pak_archive.init = Ret false a' ->
     paktool.extract can_create can_mkdir can_mkdirs apath o garbage fs = Ret (1, []) fs) /\
  (forall a, pak_archive.open fs apath pak_archive.init = Ret true a ->
     (can_mkdir odir = false ->
      paktool.extract can_create can_mkdir can_mkdirs apath o garbage fs
      = Exn filesystem_error fs) /\
     (forall (k : nat) e,
        can_mkdir odir = true ->
        pak_archive.m_files a !! k = Some e ->
        directories_ok can_mkdirs odir (take k (pak_archive.m_files a)) ->
        paktool.ensure_directory can_mkdirs odir (pak_archive.entry_name e) <> None ->
        exists fs',
          paktool.extract can_create can_mkdir can_mkdirs apath o garbage fs
          = Exn filesystem_error fs' /\
          forall p, (forall e', e' ∈ take k (pak_archive.m_files a) ->
                                p <> paktool.output_path odir (pak_archive.entry_name e')) ->
                    fs' !! p = fs !! p) /\
     (can_mkdir odir = true ->
      directories_ok can_mkdirs odir (pak_archive.m_files a) ->
      exists fs',
        paktool.extract can_create can_mkdir can_mkdirs apath o garbage fs
        = Ret (0, uncreatable can_create odir (pak_archive.m_files a)) fs' /\
        (forall p, (forall e, e ∈ pak_archive.m_files a ->
                              p <> paktool.output_path odir (pak_archive.entry_name e)) ->
                   fs' !! p = fs !! p) /\
        (forall name file_size offset,
           pak_archive.stat name 0 0 a = Ret (true, file_size, offset) a ->
           can_create (paktool.output_path odir name) = true ->
           exists w, fs' !! paktool.output_path odir name = Some w /\
                     Z.of_nat (length w) = file_size))).
Proof.
  intros Hodir. unfold paktool.extract. rewrite Hodir. split.
  - intros a' H. by rewrite H.
  - intros a H. rewrite H.
    destruct (open_true_Loaded _ _ _ _ H) as [Hl Hn].
    pose proof (open_true_index_sound _ _ _ _ H) as Hsound.
    split; [by intros ->|]. split.
    + intros k e -> He Hdirs Hthrow.
      destruct (paktool.ensure_directory can_mkdirs odir (pak_archive.entry_name e))
        as [exn|] eqn:Hexn; [|done].
      pose proof (ensure_directory_throws _ _ _ _ Hexn) as ->.
      destruct (extract_entries_loaded can_create can_mkdirs odir garbage a fs k Hl Hn)
        as (a' & fs' & _ & _ & Hframe & _ & _ & Hrun);
        [apply lookup_lt_Some in He; lia|exact Hdirs|].
      rewrite (Hrun e filesystem_error He Hexn). by exists fs'.
    + intros -> Hdirs.
      destruct (extract_entries_loaded can_create can_mkdirs odir garbage a fs
                  (length (pak_archive.m_files a)) Hl Hn)
        as (a' & fs' & Hl' & _ & Hframe & Hsizes & Hrun & _);
        [lia|by rewrite firstn_all|].
      rewrite firstn_all in Hframe, Hsizes.
      rewrite (Hrun eq_refl). destruct Hl' as [([f Hf] & _) _].
      unfold pak_archive.close. rewrite Hf.
      exists fs'. split; [reflexivity|]. split; [exact Hframe|].
      intros name sz off Hstat Hcc. unfold pak_archive.stat in Hstat.
      destruct (pak_archive.m_lookupMap a !! name) as [i|] eqn:Hi; [|discriminate Hstat].
      destruct (Hsound name i Hi) as (e & He & Hname).
      rewrite He in Hstat. injection Hstat as <- _.
      apply (Hsizes name i e Hi He); [|exact Hcc].
      rewrite <- Hname. apply list_elem_of_fmap. exists e. split; [done|].
      by eapply list_elem_of_lookup_2.
Qed.

Lemma extract_reports_witness :
  (exists fs',
     paktool.extract always always always "o.pak" "out" (fun _ => []) cut_disk
     = Ret (0, []) fs' /\
     exists w, fs' !! "out/dir/b.txt"%string = Some w /\ length w = 3%nat) /\
  paktool.extract always (fun _ => false) always "o.pak" "out" (fun _ => []) cut_disk
  = Exn filesystem_error cut_disk /\
  exists fs',
    paktool.extract always always (fun _ => false) "o.pak" "out" (fun _ => []) cut_disk
    = Exn filesystem_error fs' /\
    fs' !! "o.pak"%string = cut_disk !! "o.pak"%string.
Proof.
  pose (a := pak_archive.set_m_fileSize 140 opened).
  assert (Ho : pak_archive.open cut_disk "o.pak" pak_archive.init = Ret true a)
    by (vm_compute; reflexivity).
  split; [|split].
  - destruct (proj2 (extract_reports always always always "o.pak" "out" "out" (fun _ => [])
                       cut_disk eq_refl) a Ho) as (_ & _ & Hrun).
    destruct (Hrun eq_refl) as (fs' & Hx & _ & Hsz).
    { apply Forall_forall. intros e _. by apply ensure_directory_None. }
    assert (Hu : uncreatable always "out" (pak_archive.m_files a) = [])
      by (vm_compute; reflexivity).
    rewrite Hu in Hx. exists fs'. split; [exact Hx|].
    destruct (Hsz "dir/b.txt"%string 3 142) as (w & Hw & Hlen).
    + vm_compute. reflexivity.
    + reflexivity.
    + exists w. split; [exact Hw|lia].
  - destruct (proj2 (extract_reports always (fun _ => false) always "o.pak" "out" "out"
                       (fun _ => []) cut_disk eq_refl) a Ho) as (Hthrow & _).
    by apply Hthrow.
  - destruct (proj2 (extract_reports always always (fun _ => false) "o.pak" "out" "out"
                       (fun _ => []) cut_disk eq_refl) a Ho) as (_ & Hthrow & _).
    assert (He : exists e, pak_archive.m_files a !! 1%nat = Some e /\
                           pak_archive.entry_name e = "dir/b.txt"%string)
      by (eexists; split; [reflexivity|vm_compute; reflexivity]).
    destruct He as (e & He & Hname).
    destruct (Hthrow 1%nat e eq_refl He) as (fs' & Hx & Hframe).
    + apply Forall_forall. intros e0 He0.
      assert (Hn0 : pak_archive.entry_name e0 = "a.txt"%string).
      { apply list_elem_of_singleton in He0. subst e0. vm_compute. reflexivity. }
      rewrite Hn0. reflexivity.
    + rewrite Hname. discriminate.
    + exists fs'. split; [exact Hx|]. apply Hframe.
      intros e' He'. apply list_elem_of_singleton in He'. subst e'. vm_compute. discriminate.
Defined.

(** ** [main]: [-c] and then [-x] *)

Lemma built_extract_file can_create (fs : filesystem) (inputs : list (string * string))
  (pak : string) ak (i : nat) d nm out garbage pos (fs2 : filesystem) :
  Forall (registrable fs) inputs ->
  Forall (fun input => nul_free (snd input) /\ fst input <> pak) inputs ->
  archive_size (map (pending fs) inputs) < 2 ^ 32 ->
  let files := map (pending fs) inputs in
  let es := listing_entries (12 + 64 * Z.of_nat (length inputs)) files in
  pak_archive.m_files ak = es ->
  pak_archive.m_lookupMap ak = pak_archive.populate 0 es ∅ ->
  pak_archive.m_file ak = stream (mkFILE pak pos) ->
  inputs !! i = Some (d, nm) ->
  (forall (j : nat) input, inputs !! j = Some input -> (j < i)%nat -> snd input <> nm) ->
  can_create out = true -> pak <> out ->
  fs2 !! pak = Some (layout_bytes files ++ concat (sources fs files)) ->
  exists pos',
    pak_archive.extract_file can_create nm out garbage (ak, fs2)
    = Ret true (pak_archive.set_m_file (stream (mkFILE pak pos')) ak,
                <[out := file_bytes fs d]> fs2).
Proof.
  intros Hreg Hnames Hfit files es Hfiles Hmap Hfile Hi Hfirst Hcc Hout Hfs2.
  destruct (built_entry fs inputs pak i d nm Hreg Hnames Hfit Hi)
    as (e & He & Hnm & Hoff & Hsz & Hlo & Hsz0 & Hhi).
  pose proof (built_index fs inputs pak i d nm Hreg Hnames Hfit Hi Hfirst) as Hidx.
  fold files es in He, Hidx, Hoff, Hhi, Hlo.
  assert (Hlenf : length files = length inputs) by apply length_map.
  assert (Hsrc : sources_present fs pak files).
  { apply sources_present_pending; [done|].
    eapply Forall_impl; [exact Hnames|]. by intros ? [_ ?]. }
  pose proof (sources_present_sizes_ok _ _ _ Hsrc) as Hok.
  pose proof (total_size_nonneg _ Hok) as Htot.
  fold files in Hfit. unfold archive_size in Hfit. rewrite Hlenf in Hfit.
  set (data := layout_bytes files ++ concat (sources fs files)) in *.
  assert (Hlend : Z.of_nat (length data)
                  = 12 + 64 * Z.of_nat (length inputs) + total_size files).
  { subst data. rewrite length_app, Nat2Z.inj_add, length_layout_bytes, Hlenf.
    rewrite (total_size_sources fs pak files Hsrc). lia. }
  assert (Hfi : files !! i = Some (pending fs (d, nm))).
  { subst files. by rewrite list_lookup_fmap, Hi. }
  pose proof (archive_data_at fs pak files i _ (layout_bytes files) Hsrc Hfi) as Hat.
  cbn [pending pak_builder.file_t.size pak_builder.file_t.disk_path fst] in Hat.
  rewrite length_layout_bytes, Hlenf in Hat. fold data in Hat.
  exists (pak_file_t.offset e + pak_file_t.size e).
  rewrite (extract_file_spec can_create fs2 ak nm out garbage i e pak pos data).
  - by rewrite Hoff, Hsz, Hat.
  - by rewrite Hmap.
  - by rewrite Hfiles.
  - exact Hfile.
  - exact Hcc.
  - exact Hout.
  - exact Hfs2.
  - lia.
  - lia.
  - lia.
Qed.

Lemma first_input (inputs : list (string * string)) (k : nat) d nm :
  inputs !! k = Some (d, nm) ->
  exists (i : nat) d0,
    inputs !! i = Some (d0, nm) /\
    forall (j : nat) input, inputs !! j = Some input -> (j < i)%nat -> snd input <> nm.
Proof.
  intros Hk.
  destruct (list_find (fun input : string * string => snd input = nm) inputs)
    as [[i [d0 nm0]]|] eqn:E.
  - apply list_find_Some in E as (Hi & Hnm & Hfirst). cbn in Hnm. subst nm0.
    exists i, d0. split; [exact Hi|]. intros j input Hj Hlt. by apply (Hfirst j).
  - apply list_find_None in E. rewrite Forall_forall in E.
    destruct (E (d, nm)); [by eapply list_elem_of_lookup_2|done].
Qed.

Lemma filter_all {A} (P : A -> Prop) `{forall x, Decision (P x)} (l : list A) :
  Forall P l -> filter P l = l.
Proof.
  induction 1 as [|x l Hx Hl IH]; [done|].
  rewrite filter_cons, decide_True by done. by rewrite IH.
Qed.

Lemma named_entries_portable can_create can_mkdirs fs dir out odir entries p pp :
  dir <> EmptyString ->
  Forall (portable can_create can_mkdirs fs dir out odir) entries ->
  (p, pp) ∈ named_entries dir entries ->
  p = dir +:+ "/" +:+ pp /\ registrable fs (p, pp) /\ nul_free pp /\ p <> out /\
  paktool.ensure_directory can_mkdirs odir pp = None /\
  can_create (paktool.output_path odir pp) = true /\ paktool.output_path odir pp <> out.
Proof.
  intros Hdir Hall Hin. apply named_entries_elem in Hin as [Hin Hpn].
  rewrite Forall_forall in Hall.
  destruct (Hall _ Hin eq_refl) as (rel & Hp & Hrest). cbn [fst] in Hp, Hrest.
  rewrite Hp, pak_name_prefix in Hpn by done.
  change (paktool.string_drop 1 ("/" +:+ rel)) with rel in Hpn. injection Hpn as <-.
  split; [exact Hp|exact Hrest].
Qed.

Lemma named_entries_intro dir entries p rel :
  dir <> EmptyString ->
  (p, false) ∈ entries -> p = dir +:+ "/" +:+ rel -> (p, rel) ∈ named_entries dir entries.
Proof.
  intros Hdir Hin Hp. unfold named_entries. apply list_elem_of_omap.
  exists (p, false). split; [exact Hin|]. cbn [fst snd].
  rewrite Hp, pak_name_prefix by done. reflexivity.
Qed.

(** X23. The tool's round trip.  Let the directory iterator of
    [-c out dir] produce entries of which at least one is a file, each
    file at [dir/rel] with [rel] a NUL-free name of at most 56 bytes and a
    size of at most [UINT32_MAX]; let the archive stay below 4 GiB, [out]
    be creatable and none of the files, the directory [odir] and the
    directory of every [odir/rel] be such that [create_directory] and
    [create_directories] return on them, and every output path
    [odir/rel] be creatable and not [out].  Then [-c] exits with 0, [-x]
    on the archive it wrote exits with 0 and reports no name, and
    afterwards [odir/rel] holds exactly the bytes [dir/rel] had. *)
Theorem create_extract_roundtrip (can_create can_mkdir can_mkdirs : string -> bool)
  (dir out o odir : string)
  (entries : list (string * bool)) (garbage : list byte) (garbage' : Z -> list byte)
  (fs : filesystem) :
  dir <> EmptyString ->
  (exists p, (p, false) ∈ entries) ->
  Forall (portable can_create can_mkdirs fs dir out odir) entries ->
  archive_size (map (pending fs) (named_entries dir entries)) < 2 ^ 32 ->
  can_create out = true ->
  paktool.output_dir out o = Some odir ->
  can_mkdir odir = true ->
  exists fs1 fs2,
    paktool.create can_create dir out entries garbage fs
    = Ret (0, Z.of_nat (length (named_entries dir entries))) fs1 /\
    paktool.extract can_create can_mkdir can_mkdirs out o garbage' fs1 = Ret (0, []) fs2 /\
    forall p rel, (p, false) ∈ entries -> p = dir +:+ "/" +:+ rel ->
                  fs2 !! paktool.output_path odir rel = Some (file_bytes fs p).
Proof.
  intros Hdir [p0 Hp0] Hall Hfit Hc Hodir Hmk.
  set (inputs := named_entries dir entries) in *.
  assert (Hport : forall p pp, (p, pp) ∈ inputs ->
            p = dir +:+ "/" +:+ pp /\ registrable fs (p, pp) /\ nul_free pp /\ p <> out /\
            paktool.ensure_directory can_mkdirs odir pp = None /\
            can_create (paktool.output_path odir pp) = true /\
            paktool.output_path odir pp <> out).
  { intros p pp. by apply (named_entries_portable can_create can_mkdirs). }
  assert (Hreg : Forall (registrable fs) inputs).
  { apply Forall_forall. intros [p pp] Hin. by destruct (Hport p pp Hin) as (_ & ? & _). }
  assert (Hnames : Forall (fun input => nul_free (snd input) /\ fst input <> out) inputs).
  { apply Forall_forall. intros [p pp] Hin.
    by destruct (Hport p pp Hin) as (_ & _ & ? & ? & _). }
  assert (Hacc : filter (accepted fs) inputs = inputs).
  { apply filter_all. apply Forall_forall. intros [p pp] Hin.
    destruct (Hport p pp Hin) as (_ & [Hlen (data & Hd & Hsz)] & _).
    cbn [fst snd] in *. unfold accepted. cbn [fst snd]. rewrite (file_bytes_Some _ _ _ Hd).
    rewrite (proj2 (Z.leb_le _ _) Hlen), (proj2 (Z.leb_le _ _) Hsz). exact I. }
  assert (Hne : inputs <> []).
  { rewrite Forall_forall in Hall.
    destruct (Hall _ Hp0 eq_refl) as (rel & Hp & _). cbn [fst] in Hp.
    pose proof (named_entries_intro dir entries p0 rel Hdir Hp0 Hp) as Hin.
    fold inputs in Hin. intros Hnil. rewrite Hnil in Hin. by apply elem_of_nil in Hin. }
  destruct (built_archive can_create fs inputs out garbage Hne Hreg Hnames Hfit Hc)
    as (_ & Hw & Hopen & Hlend & Hsrc).
  set (files := map (pending fs) inputs) in *.
  set (n := Z.of_nat (length inputs)) in *.
  set (es := listing_entries (12 + 64 * n) files) in *.
  set (data := layout_bytes files ++ concat (sources fs files)) in *.
  assert (Hlene : length es = length inputs).
  { subst es files. by rewrite length_listing_entries, length_map. }
  assert (Hn : 64 * n < 2 ^ 32).
  { pose proof (total_size_nonneg _ (sources_present_sizes_ok _ _ _ Hsrc)).
    unfold archive_size in Hfit. subst files n. rewrite length_map in Hfit. lia. }
  set (a := pak_archive.mk (stream (mkFILE out (12 + 64 * n))) (Z.of_nat (length data)) es
              NoError (pak_archive.populate 0 es ∅)) in *.
  (* the loop of [-x] *)
  set (Inv := fun (k : nat) (unable : list string) (st : pak_archive.t * filesystem) =>
    unable = [] /\
    pak_archive.m_files (fst st) = es /\
    pak_archive.m_lookupMap (fst st) = pak_archive.populate 0 es ∅ /\
    (exists pos, pak_archive.m_file (fst st) = stream (mkFILE out pos)) /\
    snd st !! out = Some data /\
    forall (j : nat) d nm, (j < k)%nat -> inputs !! j = Some (d, nm) ->
      snd st !! paktool.output_path odir nm = Some (file_bytes fs d)).
  assert (Hend : pak_archive.it_m_file (pak_archive.end_ a) = Z.of_nat (length inputs)).
  { unfold pak_archive.end_. cbn [pak_archive.it_m_file pak_archive.m_files a].
    rewrite Hlene. apply to_int_small. fold n. lia. }
  assert (Hinit : Inv 0%nat [] (a, <[out := data]> fs)).
  { unfold Inv. cbn [fst snd]. split; [done|]. split; [done|]. split; [done|].
    split; [by eexists|]. split; [apply lookup_insert_eq|]. intros j d nm Hj. lia. }
  assert (Hstep : forall (k : nat) unable st, (k < length inputs)%nat -> Inv k unable st ->
     exists name d ok st',
       pak_archive.deref (fst st) (pak_archive.mkiterator (Z.of_nat k)) = Some (name, d) /\
       paktool.ensure_directory can_mkdirs odir name = None /\
       pak_archive.extract_file can_create name (paktool.output_path odir name)
         (garbage' (Z.of_nat k)) st = Ret ok st' /\
       Inv (S k) (if ok then unable else unable ++ [name]) st').
  { intros k unable [ak fk] Hk (Hun & Hfiles & Hmap & [pos Hfile] & Hdata & Hdone).
    cbn [fst snd] in *.
    destruct (lookup_lt_is_Some_2 inputs k Hk) as [[d nm] Hik].
    destruct (built_entry fs inputs out k d nm Hreg Hnames Hfit Hik) as (e & He & Hnm & _).
    fold files n es in He.
    destruct (first_input inputs k d nm Hik) as (i & d0 & Hi & Hfirst).
    assert (Hd0 : d0 = d).
    { destruct (Hport d nm) as [-> _]; [by eapply list_elem_of_lookup_2|].
      destruct (Hport d0 nm) as [-> _]; [by eapply list_elem_of_lookup_2|]. done. }
    subst d0.
    destruct (Hport d nm) as (_ & _ & _ & _ & Hmks & Hcc & Hout);
      [by eapply list_elem_of_lookup_2|].
    destruct (built_extract_file can_create fs inputs out ak i d nm
                (paktool.output_path odir nm) (garbage' (Z.of_nat k)) pos fk
                Hreg Hnames Hfit Hfiles Hmap Hfile Hi Hfirst Hcc ltac:(done) Hdata)
      as [pos' Hx].
    exists nm, (pak_file_details_t.mk (pak_file_t.offset e) (pak_file_t.size e)), true,
           (pak_archive.set_m_file (stream (mkFILE out pos')) ak,
            <[paktool.output_path odir nm := file_bytes fs d]> fk).
    split; [rewrite <- Hnm; apply deref_lookup; by rewrite Hfiles|].
    split; [exact Hmks|]. split; [exact Hx|].
    unfold Inv. cbn [fst snd pak_archive.set_m_file pak_archive.m_files
                     pak_archive.m_lookupMap pak_archive.m_file].
    split; [exact Hun|]. split; [exact Hfiles|]. split; [exact Hmap|].
    split; [by eexists|]. split; [by rewrite lookup_insert_ne|].
    intros j d' nm' Hj Hij.
    destruct (decide (nm' = nm)) as [->|Hnm'].
    - rewrite lookup_insert_eq.
      destruct (Hport d' nm) as [-> _]; [by eapply list_elem_of_lookup_2|].
      destruct (Hport d nm) as [-> _]; [by eapply list_elem_of_lookup_2|]. done.
    - rewrite lookup_insert_ne by (intros Heq; apply output_path_inj in Heq; congruence).
      apply (Hdone j d' nm'); [|exact Hij].
      destruct (decide (j = k)) as [->|]; [|lia]. rewrite Hik in Hij. congruence. }
  destruct (extract_entries_rule can_create can_mkdirs odir garbage' (length inputs)
              (length inputs) (pak_archive.end_ a) Inv ltac:(fold n; lia) Hend
              (Nat.le_refl _) Hstep
              (length inputs) 0%nat [] (a, <[out := data]> fs) ltac:(lia) ltac:(lia) Hinit)
    as (unable' & [a' fs2] & Hinv & Hrun & _).
  specialize (Hrun eq_refl).
  unfold Inv in Hinv. cbn [fst snd] in Hinv.
  destruct Hinv as (-> & _ & _ & [pos Hfile] & _ & Hdone).
  exists (<[out := data]> fs), fs2. split; [|split].
  - unfold paktool.create.
    rewrite add_entries_spec.
    + fold inputs. rewrite Hacc. cbn [pak_builder.init pak_builder.m_files app].
      fold files. rewrite Hw. by rewrite Z.add_0_l.
    + eapply Forall_impl; [exact Hall|]. intros e He Hs.
      destruct (He Hs) as (rel & _ & [_ (dt & Hdt & _)] & _). by eexists.
    + lia.
    + fold inputs n. lia.
  - unfold paktool.extract. rewrite Hodir, Hopen, Hmk. fold a.
    replace (length (pak_archive.m_files a)) with (length inputs) by (by rewrite <- Hlene).
    change (pak_archive.begin a) with (pak_archive.mkiterator (Z.of_nat 0)).
    rewrite Hrun. unfold pak_archive.close. by rewrite Hfile.
  - intros p rel Hin Hp.
    pose proof (named_entries_intro dir entries p rel Hdir Hin Hp) as Hin'.
    fold inputs in Hin'. apply list_elem_of_lookup_1 in Hin' as [j Hj].
    apply (Hdone j p rel); [|exact Hj]. by apply lookup_lt_Some in Hj.
Qed.

Lemma create_extract_roundtrip_witness :
  exists fs1 fs2,
    paktool.create always "d" "o.pak" tree_entries [] tree_disk = Ret (0, 2) fs1 /\
    paktool.extract always always always "o.pak" "x" (fun _ => []) fs1 = Ret (0, []) fs2 /\
    fs2 !! "x/sub/b.txt"%string = Some [x79; x6f; x75].
Proof.
  destruct (create_extract_roundtrip always always always "d" "o.pak" "x" "x" tree_entries []
              (fun _ => []) tree_disk) as (fs1 & fs2 & Hc & Hx & Hb).
  - discriminate.
  - exists "d/a.txt"%string. apply list_elem_of_here.
  - unfold tree_entries.
    apply Forall_cons_2; [|apply Forall_cons_2; [|apply Forall_cons_2; [|apply Forall_nil_2]]];
      intros Hs; try discriminate Hs.
    + exists "a.txt"%string. split; [reflexivity|].
      split; [split; [vm_compute; discriminate|]|].
      { exists [x68; x69]. split; [reflexivity|vm_compute; discriminate]. }
      split; [solve_nul_free|]. split; [discriminate|]. split; [reflexivity|].
      split; [reflexivity|vm_compute; discriminate].
    + exists "sub/b.txt"%string. split; [reflexivity|].
      split; [split; [vm_compute; discriminate|]|].
      { exists [x79; x6f; x75]. split; [reflexivity|vm_compute; discriminate]. }
      split; [solve_nul_free|]. split; [discriminate|]. split; [reflexivity|].
      split; [reflexivity|vm_compute; discriminate].
  - vm_compute. reflexivity.
  - reflexivity.
  - reflexivity.
  - reflexivity.
  - assert (Hn : Z.of_nat (length (named_entries "d" tree_entries)) = 2)
      by (vm_compute; reflexivity).
    rewrite Hn in Hc. exists fs1, fs2. split; [exact Hc|]. split; [exact Hx|].
    apply (Hb "d/sub/b.txt"%string "sub/b.txt"%string); [|reflexivity].
    unfold tree_entries. do 2 apply list_elem_of_further. apply list_elem_of_here.
Defined.

Lemma named_entries_directories dir entries :
  Forall (fun e : string * bool => snd e = true) entries -> named_entries dir entries = [].
Proof.
  unfold named_entries. induction 1 as [|[p d] entries Hd _ IH]; [done|].
  cbn [snd] in Hd. subst d. cbn [omap list_omap snd]. exact IH.
Qed.

(** X24. A directory without files gives an archive the tool cannot read
    back.  When the iterator of [-c out dir] produces directories only and
    [out] can be created, [-c] exits with 0, reports 0 files and leaves
    the 12 bytes of a header with an empty table; [-x] on that file
    then ends in the [out_of_range] exception that [open] lets escape,
    having written nothing. *)
Theorem create_empty_directory (can_create can_mkdir can_mkdirs : string -> bool)
  (dir out o odir : string)
  (entries : list (string * bool)) (garbage : list byte) (garbage' : Z -> list byte)
  (fs : filesystem) :
  Forall (fun e : string * bool => snd e = true) entries ->
  can_create out = true ->
  paktool.output_dir out o = Some odir ->
  paktool.create can_create dir out entries garbage fs
  = Ret (0, 0) (<[out := empty_pak]> fs) /\
  paktool.extract can_create can_mkdir can_mkdirs out o garbage' (<[out := empty_pak]> fs)
  = Exn out_of_range (<[out := empty_pak]> fs).
Proof.
  intros Hdirs Hc Hodir. split.
  - unfold paktool.create.
    rewrite add_entries_spec, named_entries_directories by
      (done || (rewrite ?named_entries_directories by done; cbn; lia)
       || (eapply Forall_impl; [exact Hdirs|]; cbn; intros e He Hs; congruence)).
    cbn [filter list_filter map app pak_builder.init pak_builder.m_files length].
    change (pak_builder.mk []) with pak_builder.init.
    rewrite (write_spec can_create out garbage pak_builder.init fs Hc);
      [reflexivity|apply Forall_nil_2|vm_compute; reflexivity].
  - unfold paktool.extract. rewrite Hodir.
    rewrite (open_valid_header (<[out := empty_pak]> fs) out pak_archive.init empty_pak);
      [reflexivity|discriminate|apply lookup_insert_eq|vm_compute; discriminate|reflexivity].
Qed.

Lemma create_empty_directory_witness :
  paktool.create always "d" "o.pak" [("d/sub"%string, true)] [] ∅
  = Ret (0, 0) {[ "o.pak"%string := empty_pak ]} /\
  paktool.extract always always always "o.pak" "x" (fun _ => [])
    {[ "o.pak"%string := empty_pak ]}
  = Exn out_of_range {[ "o.pak"%string := empty_pak ]}.
Proof.
  apply (create_empty_directory always always always "d" "o.pak" "x" "x"
           [("d/sub"%string, true)] []
           (fun _ => []) ∅).
  - apply Forall_cons_2; [reflexivity|apply Forall_nil_2].
  - reflexivity.
  - reflexivity.
Defined.
